(** * yt-playlist-export: a shallow embedding of [yt_playlist_export.py]

    YouTube playlists and ID lists are mapped to FreeTube, Piped and NewPipe
    files.  The development follows the layout of the Python module: text
    helpers, data models, the yt-dlp client, inputs, exporters, the
    subscription fetch, the builders and [main]; the properties come last.

    Conventions of the model.
    - A Python [str] is a list of code points ([N]); a text file holds the
      text written to it (the UTF-8 codec of [open(..., encoding="utf-8")]
      is an injective morphism on encodable text and is left out, so text is
      assumed encodable).
    - The clock ([time.time]), [uuid4] and yt-dlp are oracles of the
      environment, indexed by the number of calls made so far.
    - Exceptions are values of [Exn]; a computation returns a [Result]
      together with the new process state.  Interrupts from outside
      ([KeyboardInterrupt], a broken pipe) do not occur in the model. *)

From Stdlib Require Import ZArith NArith List String Ascii Lia Bool.
From Stdlib Require DecimalFacts DecimalPos DecimalN.
From stdpp Require Import base option gmap.
Import ListNotations.

Local Open Scope N_scope.

(** ** Python strings *)

Abbreviation str := (list N).

Definition py (s : string) : str :=
  List.map N_of_ascii (list_ascii_of_string s).
Arguments py : simpl never.

Fixpoint str_eqb (a b : str) : bool :=
  match a, b with
  | [], [] => true
  | x :: a', y :: b' => (x =? y) && str_eqb a' b'
  | _, _ => false
  end.

(** [s.startswith(p)] *)
Fixpoint startswith (s p : str) {struct p} : bool :=
  match p, s with
  | [], _ => true
  | _ :: _, [] => false
  | x :: p', y :: s' => (x =? y) && startswith s' p'
  end.

(** [s.endswith(p)] *)
Definition endswith (s p : str) : bool := startswith (rev s) (rev p).

Definition in_range (lo hi c : N) : bool := (lo <=? c) && (c <=? hi).

(** [str.isspace] on one code point: CPython's [_PyUnicode_IsWhitespace]. *)
Definition isspace (c : N) : bool :=
  in_range 0x09 0x0D c || in_range 0x1C 0x20 c || (c =? 0x85) || (c =? 0xA0)
  || (c =? 0x1680) || in_range 0x2000 0x200A c || (c =? 0x2028)
  || (c =? 0x2029) || (c =? 0x202F) || (c =? 0x205F) || (c =? 0x3000).

Fixpoint lstrip_by (p : N -> bool) (s : str) : str :=
  match s with
  | [] => []
  | c :: t => if p c then lstrip_by p t else s
  end.

Definition rstrip_by (p : N -> bool) (s : str) : str :=
  rev (lstrip_by p (rev s)).

Definition strip_by (p : N -> bool) (s : str) : str :=
  rstrip_by p (lstrip_by p s).

(** [s.strip()] *)
Definition strip (s : str) : str := strip_by isspace s.

(** [s.replace(a, b)] for one-character [a] and [b] *)
Definition replace_char (a b : N) (s : str) : str :=
  List.map (fun c => if c =? a then b else c) s.

(** [s.lower()] restricted to the ASCII letters (used on file suffixes). *)
Definition lower (s : str) : str :=
  List.map (fun c => if in_range 65 90 c then c + 32 else c) s.

(** Decimal digits of a number, [str(n)] for a non-negative [int]. *)
Fixpoint uint_chars (u : Decimal.uint) : str :=
  match u with
  | Decimal.Nil => []
  | Decimal.D0 u => 48 :: uint_chars u
  | Decimal.D1 u => 49 :: uint_chars u
  | Decimal.D2 u => 50 :: uint_chars u
  | Decimal.D3 u => 51 :: uint_chars u
  | Decimal.D4 u => 52 :: uint_chars u
  | Decimal.D5 u => 53 :: uint_chars u
  | Decimal.D6 u => 54 :: uint_chars u
  | Decimal.D7 u => 55 :: uint_chars u
  | Decimal.D8 u => 56 :: uint_chars u
  | Decimal.D9 u => 57 :: uint_chars u
  end.

Definition str_of_N (n : N) : str := uint_chars (N.to_uint n).

(** [str(z)] for an [int] *)
Definition str_of_Z (z : Z) : str :=
  match z with
  | Zneg p => 45 :: str_of_N (Npos p)
  | _ => str_of_N (Z.to_N z)
  end.

(** ** Raw values of the extractor

    yt-dlp returns loosely typed dictionaries.  The scalar values the program
    looks at are [None], booleans, integers, floats and strings.  A float is
    only ever tested for truth and printed, so it is carried as its [repr]
    text and its truth value. *)

Inductive PyVal :=
| VNone
| VBool (b : bool)
| VInt (z : Z)
| VFloat (repr : str) (nonzero : bool)
| VStr (s : str).

(** [bool(v)] *)
Definition truthy (v : PyVal) : bool :=
  match v with
  | VNone => false
  | VBool b => b
  | VInt z => negb (Z.eqb z 0)
  | VFloat _ nz => nz
  | VStr s => match s with [] => false | _ => true end
  end.

(** [str(v)] *)
Definition py_str (v : PyVal) : str :=
  match v with
  | VNone => py "None"
  | VBool true => py "True"
  | VBool false => py "False"
  | VInt z => str_of_Z z
  | VFloat r _ => r
  | VStr s => s
  end.

(** [a or b] *)
Definition py_or (a b : PyVal) : PyVal := if truthy a then a else b.

(** A raw record: [e.get(k)] is [None] for a missing key. *)
Abbreviation Entry := (gmap str PyVal).

Definition get (e : Entry) (k : string) : PyVal :=
  match e !! py k with
  | Some v => v
  | None => VNone
  end.

(** [k in e] *)
Definition has_key (e : Entry) (k : string) : bool :=
  match e !! py k with
  | Some _ => true
  | None => false
  end.

(** [v is None] *)
Definition is_None (v : PyVal) : bool :=
  match v with VNone => true | _ => false end.

(** ** Text helpers *)

(** [ZERO_WIDTH]: the class [\u200B-\u200F\uFEFF] *)
Definition ZERO_WIDTH (c : N) : bool := in_range 0x200B 0x200F c || (c =? 0xFEFF).

(** [ZERO_WIDTH.sub("", s)] *)
Definition sub_empty (cls : N -> bool) (s : str) : str :=
  List.filter (fun c => negb (cls c)) s.

Definition clean_text (s : PyVal) : str :=
  match s with
  | VNone => []
  | _ =>
    let s := replace_char 0x2024 46 (replace_char 0xA0 32 (strip (py_str s))) in
    sub_empty ZERO_WIDTH s
  end.

(** [\d] of [re] on [str] patterns: the Unicode decimal digits (category Nd).
    They come in runs of ten, listed by the code point of their zero
    (Unicode 14.0). *)
Definition Nd_zeros : list N :=
  [0x30; 0x660; 0x6f0; 0x7c0; 0x966; 0x9e6; 0xa66; 0xae6; 0xb66; 0xbe6;
   0xc66; 0xce6; 0xd66; 0xde6; 0xe50; 0xed0; 0xf20; 0x1040; 0x1090; 0x17e0;
   0x1810; 0x1946; 0x19d0; 0x1a80; 0x1a90; 0x1b50; 0x1bb0; 0x1c40; 0x1c50;
   0xa620; 0xa8d0; 0xa900; 0xa9d0; 0xa9f0; 0xaa50; 0xabf0; 0xff10; 0x104a0;
   0x10d30; 0x11066; 0x110f0; 0x11136; 0x111d0; 0x112f0; 0x11450; 0x114d0;
   0x11650; 0x116c0; 0x11730; 0x118e0; 0x11950; 0x11c50; 0x11d50; 0x11da0;
   0x16a60; 0x16ac0; 0x16b50; 0x1d7ce; 0x1d7d8; 0x1d7e2; 0x1d7ec; 0x1d7f6;
   0x1e140; 0x1e2f0; 0x1e950; 0x1fbf0].

(** The value of a decimal digit, [None] for any other character. *)
Definition digit_value (c : N) : option N :=
  match List.find (fun z => in_range z (z + 9) c) Nd_zeros with
  | Some z => Some (c - z)
  | None => None
  end.

Definition is_digit (c : N) : bool :=
  match digit_value c with Some _ => true | None => false end.

(** [re.sub(r"[^\d]", "", str(val))] *)
Definition to_int_str (val : PyVal) : str :=
  match val with
  | VNone => []
  | _ => sub_empty (fun c => negb (is_digit c)) (py_str val)
  end.

(** [int(s)] on a string of decimal digits.  CPython refuses a string of
    more than 4300 digits ([sys.int_max_str_digits]) with [ValueError];
    that limit is not part of this function, which gives the number for
    every string: the statements about the value of a number read from its
    digits carry the bound of 4300 digits as a hypothesis. *)
Definition int_of_digits (s : str) : Z :=
  Z.of_N (fold_left (fun acc c => 10 * acc + default 0 (digit_value c)) s 0).

(** [int(to_int_str(v or 0) or 0)] *)
Definition coerce_int (v : PyVal) : Z :=
  match to_int_str (py_or v (VInt 0)) with
  | [] => 0%Z
  | ds => int_of_digits ds
  end.

(** The class [[A-Za-z0-9._-]] *)
Definition name_char (c : N) : bool :=
  in_range 65 90 c || in_range 97 122 c || in_range 48 57 c
  || (c =? 46) || (c =? 95) || (c =? 45).

(** [re.sub(r"[^A-Za-z0-9._-]+", "_", name)]: every maximal run of other
    characters becomes one underscore ([in_run] tells that the run has
    already been replaced). *)
Fixpoint sub_runs (in_run : bool) (s : str) : str :=
  match s with
  | [] => []
  | c :: t =>
    if name_char c then c :: sub_runs false t
    else if in_run then sub_runs true t
    else 95 :: sub_runs true t
  end.

Definition sanitize_name (name : str) : str :=
  strip_by (N.eqb 95) (sub_runs false name).

(** The format spec [:03]: decimal, zero-padded to a width of at least 3. *)
Definition fmt03 (n : N) : str :=
  let d := str_of_N n in
  repeat 48 (3 - List.length d)%nat ++ d.

(** ** Exceptions, environment and process state *)

Inductive Exn :=
| FileNotFoundError (msg : str)
| IsADirectoryError (path : str)
| NotADirectoryError (path : str)
| FileExistsError (path : str)
| RuntimeError (msg : str)
| ValueError (msg : str)
| AttributeError (msg : str)
| TypeError (msg : str)
| ExtractorError (msg : str)
| SystemExit (code : Z).

(** [except Exception] does not catch [SystemExit]. *)
Definition is_Exception (e : Exn) : bool :=
  match e with SystemExit _ => false | _ => true end.

(** [str(e)] of a caught exception *)
Definition exn_message (e : Exn) : str :=
  match e with
  | FileNotFoundError m | RuntimeError m | ValueError m | AttributeError m
  | TypeError m | ExtractorError m => m
  | IsADirectoryError p | NotADirectoryError p | FileExistsError p => p
  | SystemExit c => str_of_Z c
  end.

(** The value under the key ["entries"] of an extracted playlist or feed. *)
Inductive EntriesField :=
| EntriesMissing
| EntriesNone
| EntriesList (l : list (option Entry)).

(** The dictionary returned by [extract_info]: its scalar fields and its
    ["entries"]. *)
Record Info := { info_fields : Entry; info_entries : EntriesField }.

Inductive Extracted :=
| ExtractRaises (msg : str)
| ExtractNothing
| ExtractInfo (info : Info).

(** What the program reads from its surroundings.  The k-th call of the
    clock, of [uuid4] and of [extract_info] is answered by the oracle at
    index k.  [cookie_spec_error] tells whether
    [parse_cookiesfrombrowser_spec] rejects a specification (its result only
    travels into yt-dlp's options). *)
Record Env := {
  time_ms : nat -> Z;
  uuid4 : nat -> str;
  extract_info : nat -> str -> Extracted;
  cookie_spec_error : str -> option str;
  sys_platform : str;
  home_dir : str;
  env_APPDATA : option str
}.

Inductive OpenMode := ModeR | ModeW | ModeA.

Inductive Event :=
| EvOpen (path : str) (mode : OpenMode)
| EvWrite (path : str) (data : str)
| EvFlush (path : str)
| EvFsync (path : str)
| EvClose (path : str)
| EvMakedirs (path : str)
| EvPrint (text : str)
| EvPrintHelp.

(** The process state: how often each oracle was asked, the file system
    ([files]: what a reader of the file sees; [disk]: what has been forced to
    storage; [dirs]: the directories) and the trace of input/output calls,
    oldest first. *)
Record State := {
  clock_reads : nat;
  uuid_draws : nat;
  extractions : nat;
  files : gmap str str;
  dirs : gset str;
  disk : gmap str str;
  trace : list Event
}.

Definition set_clock_reads (n : nat) (s : State) : State :=
  {| clock_reads := n; uuid_draws := uuid_draws s; extractions := extractions s;
     files := files s; dirs := dirs s; disk := disk s; trace := trace s |}.
Definition set_uuid_draws (n : nat) (s : State) : State :=
  {| clock_reads := clock_reads s; uuid_draws := n; extractions := extractions s;
     files := files s; dirs := dirs s; disk := disk s; trace := trace s |}.
Definition set_extractions (n : nat) (s : State) : State :=
  {| clock_reads := clock_reads s; uuid_draws := uuid_draws s; extractions := n;
     files := files s; dirs := dirs s; disk := disk s; trace := trace s |}.
Definition set_files (f : gmap str str) (s : State) : State :=
  {| clock_reads := clock_reads s; uuid_draws := uuid_draws s;
     extractions := extractions s;
     files := f; dirs := dirs s; disk := disk s; trace := trace s |}.
Definition set_dirs (d : gset str) (s : State) : State :=
  {| clock_reads := clock_reads s; uuid_draws := uuid_draws s;
     extractions := extractions s;
     files := files s; dirs := d; disk := disk s; trace := trace s |}.
Definition set_disk (d : gmap str str) (s : State) : State :=
  {| clock_reads := clock_reads s; uuid_draws := uuid_draws s;
     extractions := extractions s;
     files := files s; dirs := dirs s; disk := d; trace := trace s |}.
Definition log (ev : Event) (s : State) : State :=
  {| clock_reads := clock_reads s; uuid_draws := uuid_draws s;
     extractions := extractions s;
     files := files s; dirs := dirs s; disk := disk s;
     trace := trace s ++ [ev] |}.

(** *** The monad of the program: state and exceptions *)

Inductive Result (A : Type) :=
| Ok (a : A)
| Raise (e : Exn).
Arguments Ok {A} a.
Arguments Raise {A} e.

Definition M (A : Type) : Type := State -> Result A * State.

Definition ret {A} (a : A) : M A := fun s => (Ok a, s).
Definition raise {A} (e : Exn) : M A := fun s => (Raise e, s).
Definition bind {A B} (c : M A) (k : A -> M B) : M B :=
  fun s => match c s with
           | (Ok a, s') => k a s'
           | (Raise e, s') => (Raise e, s')
           end.
Definition gets {A} (f : State -> A) : M A := fun s => (Ok (f s), s).
Definition modify (f : State -> State) : M unit := fun s => (Ok tt, f s).

Notation "x <- c ;; k" := (bind c (fun x => k))
  (at level 100, c at next level, right associativity).
Notation "c ;;; k" := (bind c (fun _ => k))
  (at level 100, right associativity).

(** [try: c except Exception as e: h e] *)
Definition try_except {A} (c : M A) (h : Exn -> M A) : M A :=
  fun s => match c s with
           | (Raise e, s') => if is_Exception e then h e s' else (Raise e, s')
           | r => r
           end.

(** [for x in xs: body x] *)
Fixpoint for_each {A} (xs : list A) (body : A -> M unit) : M unit :=
  match xs with
  | [] => ret tt
  | x :: xs' => body x ;;; for_each xs' body
  end.

(** A loop that updates a local variable: [for x in xs: acc = body acc x] *)
Fixpoint for_fold {A B} (xs : list A) (acc : B) (body : B -> A -> M B) : M B :=
  match xs with
  | [] => ret acc
  | x :: xs' => acc' <- body acc x ;; for_fold xs' acc' body
  end.

(** [print] and [cprint] (the colors are left out) *)
Definition print (text : str) : M unit := modify (log (EvPrint text)).

Definition cprint (head rest : str) (quiet : bool) : M unit :=
  if quiet then ret tt else print (head ++ rest).

(** *** [os.path] (POSIX) *)

Definition SEP : N := 47.

Definition all_sep (p : str) : bool := forallb (N.eqb SEP) p.

(** [p[:p.rfind("/") + 1]] *)
Definition upto_last_sep (p : str) : str :=
  rev (lstrip_by (fun c => negb (c =? SEP)) (rev p)).

(** [os.path.dirname] *)
Definition dirname (p : str) : str :=
  let head := upto_last_sep p in
  if all_sep head then head else rstrip_by (N.eqb SEP) head.

Fixpoint take_while (f : N -> bool) (s : str) : str :=
  match s with
  | [] => []
  | c :: t => if f c then c :: take_while f t else []
  end.

(** [os.path.basename] *)
Definition basename (p : str) : str :=
  rev (take_while (fun c => negb (c =? SEP)) (rev p)).

(** [os.path.join(a, b)] *)
Definition join (a b : str) : str :=
  if startswith b [SEP] then b
  else match a with
       | [] => b
       | _ => if endswith a [SEP] then a ++ b else a ++ SEP :: b
       end.

(** [os.path.splitext(p)[0]]: the extension starts at the last dot of the
    last component, unless only dots come before it there. *)
Definition splitext_root (p : str) : str :=
  let name := basename p in
  let ext_rev := take_while (fun c => negb (c =? 46)) (rev name) in
  let stem := firstn (List.length name - S (List.length ext_rev)) name in
  if (List.length ext_rev <? List.length name)%nat
     && negb (forallb (N.eqb 46) stem)
  then firstn (List.length p - S (List.length ext_rev)) p
  else p.

(** [os.path.dirname(path) or "."] *)
Definition parent_dir (path : str) : str :=
  match dirname path with
  | [] => py "."
  | d => d
  end.

(** [p] without its trailing separators. *)
Definition norm_dir (p : str) : str :=
  if all_sep p then p else rstrip_by (N.eqb SEP) p.

(** *** The file system

    A file or a directory is known by its location: the names on the way to
    it, joined by separators, from the root ([/a/b]) or from the working
    directory ([a/b]; the working directory itself is [.], the directories
    above it are [..], [../..] and so on).  [files], [disk] and [dirs] of
    the state are keyed by locations, and [dirs] lists every directory
    there is, apart from the root, the working directory and the
    directories above it, which are always there.  Links, permissions and
    the absolute name of the working directory are not modelled. *)

(** [p.split("/")] *)
Fixpoint components (p : str) : list str :=
  match p with
  | [] => [[]]
  | c :: t =>
    if c =? SEP then [] :: components t
    else match components t with
         | h :: r => (c :: h) :: r
         | [] => [[c]]
         end
  end.

Definition ROOT : str := [SEP].
Definition HERE : str := py ".".
Definition UP : str := py "..".

(** The locations [..], [../..], ... *)
Definition above (loc : str) : bool := forallb (str_eqb UP) (components loc).

(** The entry [name] of the directory at [loc], and the directory that
    holds the directory at [loc]. *)
Definition child (loc name : str) : str :=
  if str_eqb loc HERE then name
  else if str_eqb loc ROOT then SEP :: name
  else loc ++ SEP :: name.

Definition parent (loc : str) : str :=
  if str_eqb loc ROOT then ROOT
  else if str_eqb loc HERE then UP
  else if above loc then loc ++ SEP :: UP
  else parent_dir loc.

(** One component of a path, followed from the directory at [loc]: an empty
    component (of a doubled or trailing separator) and [.] stay there. *)
Definition step (loc c : str) : str :=
  if (match c with [] => true | _ => false end) || str_eqb c HERE then loc
  else if str_eqb c UP then parent loc
  else child loc c.

Definition dir_at (d : gset str) (loc : str) : bool :=
  str_eqb loc HERE || str_eqb loc ROOT || above loc || bool_decide (loc ∈ d).

(** Where a path leads: to a location (at which there may be nothing yet),
    or nowhere, the walk being stuck at a location that is not a directory
    with the components [rest] still to follow. *)
Inductive Resolved :=
| At (loc : str)
| Stuck (loc : str) (rest : list str).

Fixpoint walk (d : gset str) (loc : str) (comps : list str) : Resolved :=
  match comps with
  | [] => At loc
  | c :: rest => if dir_at d loc then walk d (step loc c) rest else Stuck loc comps
  end.

Definition resolve (d : gset str) (p : str) : Resolved :=
  match p with
  | [] => Stuck [] []
  | c :: t =>
    if c =? SEP then walk d ROOT (components t) else walk d HERE (components p)
  end.

Definition file_at (s : State) (loc : str) : bool :=
  match files s !! loc with Some _ => true | None => false end.

(** [os.path.isdir], [os.path.isfile] and [os.path.exists] *)
Definition isdir (s : State) (p : str) : bool :=
  match resolve (dirs s) p with
  | At loc => dir_at (dirs s) loc
  | Stuck _ _ => false
  end.
Definition isfile (s : State) (p : str) : bool :=
  match resolve (dirs s) p with
  | At loc => negb (dir_at (dirs s) loc) && file_at s loc
  | Stuck _ _ => false
  end.
Definition exists_ (s : State) (p : str) : bool :=
  match resolve (dirs s) p with
  | At loc => dir_at (dirs s) loc || file_at s loc
  | Stuck _ _ => false
  end.

(** *** Files *)

(** An open text file: the path it was opened with, the location of the file
    and the text not yet flushed. *)
Record File := { f_path : str; f_loc : str; f_buffer : str }.

(** The text of the file at a location, and the text a reader of [p] finds. *)
Definition text_at (s : State) (loc : str) : str := default [] (files s !! loc).

Definition content (s : State) (p : str) : str :=
  match resolve (dirs s) p with
  | At loc => text_at s loc
  | Stuck _ _ => []
  end.

(** The error of [open] on a path that leads nowhere.  When a file is to be
    made and only the trailing separators of the path are left, the error is
    [IsADirectoryError]; otherwise it tells whether the walk ended at a
    file or at nothing. *)
Definition open_error (s : State) (mode : OpenMode) (path loc : str)
    (rest : list str) : Exn :=
  match path, mode with
  | [], _ => FileNotFoundError path
  | _, ModeR =>
    if file_at s loc then NotADirectoryError path else FileNotFoundError path
  | _, _ =>
    if forallb (fun c => match c with [] => true | _ => false end) rest
    then IsADirectoryError path
    else if file_at s loc then NotADirectoryError path
         else FileNotFoundError path
  end.

(** [open(path, mode, encoding="utf-8")] *)
Definition open_ (path : str) (mode : OpenMode) : M File :=
  fun s =>
    match resolve (dirs s) path with
    | Stuck loc rest => (Raise (open_error s mode path loc rest), s)
    | At loc =>
      if dir_at (dirs s) loc then (Raise (IsADirectoryError path), s)
      else
        match mode with
        | ModeR =>
          if file_at s loc
          then (Ok {| f_path := path; f_loc := loc; f_buffer := [] |},
                log (EvOpen path mode) s)
          else (Raise (FileNotFoundError path), s)
        | _ =>
          let old := match mode with ModeA => text_at s loc | _ => [] end in
          (Ok {| f_path := path; f_loc := loc; f_buffer := [] |},
           log (EvOpen path mode) (set_files (<[loc := old]> (files s)) s))
        end
    end.

(** [f.write(text)] *)
Definition write (f : File) (text : str) : M File :=
  fun s => (Ok {| f_path := f_path f; f_loc := f_loc f;
                  f_buffer := f_buffer f ++ text |},
            log (EvWrite (f_path f) text) s).

Definition flush_buffer (f : File) (s : State) : State :=
  set_files (<[f_loc f := text_at s (f_loc f) ++ f_buffer f]> (files s)) s.

(** [f.flush()] *)
Definition flush (f : File) : M File :=
  fun s => (Ok {| f_path := f_path f; f_loc := f_loc f; f_buffer := [] |},
            log (EvFlush (f_path f)) (flush_buffer f s)).

(** [os.fsync(f.fileno())] *)
Definition fsync (f : File) : M unit :=
  modify (fun s => log (EvFsync (f_path f))
                     (set_disk (<[f_loc f := text_at s (f_loc f)]> (disk s)) s)).

(** [f.close()], also run when a [with] block is left *)
Definition close (f : File) : M unit :=
  modify (fun s => log (EvClose (f_path f)) (flush_buffer f s)).

(** [with open(path, mode, encoding="utf-8") as f: body f].  The body hands
    back the file object it was working on; the file is closed when the
    block is left, also by an exception. *)
Definition with_open (path : str) (mode : OpenMode)
    (body : File -> M File) : M unit :=
  f <- open_ path mode ;;
  fun s => match body f s with
           | (Ok f', s') => close f' s'
           | (Raise e, s') => (Raise e, log (EvClose path) s')
           end.

(** *** Directories *)

(** [os.mkdir(name)]: trailing separators do not count. *)
Definition mkdir (name : str) : M unit :=
  fun s =>
    match resolve (dirs s) (norm_dir name) with
    | At loc =>
      if dir_at (dirs s) loc || file_at s loc
      then (Raise (FileExistsError name), s)
      else (Ok tt, set_dirs ({[ loc ]} ∪ dirs s) s)
    | Stuck loc _ =>
      (Raise (if file_at s loc then NotADirectoryError name
              else FileNotFoundError name), s)
    end.

(** The last step of [os.makedirs]: [mkdir], whose error is let through
    unless the directory is there. *)
Definition mkdir_exist_ok (name : str) : M unit :=
  fun s =>
    match mkdir name s with
    | (Raise e, s') => if isdir s' name then (Ok tt, s') else (Raise e, s')
    | r => r
    end.

(** [os.makedirs(name, exist_ok=True)], as [os.py] has it: the directories
    above are made first, by a call of the function on the head of the
    path.  The path gets shorter from call to call; [fuel] bounds the depth
    of the calls. *)
Fixpoint makedirs_from (fuel : nat) (name : str) : M unit :=
  fun s =>
    let head0 := dirname name in
    let tail0 := basename name in
    let head := match tail0 with [] => dirname head0 | _ => head0 end in
    let tail := match tail0 with [] => basename head0 | _ => tail0 end in
    match head, tail, exists_ s head, fuel with
    | _ :: _, _ :: _, false, S fuel' =>
      match makedirs_from fuel' head s with
      | (Ok _, s') | (Raise (FileExistsError _), s') =>
        if str_eqb tail HERE then (Ok tt, s') else mkdir_exist_ok name s'
      | r => r
      end
    | _, _, _, _ => mkdir_exist_ok name s
    end.

Definition makedirs (path : str) : M unit :=
  makedirs_from (List.length path) path ;;;
  modify (log (EvMakedirs path)).

(** [for raw in f]: the lines of a text file (universal newlines: a line
    ends at LF, CR or CR LF); [cur] is the line read so far, backwards. *)
Fixpoint splitlines (cur : str) (s : str) : list str :=
  match s with
  | [] => match cur with [] => [] | _ => [rev cur] end
  | c :: t =>
    if c =? 13 then
      match t with
      | c2 :: t' => if c2 =? 10 then rev cur :: splitlines [] t'
                    else rev cur :: splitlines [] t
      | [] => [rev cur]
      end
    else if c =? 10 then rev cur :: splitlines [] t
    else splitlines (c :: cur) t
  end.

(** ** JSON documents and [json.dump] *)

#[local] Unset Elimination Schemes.
Inductive JSON :=
| JNull
| JBool (b : bool)
| JInt (z : Z)
| JFloat (repr : str)
| JStr (s : str)
| JList (l : list JSON)
| JDict (kv : list (str * JSON)).
#[local] Set Elimination Schemes.

Definition hex_digit (d : N) : N := if d <? 10 then 48 + d else 87 + d.

(** ['{0:04x}'.format(n)] for [n < 0x10000] *)
Definition hex4 (n : N) : str :=
  [hex_digit (n / 4096 mod 16); hex_digit (n / 256 mod 16);
   hex_digit (n / 16 mod 16); hex_digit (n mod 16)].

Definition u_escape (n : N) : str := 92 :: 117 :: hex4 n.

(** [ESCAPE_DCT] without its [\u00XX] entries: the letter after the
    backslash. *)
Definition short_escape (c : N) : option N :=
  if c =? 92 then Some 92
  else if c =? 34 then Some 34
  else if c =? 8 then Some 98
  else if c =? 12 then Some 102
  else if c =? 10 then Some 110
  else if c =? 13 then Some 114
  else if c =? 9 then Some 116
  else None.

Definition high_surrogate (c : N) : N :=
  N.lor 0xd800 (N.land (N.shiftr (c - 0x10000) 10) 0x3ff).
Definition low_surrogate (c : N) : N :=
  N.lor 0xdc00 (N.land (c - 0x10000) 0x3ff).

(** The replacement of one character by [encode_basestring_ascii]
    ([ensure_ascii] set) or [encode_basestring]. *)
Definition escape_char (ensure_ascii : bool) (c : N) : str :=
  match short_escape c with
  | Some e => [92; e]
  | None =>
    if c <? 0x20 then u_escape c
    else if ensure_ascii && (0x7E <? c) then
      if c <? 0x10000 then u_escape c
      else u_escape (high_surrogate c) ++ u_escape (low_surrogate c)
    else [c]
  end.

Definition encode_basestring (ensure_ascii : bool) (s : str) : str :=
  34 :: flat_map (escape_char ensure_ascii) s ++ [34].

(** The keyword arguments of [json.dump] the program uses. *)
Record Style := {
  ensure_ascii : bool;
  item_separator : str;
  key_separator : str;
  indent : option nat
}.

(** [separators=(",", ":")] with the default [ensure_ascii=True] *)
Definition db_style : Style :=
  {| ensure_ascii := true; item_separator := py ","; key_separator := py ":";
     indent := None |}.
(** [ensure_ascii=False, separators=(",", ":")] *)
Definition compact_style : Style :=
  {| ensure_ascii := false; item_separator := py ","; key_separator := py ":";
     indent := None |}.
(** [ensure_ascii=False, indent=2] *)
Definition pretty_style : Style :=
  {| ensure_ascii := false; item_separator := py ","; key_separator := py ": ";
     indent := Some 2%nat |}.

Definition style_of (pretty : bool) : Style :=
  if pretty then pretty_style else compact_style.

Definition newline_indent (st : Style) (level : nat) : str :=
  match indent st with
  | None => []
  | Some k => 10 :: repeat 32 (k * level)%nat
  end.

Fixpoint join_with (sep : str) (parts : list str) : str :=
  match parts with
  | [] => []
  | [p] => p
  | p :: ps => p ++ sep ++ join_with sep ps
  end.

(** The text [json.dump] writes for a document at nesting depth [level]. *)
Fixpoint encode (st : Style) (level : nat) (v : JSON) : str :=
  match v with
  | JNull => py "null"
  | JBool true => py "true"
  | JBool false => py "false"
  | JInt z => str_of_Z z
  | JFloat r => r
  | JStr s => encode_basestring (ensure_ascii st) s
  | JList [] => py "[]"
  | JList l =>
    91 :: newline_indent st (S level)
    ++ join_with (item_separator st ++ newline_indent st (S level))
         (List.map (encode st (S level)) l)
    ++ newline_indent st level ++ [93]
  | JDict [] => py "{}"
  | JDict kv =>
    123 :: newline_indent st (S level)
    ++ join_with (item_separator st ++ newline_indent st (S level))
         (List.map (fun p => match p with
                             | (k, x) => encode_basestring (ensure_ascii st) k
                                         ++ key_separator st
                                         ++ encode st (S level) x
                             end) kv)
    ++ newline_indent st level ++ [125]
  end.

Definition dumps (st : Style) (v : JSON) : str := encode st 0 v.

(** The pieces in which the encoder hands the text out ([iterencode], as
    [json.encoder] has it).  In a list, the opening bracket (first item) or
    the separator (later items) comes in one piece with the text of an item
    that is no list or dictionary, and as a piece of its own before the
    pieces of one that is.  In a dictionary, the brace, the separators, the
    keys and the key separators are pieces of their own.  A container that
    is indented closes with a piece for the line break. *)
Section Pieces.

Variable sep : str.
Variable text : JSON -> str.
Variable pieces : JSON -> list str.

Fixpoint list_pieces (buf : str) (l : list JSON) : list str :=
  match l with
  | [] => []
  | x :: l' =>
    match x with
    | JList _ | JDict _ => buf :: pieces x
    | _ => [buf ++ text x]
    end
    ++ list_pieces sep l'
  end.

Variable key_text : str -> str.
Variable key_sep : str.

Fixpoint dict_pieces (first : bool) (kv : list (str * JSON)) : list str :=
  match kv with
  | [] => []
  | (k, x) :: kv' =>
    (if first then [] else [sep])
    ++ key_text k :: key_sep :: pieces x ++ dict_pieces false kv'
  end.

End Pieces.

Definition indent_piece (st : Style) (level : nat) : list str :=
  match indent st with
  | None => []
  | Some _ => [newline_indent st level]
  end.

Fixpoint iterencode (st : Style) (level : nat) (v : JSON) : list str :=
  match v with
  | JList [] => [py "[]"]
  | JList l =>
    list_pieces (item_separator st ++ newline_indent st (S level))
                (encode st (S level)) (iterencode st (S level))
                (91 :: newline_indent st (S level)) l
    ++ indent_piece st level ++ [[93]]
  | JDict [] => [py "{}"]
  | JDict kv =>
    [123] :: indent_piece st (S level)
    ++ dict_pieces (item_separator st ++ newline_indent st (S level))
                   (iterencode st (S level))
                   (encode_basestring (ensure_ascii st)) (key_separator st) true kv
    ++ indent_piece st level ++ [[125]]
  | _ => [encode st level v]
  end.

(** [json.dump(obj, f, ...)]: [for chunk in iterable: fp.write(chunk)] *)
Definition json_dump (st : Style) (obj : JSON) (f : File) : M File :=
  for_fold (iterencode st 0 obj) f write.

(** ** Data models (FreeTube) *)

Record FreeTubeVideo := {
  videoId : str;
  title : str;
  author : str;
  authorId : str;
  lengthSeconds : Z;
  published : Z;
  timeAdded : Z;
  playlistItemId : str;
  type_ : str
}.

Record FreeTubePlaylist := {
  playlistName : str;
  protected : bool;
  description : str;
  videos : list FreeTubeVideo;
  _id : str;
  createdAt : Z;
  lastUpdatedAt : Z
}.

(** [asdict(v)] *)
Definition video_to_json (v : FreeTubeVideo) : JSON :=
  JDict [(py "videoId", JStr (videoId v)); (py "title", JStr (title v));
         (py "author", JStr (author v)); (py "authorId", JStr (authorId v));
         (py "lengthSeconds", JInt (lengthSeconds v));
         (py "published", JInt (published v));
         (py "timeAdded", JInt (timeAdded v));
         (py "playlistItemId", JStr (playlistItemId v));
         (py "type", JStr (type_ v))].

(** [FreeTubePlaylist.to_json_obj] *)
Definition to_json_obj (pl : FreeTubePlaylist) : JSON :=
  JDict [(py "playlistName", JStr (playlistName pl));
         (py "protected", JBool (protected pl));
         (py "description", JStr (description pl));
         (py "videos", JList (List.map video_to_json (videos pl)));
         (py "_id", JStr (_id pl));
         (py "createdAt", JInt (createdAt pl));
         (py "lastUpdatedAt", JInt (lastUpdatedAt pl))].

(** The fields of a video that do not depend on the clock or on [uuid4]. *)
Definition video_of_entry (e : Entry) (t : Z) (u : str) : FreeTubeVideo :=
  {| videoId := clean_text (py_or (get e "id") (VStr (py "N/A")));
     title := clean_text (py_or (get e "title") (VStr (py "N/A")));
     author := clean_text (py_or (py_or (get e "channel") (get e "uploader"))
                             (VStr (py "N/A")));
     authorId := clean_text (py_or (py_or (get e "channel_id") (get e "uploader_id"))
                               (VStr (py "N/A")));
     lengthSeconds := coerce_int (get e "duration");
     published := coerce_int (get e "timestamp");
     timeAdded := t;
     playlistItemId := u;
     type_ := py "video" |}.

Definition video_placeholder (video_id : str) (t : Z) (u : str) : FreeTubeVideo :=
  {| videoId := video_id; title := py "N/A"; author := py "N/A";
     authorId := py "N/A"; lengthSeconds := 0; published := 0;
     timeAdded := t; playlistItemId := u; type_ := py "video" |}.

Definition option_or (o : option str) (d : str) : str :=
  match o with
  | Some (c :: t) => c :: t
  | _ => d
  end.

Definition str_or (a d : str) : str :=
  match a with [] => d | _ => a end.

Definition option_truthy (o : option str) : bool :=
  match o with Some (_ :: _) => true | _ => false end.

Section Program.

Variable env : Env.

Definition now_ms : M Z :=
  fun s => (Ok (time_ms env (clock_reads s)),
            set_clock_reads (S (clock_reads s)) s).

(** [str(uuid4())] *)
Definition str_uuid4 : M str :=
  fun s => (Ok (uuid4 env (uuid_draws s)),
            set_uuid_draws (S (uuid_draws s)) s).

(** [FreeTubeVideo.from_ytdlp_entry] *)
Definition from_ytdlp_entry (e : Entry) : M FreeTubeVideo :=
  t <- now_ms ;;
  u <- str_uuid4 ;;
  ret (video_of_entry e t u).

(** [FreeTubeVideo.placeholder] *)
Definition placeholder (video_id : str) : M FreeTubeVideo :=
  t <- now_ms ;;
  u <- str_uuid4 ;;
  ret (video_placeholder video_id t u).

(** [FreeTubePlaylist.new] *)
Definition new (name description : str) : M FreeTubePlaylist :=
  ts <- now_ms ;;
  u <- str_uuid4 ;;
  ret {| playlistName := str_or name (py "Imported Playlist");
         protected := false;
         description := description;
         videos := [];
         _id := py "ft-playlist--" ++ u;
         createdAt := ts;
         lastUpdatedAt := ts |}.

(** [FreeTubePlaylist.add_video]: the playlist object is updated in place,
    here the updated playlist is handed back. *)
Definition add_video (self : FreeTubePlaylist) (v : FreeTubeVideo)
  : M FreeTubePlaylist :=
  let appended := videos self ++ [v] in
  t <- now_ms ;;
  ret {| playlistName := playlistName self; protected := protected self;
         description := description self; videos := appended;
         _id := _id self; createdAt := createdAt self;
         lastUpdatedAt := t |}.

(** ** yt-dlp client *)

(** [YTDLPClient.__init__]: the options are only read by yt-dlp; building
    them fails when the browser-cookie specification is rejected. *)
Definition YTDLPClient (cookies_file browser_cookies : option str) : M unit :=
  if option_truthy cookies_file then ret tt
  else match cookie_spec_error env (option_or browser_cookies (py "firefox")) with
       | Some msg => raise (ValueError msg)
       | None => ret tt
       end.

(** [ydl.extract_info(url, download=False)]: [None] for no data. *)
Definition ydl_extract_info (url : str) : M (option Info) :=
  fun s =>
    let s' := set_extractions (S (extractions s)) s in
    match extract_info env (extractions s) url with
    | ExtractRaises msg => (Raise (ExtractorError msg), s')
    | ExtractNothing => (Ok None, s')
    | ExtractInfo i => (Ok (Some i), s')
    end.

(** [bool(info)] for a dictionary *)
Definition info_truthy (i : Info) : bool :=
  match info_entries i with
  | EntriesMissing => negb (bool_decide (info_fields i = ∅))
  | _ => true
  end.

Definition extract_playlist (url : str) : M Info :=
  info <- ydl_extract_info url ;;
  match info with
  | Some i => if info_truthy i then ret i
              else raise (RuntimeError (py "yt-dlp returned no data for " ++ url))
  | None => raise (RuntimeError (py "yt-dlp returned no data for " ++ url))
  end.

Definition extract_video_min (video_id : str) : M Entry :=
  let url := py "https://www.youtube.com/watch?v=" ++ video_id in
  try_except
    (info <- ydl_extract_info url ;;
     match info with
     | Some i => if info_truthy i then ret (info_fields i)
                 else ret {[ py "id" := VStr video_id ]}
     | None => ret {[ py "id" := VStr video_id ]}
     end)
    (fun _ => ret {[ py "id" := VStr video_id ]}).

(** ** Inputs *)

Definition id_char (c : N) : bool :=
  in_range 65 90 c || in_range 97 122 c || in_range 48 57 c
  || (c =? 95) || (c =? 45).

Definition id_last_char (c : N) : bool :=
  existsb (N.eqb c) (py "AEIMQUYcgkosw048").

(** [YT_ID_RE] matched at the start of [s] *)
Definition match_id (s : str) : option str :=
  let m := firstn 11 s in
  if (List.length m =? 11)%nat && forallb id_char (firstn 10 m)
     && id_last_char (nth 10 m 0)
  then Some m else None.

(** [YT_ID_RE.search(line)]: the leftmost match *)
Fixpoint search_id (line : str) : option str :=
  match match_id line with
  | Some m => Some m
  | None => match line with
            | [] => None
            | _ :: t => search_id t
            end
  end.

Definition read_ids_file (path : str) : M (list str) :=
  f <- open_ path ModeR ;;
  text <- gets (fun s => text_at s (f_loc f)) ;;
  let ids :=
    flat_map (fun raw =>
                let line := strip raw in
                if (match line with [] => true | _ => false end)
                   || startswith line (py "#")
                then []
                else match search_id line with
                     | Some m => [m]
                     | None => []
                     end)
             (splitlines [] text) in
  close f ;;;
  ret ids.

(** ** Exporters *)

Definition freetube_db_path (s : State) (user_path : option str) : str :=
  let database_name := py "playlists.db" in
  match user_path with
  | Some ((_ :: _) as p) =>
    if isfile s p || endswith (lower p) (py ".db") || endswith (lower p) (py ".json")
    then p
    else join p database_name
  | _ =>
    let home := home_dir env in
    let base :=
      if startswith (sys_platform env) (py "win") then
        join (option_or (env_APPDATA env) []) (py "FreeTube")
      else if startswith (sys_platform env) (py "linux") then
        let flatpak := join home (py ".var/app/io.freetubeapp.FreeTube/config/FreeTube") in
        if exists_ s flatpak then flatpak else join home (py ".config/FreeTube")
      else if str_eqb (sys_platform env) (py "darwin") then
        join home (py "Library/Application Support/FreeTube")
      else join home (py ".config/FreeTube") in
    join base database_name
  end.

Definition ensure_file_exists (path : str) : M unit :=
  let parent := parent_dir path in
  parent_ok <- gets (fun s => isdir s parent) ;;
  if negb parent_ok then
    raise (FileNotFoundError (py "Parent directory does not exist: " ++ parent))
  else
    present <- gets (fun s => exists_ s path) ;;
    if negb present then
      f <- open_ path ModeA ;; close f
    else ret tt.

Definition CHECK : str := [0x2713; 32].

Definition export_freetube_db (pl : FreeTubePlaylist) (user_path : option str)
    (quiet : bool) : M str :=
  db_path <- gets (fun s => freetube_db_path s user_path) ;;
  ensure_file_exists db_path ;;;
  with_open db_path ModeA (fun f =>
    f <- json_dump db_style (to_json_obj pl) f ;;
    f <- write f [10] ;;
    f <- flush f ;;
    fsync f ;;;
    ret f) ;;;
  cprint CHECK (py "Playlist '" ++ playlistName pl ++ py "' appended to " ++ db_path)
         quiet ;;;
  ret db_path.

Definition export_freetube_json (pl : FreeTubePlaylist) (out_path : str)
    (pretty quiet : bool) : M str :=
  let path := str_or out_path (sanitize_name (playlistName pl) ++ py ".freetube.json") in
  with_open path ModeW (fun f =>
    json_dump (style_of pretty) (to_json_obj pl) f) ;;;
  cprint CHECK (py "Wrote FreeTube JSON: " ++ path) quiet ;;;
  ret path.

(** One playlist object of a Piped document *)
Definition piped_playlist (name : str) (vids : list str) : JSON :=
  JDict [(py "name", JStr name); (py "type", JStr (py "playlist"));
         (py "visibility", JStr (py "private"));
         (py "videos",
          JList (List.map (fun v => JStr (py "https://youtube.com/watch?v=" ++ v)) vids))].

Definition piped_payload (playlists : list JSON) : JSON :=
  JDict [(py "format", JStr (py "Piped")); (py "version", JInt 1);
         (py "playlists", JList playlists)].

Definition export_piped_json (playlists : list (str * list str))
    (out_path : option str) (pretty quiet : bool) : M str :=
  let payload :=
    piped_payload (List.map (fun p => piped_playlist (fst p) (snd p)) playlists) in
  let path := option_or out_path (py "piped.json") in
  with_open path ModeW (fun f => json_dump (style_of pretty) payload f) ;;;
  cprint CHECK (py "Wrote Piped JSON: " ++ path) quiet ;;;
  ret path.

(** [range(0, stop, step)] for [stop >= 0] *)
Definition range0 (stop step : Z) : M (list Z) :=
  if (step =? 0)%Z then raise (ValueError (py "range() arg 3 must not be zero"))
  else if (step <? 0)%Z then ret []
  else ret (List.map (fun k => (Z.of_nat k * step)%Z)
                     (seq 0 (Z.to_nat ((stop + step - 1) / step)))).

(** [l[i:j]] for [0 <= i <= j] *)
Definition slice {A} (l : list A) (i j : Z) : list A :=
  firstn (Z.to_nat (j - i)) (skipn (Z.to_nat i) l).

Definition split_base (base_out : option str) : str :=
  splitext_root (basename (option_or base_out (py "piped.json"))).

Definition split_outdir (base_out split_dir : option str) : str :=
  option_or split_dir (join (py "chunks") (split_base base_out)).

Definition split_out_name (base name : str) (i split : Z) : str :=
  base ++ py "_" ++ sanitize_name name ++ py "_"
  ++ fmt03 (Z.to_N (i / split + 1)) ++ py ".json".

Definition export_piped_json_split (playlists : list (str * list str))
    (base_out : option str) (split : Z) (split_dir : option str)
    (pretty quiet : bool) : M str :=
  let base := split_base base_out in
  let outdir := split_outdir base_out split_dir in
  makedirs outdir ;;;
  total <- for_fold playlists 0%Z (fun total p =>
    let name := fst p in
    let vids := snd p in
    starts <- range0 (Z.of_nat (List.length vids)) split ;;
    for_fold starts total (fun total i =>
      let chunk := slice vids i (i + split) in
      let payload := piped_payload [piped_playlist name chunk] in
      let out_name := split_out_name base name i split in
      let path := join outdir out_name in
      with_open path ModeW (fun f => json_dump (style_of pretty) payload f) ;;;
      (if quiet then ret tt
       else print (py "  " ++ [0x2192] ++ py " " ++ path ++ py " ("
                   ++ str_of_Z (Z.of_nat (List.length chunk)) ++ py " videos)")) ;;;
      ret (total + 1)%Z)) ;;
  cprint CHECK (py "Split Piped JSON finished: " ++ str_of_Z total
                ++ py " files in " ++ outdir) quiet ;;;
  ret outdir.

(** *** [csv.writer]: comma delimiter, double-quote quotechar, CR-LF lines

    The quoting mode is left at its default, [QUOTE_MINIMAL]: a field is
    quoted when it holds the delimiter, the quote character or a character
    of the line terminator; quote characters inside are doubled. *)

Definition QUOTE : N := 34.
Definition CRLF : str := [13; 10].

Definition csv_special (c : N) : bool :=
  (c =? 44) || (c =? QUOTE) || (c =? 13) || (c =? 10).

Definition csv_field (field : str) : str :=
  let body := flat_map (fun c => if c =? QUOTE then [QUOTE; QUOTE] else [c]) field in
  if existsb csv_special field then QUOTE :: body ++ [QUOTE] else body.

(** The text of [w.writerow(fields)]; a row of one empty field is written
    as a pair of quotes. *)
Definition csv_row (fields : list str) : str :=
  match fields with
  | [[]] => [QUOTE; QUOTE] ++ CRLF
  | _ => join_with [44] (List.map csv_field fields) ++ CRLF
  end.

Definition writerow (f : File) (fields : list str) : M File :=
  write f (csv_row fields).

Definition export_piped_csv (video_ids : list str) (out_path : option str)
    (quiet : bool) : M str :=
  let path := option_or out_path (py "piped.csv") in
  with_open path ModeW (fun f =>
    f <- writerow f [py "videoId"; py "addedAt"] ;;
    for_fold video_ids f (fun f vid => writerow f [vid; []])) ;;;
  cprint CHECK (py "Wrote Piped CSV: " ++ path) quiet ;;;
  ret path.

Definition LF : str := [10].

Definition export_urls (video_ids : list str) (out_path : option str)
    (quiet : bool) : M str :=
  let path := option_or out_path (py "urls.txt") in
  with_open path ModeW (fun f =>
    for_fold video_ids f (fun f vid =>
      write f (py "https://www.youtube.com/watch?v=" ++ vid ++ LF))) ;;;
  cprint CHECK (py "Wrote URL list: " ++ path) quiet ;;;
  ret path.

Definition export_ids (video_ids : list str) (out_path : option str)
    (quiet : bool) : M str :=
  let path := option_or out_path (py "ids.txt") in
  with_open path ModeW (fun f =>
    for_fold video_ids f (fun f vid => write f (vid ++ LF))) ;;;
  cprint CHECK (py "Wrote ID list: " ++ path) quiet ;;;
  ret path.

(** ** NewPipe subscriptions *)

(** One turn of the loop over the feed: what, if anything, is appended to
    [results] for the entry [e]. *)
Definition subscription_of (e : option Entry) : option (str * PyVal) :=
  match e with
  | None => None
  | Some e =>
    if bool_decide (e = ∅) then None
    else
      let ch_id := py_or (get e "channel_id") (get e "id") in
      let name := py_or (py_or (get e "title") (get e "channel"))
                        (VStr (py "Unknown")) in
      if negb (truthy ch_id) then None
      else
        let ch_url := py "https://www.youtube.com/channel/" ++ py_str ch_id in
        Some (ch_url, name)
  end.

Definition fetch_subscriptions_via_ytdlp (browser_cookies cookies_file : option str)
    (verbose : bool) : M (list (str * PyVal)) :=
  let url := py "https://www.youtube.com/feed/channels" in
  let no_list := RuntimeError
    (py "Could not extract subscriptions list (login cookies may be invalid).") in
  (if option_truthy cookies_file then ret tt
   else if option_truthy browser_cookies then
     match cookie_spec_error env (option_or browser_cookies []) with
     | Some msg => raise (ValueError msg)
     | None => ret tt
     end
   else ret tt) ;;;
  info <- ydl_extract_info url ;;
  match info with
  | None => raise no_list
  | Some i =>
    if negb (info_truthy i) then raise no_list
    else match info_entries i with
         | EntriesMissing => raise no_list
         | EntriesNone => raise (TypeError (py "'NoneType' object is not iterable"))
         | EntriesList es =>
           for_fold es [] (fun results e =>
             match subscription_of e with
             | None => ret results
             | Some sub => ret (results ++ [sub])
             end)
         end
  end.

Definition json_of_pyval (v : PyVal) : JSON :=
  match v with
  | VNone => JNull
  | VBool b => JBool b
  | VInt z => JInt z
  | VFloat r _ => JFloat r
  | VStr s => JStr s
  end.

Definition export_newpipe_subscriptions (subs : list (str * PyVal)) (out_path : str)
    (app_ver : str) (app_ver_int : Z) (pretty quiet : bool) : M unit :=
  let payload :=
    JDict [(py "app_version", JStr app_ver); (py "app_version_int", JInt app_ver_int);
           (py "subscriptions",
            JList (List.map (fun p => JDict [(py "service_id", JInt 0);
                                             (py "url", JStr (fst p));
                                             (py "name", json_of_pyval (snd p))])
                            subs))] in
  with_open out_path ModeW (fun f => json_dump (style_of pretty) payload f) ;;;
  cprint CHECK (py "Wrote NewPipe subscriptions: " ++ out_path ++ py " ("
                ++ str_of_Z (Z.of_nat (List.length subs)) ++ py " channels)") quiet.

(** ** Builders *)

Definition build_freetube_from_entries (info : Info) (name : option str)
    (description : str) : M FreeTubePlaylist :=
  let entries := match info_entries info with
                 | EntriesList l => l
                 | _ => []
                 end in
  let pl_name :=
    option_or name
      (str_or (clean_text (py_or (get (info_fields info) "title") (VStr [])))
              (py "Imported Playlist")) in
  ft <- new pl_name description ;;
  for_fold entries ft (fun ft e =>
    match e with
    | None => raise (AttributeError (py "'NoneType' object has no attribute 'get'"))
    | Some e =>
      let vid := clean_text (py_or (get e "id") (VStr [])) in
      match vid with
      | [] => ret ft
      | _ => v <- from_ytdlp_entry e ;; add_video ft v
      end
    end).

Definition build_freetube_from_ids (ids : list str) (name description : str)
    (quiet : bool) : M FreeTubePlaylist :=
  ft <- new (str_or name (py "Imported IDs (" ++ str_of_Z (Z.of_nat (List.length ids))
                          ++ py " videos)")) description ;;
  for_fold ids ft (fun ft vid =>
    meta <- extract_video_min vid ;;
    v <- (if has_key meta "id" && negb (is_None (get meta "title"))
          then from_ytdlp_entry meta
          else placeholder vid) ;;
    ft <- add_video ft v ;;
    (if quiet then ret tt
     else print (vid ++ py "  |  " ++ title v ++ py "  |  " ++ author v)) ;;;
    ret ft).

(** ** CLI *)

Inductive ExportKind :=
| FreetubeDb | FreetubeJson | PipedJson | PipedCsv | Urls | Ids | NewpipeSubs.

(** The spelling of the choices of [--export] *)
Definition export_name (k : ExportKind) : str :=
  match k with
  | FreetubeDb => py "freetube-db"
  | FreetubeJson => py "freetube-json"
  | PipedJson => py "piped-json"
  | PipedCsv => py "piped-csv"
  | Urls => py "urls"
  | Ids => py "ids"
  | NewpipeSubs => py "newpipe-subs"
  end.

Definition export_eqb (a b : ExportKind) : bool :=
  match a, b with
  | FreetubeDb, FreetubeDb | FreetubeJson, FreetubeJson | PipedJson, PipedJson
  | PipedCsv, PipedCsv | Urls, Urls | Ids, Ids | NewpipeSubs, NewpipeSubs => true
  | _, _ => false
  end.

(** The namespace [build_parser().parse_args()] returns ([--sleep] is kept
    as typed: it only reaches yt-dlp). *)
Record Args := {
  a_playlist_url : list str;
  a_ids_file : option str;
  a_name : option str;
  a_description : str;
  a_browser_cookies : option str;
  a_cookies : option str;
  a_skip_authcheck : bool;
  a_sleep : option str;
  a_export : ExportKind;
  a_output : option str;
  a_path : option str;
  a_split : option Z;
  a_split_dir : option str;
  a_pretty : bool;
  a_newpipe_version : str;
  a_newpipe_version_int : Z;
  a_quiet : bool;
  a_verbose : bool
}.

(** ** Main *)

Definition sys_exit {A} (code : Z) : M A := raise (SystemExit code).

Definition print_help : M unit := modify (log EvPrintHelp).

Definition ERR : str := py "ERR: ".

(** [[v.videoId for v in ft.videos]] paired with the playlist name *)
Definition piped_set (ft : FreeTubePlaylist) : str * list str :=
  (playlistName ft, List.map videoId (videos ft)).

(** [for _, v in piped_sets: vids.extend(v)] *)
Definition all_vids (piped_sets : list (str * list str)) : list str :=
  flat_map snd piped_sets.

Definition main (args : Args) : M unit :=
  let quiet := a_quiet args in
  if export_eqb (a_export args) NewpipeSubs then
    cprint [0x22EF; 32] (py "Fetching subscriptions via yt-dlp /feed/channels" ++ [0x2026])
           quiet ;;;
    subs <- try_except
              (fetch_subscriptions_via_ytdlp (a_browser_cookies args) (a_cookies args)
                                             (a_verbose args))
              (fun e =>
                 cprint ERR (py "Failed to fetch subscriptions: " ++ exn_message e) false ;;;
                 sys_exit 1) ;;
    match subs with
    | [] =>
      cprint (py "WARN: ") (py "No subscriptions found " ++ [0x2014]
                            ++ py " ensure cookies are logged in.") quiet ;;;
      sys_exit 2
    | _ =>
      export_newpipe_subscriptions subs
        (option_or (a_output args) (py "newpipe-subscriptions.json"))
        (a_newpipe_version args) (a_newpipe_version_int args) (a_pretty args) quiet
    end
  else
  let have_urls := (0 <? List.length (a_playlist_url args))%nat in
  let have_ids := option_truthy (a_ids_file args) in
  if negb have_urls && negb have_ids && negb (export_eqb (a_export args) NewpipeSubs) then
    print_help ;;; sys_exit 0
  else
  if negb have_urls && negb have_ids then
    cprint ERR (py "Provide playlist URL(s) or --ids-file, or use -e newpipe-subs") false ;;;
    sys_exit 2
  else
  YTDLPClient (a_cookies args) (a_browser_cookies args) ;;;
  built <-
    (if have_ids then
       let ids_file := option_or (a_ids_file args) [] in
       ids <- read_ids_file ids_file ;;
       match ids with
       | [] => cprint ERR (py "No valid YouTube IDs found.") false ;;; sys_exit 1
       | _ =>
         let default_name :=
           option_or (a_name args)
             (str_or (splitext_root (basename ids_file))
                     (py "Imported IDs (" ++ str_of_Z (Z.of_nat (List.length ids))
                      ++ py ")")) in
         ft <- build_freetube_from_ids ids default_name (a_description args) quiet ;;
         ret ([ft], [piped_set ft])
       end
     else ret ([], [])) ;;
  built <- for_fold (a_playlist_url args) built (fun built url =>
    info <- extract_playlist url ;;
    let name := if (List.length (a_playlist_url args) =? 1)%nat
                   && option_truthy (a_name args)
                then a_name args else None in
    ft <- build_freetube_from_entries info name (a_description args) ;;
    ret (fst built ++ [ft], snd built ++ [piped_set ft])) ;;
  let freetube_playlists := fst built in
  let piped_sets := snd built in
  if export_eqb (a_export args) FreetubeDb then
    for_each freetube_playlists (fun pl =>
      export_freetube_db pl (a_path args) quiet ;;; ret tt)
  else if export_eqb (a_export args) FreetubeJson then
    match freetube_playlists with
    | [pl] => export_freetube_json pl (option_or (a_output args) [])
                                   (a_pretty args) quiet ;;; ret tt
    | _ =>
      let outdir := option_or (a_output args) (py "freetube_json_playlists") in
      makedirs outdir ;;;
      for_each freetube_playlists (fun pl =>
        let path := join outdir (sanitize_name (playlistName pl) ++ py ".json") in
        export_freetube_json pl path (a_pretty args) quiet ;;; ret tt)
    end
  else if export_eqb (a_export args) PipedJson then
    match a_split args with
    | Some split =>
      if (split =? 0)%Z then
        export_piped_json piped_sets (Some (option_or (a_output args) (py "piped.json")))
                          (a_pretty args) quiet ;;; ret tt
      else
        export_piped_json_split piped_sets
          (Some (option_or (a_output args) (py "piped.json")))
          split (a_split_dir args) (a_pretty args) quiet ;;; ret tt
    | None =>
      export_piped_json piped_sets (Some (option_or (a_output args) (py "piped.json")))
                        (a_pretty args) quiet ;;; ret tt
    end
  else if export_eqb (a_export args) PipedCsv then
    export_piped_csv (all_vids piped_sets)
                     (Some (option_or (a_output args) (py "piped.csv"))) quiet ;;; ret tt
  else if export_eqb (a_export args) Urls then
    export_urls (all_vids piped_sets)
                (Some (option_or (a_output args) (py "urls.txt"))) quiet ;;; ret tt
  else if export_eqb (a_export args) Ids then
    export_ids (all_vids piped_sets)
               (Some (option_or (a_output args) (py "ids.txt"))) quiet ;;; ret tt
  else
    cprint ERR (py "Unknown export type: " ++ export_name (a_export args)) false ;;;
    sys_exit 2.

End Program.

(** The exit status of the process for an outcome of [main]: an uncaught
    exception ends the interpreter with status 1. *)
Definition exit_status (r : Result unit) : Z :=
  match r with
  | Ok _ => 0
  | Raise (SystemExit code) => code
  | Raise _ => 1
  end.

(** ** Reading JSON back

    A reader for the JSON grammar without fractions and exponents, as
    [json.loads] reads it: white space between tokens, the two-character
    escapes, [\uXXXX] escapes with surrogate pairs joined, no control
    character inside a string, no leading zero in a number. *)

Definition is_ws (c : N) : bool := (c =? 32) || (c =? 9) || (c =? 10) || (c =? 13).

Definition skip_ws (s : str) : str := lstrip_by is_ws s.



(** The character a two-character escape stands for. *)
Definition unescape (e : N) : option N :=
  if e =? 34 then Some 34
  else if e =? 92 then Some 92
  else if e =? 47 then Some 47
  else if e =? 98 then Some 8
  else if e =? 102 then Some 12
  else if e =? 110 then Some 10
  else if e =? 114 then Some 13
  else if e =? 116 then Some 9
  else None.

Definition is_high (u : N) : bool := in_range 0xD800 0xDBFF u.
Definition is_low (u : N) : bool := in_range 0xDC00 0xDFFF u.




Definition digit_cons (c : N) (u : Decimal.uint) : Decimal.uint :=
  if c =? 48 then Decimal.D0 u
  else if c =? 49 then Decimal.D1 u
  else if c =? 50 then Decimal.D2 u
  else if c =? 51 then Decimal.D3 u
  else if c =? 52 then Decimal.D4 u
  else if c =? 53 then Decimal.D5 u
  else if c =? 54 then Decimal.D6 u
  else if c =? 55 then Decimal.D7 u
  else if c =? 56 then Decimal.D8 u
  else Decimal.D9 u.

Definition ascii_digit (c : N) : bool := in_range 48 57 c.

Fixpoint read_digits (s : str) : Decimal.uint * str :=
  match s with
  | [] => (Decimal.Nil, [])
  | c :: r =>
    if ascii_digit c
    then let (u, r') := read_digits r in (digit_cons c u, r')
    else (Decimal.Nil, s)
  end.

(** A non-negative integer: a lone zero, or digits that start with a digit
    other than zero; a fraction or an exponent after it is not read. *)
Definition read_nat (s : str) : option (N * str) :=
  match s with
  | [] => None
  | c :: r =>
    let after (x : N * str) :=
      match snd x with
      | d :: _ => if (d =? 46) || (d =? 101) || (d =? 69) then None else Some x
      | [] => Some x
      end in
    if c =? 48 then after (0, r)
    else if ascii_digit c
         then let (u, r') := read_digits s in after (N.of_uint u, r')
         else None
  end.







(** A document without floats (their text is not modelled). *)
Fixpoint float_free (v : JSON) : bool :=
  match v with
  | JFloat _ => false
  | JList l => forallb float_free l
  | JDict kv => forallb (fun p => match p with (_, x) => float_free x end) kv
  | _ => true
  end.


(** ** The life of a playlist object

    A playlist comes into being by [FreeTubePlaylist.new] and is then only
    changed by [add_video]; in between, the program does other work, which
    can read the clock any number of times.  [Lifetime env created pl s]:
    [pl] was created at time [created] and has reached state [s]. *)

Inductive Lifetime (env : Env) (created : Z) : FreeTubePlaylist -> State -> Prop :=
| life_new name descr s pl s' :
    new env name descr s = (Ok pl, s') ->
    created = createdAt pl ->
    Lifetime env created pl s'
| life_add_video pl s v pl' s' :
    Lifetime env created pl s ->
    add_video env pl v s = (Ok pl', s') ->
    Lifetime env created pl' s'
| life_other_work pl s s' :
    Lifetime env created pl s ->
    (clock_reads s <= clock_reads s')%nat ->
    Lifetime env created pl s'.

(** A clock that never runs backwards. *)
Definition non_decreasing (clock : nat -> Z) : Prop :=
  forall i j, (i <= j)%nat -> (clock i <= clock j)%Z.

(** ** Sample surroundings for the concrete checks *)

Definition sample_env : Env :=
  {| time_ms := fun k => (1700000000000 + Z.of_nat k)%Z;
     uuid4 := fun k => py "uuid-" ++ str_of_N (N.of_nat k);
     extract_info := fun _ _ => ExtractRaises (py "network unreachable");
     cookie_spec_error := fun _ => None;
     sys_platform := py "linux";
     home_dir := py "/home/user";
     env_APPDATA := None |}.

Definition empty_state : State :=
  {| clock_reads := 0; uuid_draws := 0; extractions := 0;
     files := ∅; dirs := ∅; disk := ∅; trace := [] |}.

Definition sample_args (kind : ExportKind) : Args :=
  {| a_playlist_url := []; a_ids_file := None; a_name := None;
     a_description := []; a_browser_cookies := None; a_cookies := None;
     a_skip_authcheck := false; a_sleep := None; a_export := kind;
     a_output := None; a_path := None; a_split := None; a_split_dir := None;
     a_pretty := false; a_newpipe_version := py "0.19.8";
     a_newpipe_version_int := 953; a_quiet := false; a_verbose := false |}.


Definition feed_env (feed : list (option Entry)) : Env :=
  {| time_ms := time_ms sample_env;
     uuid4 := uuid4 sample_env;
     extract_info := fun _ _ =>
       ExtractInfo {| info_fields := ∅; info_entries := EntriesList feed |};
     cookie_spec_error := fun _ => None;
     sys_platform := py "linux";
     home_dir := py "/home/user";
     env_APPDATA := None |}.

(** The playlist [new] makes at the first reading of the sample clock. *)
Definition sample_playlist : FreeTubePlaylist :=
  {| playlistName := py "mix"; protected := false; description := [];
     videos := []; _id := py "ft-playlist--uuid-0";
     createdAt := 1700000000000; lastUpdatedAt := 1700000000000 |}.

(** ** Vocabulary of the statements *)

(** A string is trimmed when neither end can be stripped any further. *)
Definition trimmed (p : N -> bool) (s : str) : Prop :=
  lstrip_by p s = s /\ lstrip_by p (rev s) = rev s.

(** Text on which the two replacements and the removal of zero-width
    characters do nothing. *)
Definition plain_char (c : N) : bool :=
  negb (ZERO_WIDTH c) && negb (c =? 0xA0) && negb (c =? 0x2024).

(** The state after the file at the location [loc] has been given the text
    [text], the calls [evs] having been made on the way. *)
Definition put_file (loc text : str) (evs : list Event) (s : State) : State :=
  {| clock_reads := clock_reads s; uuid_draws := uuid_draws s;
     extractions := extractions s;
     files := <[loc := text]> (files s); dirs := dirs s; disk := disk s;
     trace := trace s ++ evs |}.

Definition log_all (evs : list Event) (s : State) : State :=
  fold_left (fun s ev => log ev s) evs s.

(** The calls of one [with open(path, "w")] block that writes [chunks]. *)
Definition write_events (path : str) (chunks : list str) : list Event :=
  [EvOpen path ModeW] ++ List.map (EvWrite path) chunks ++ [EvClose path].

(** A destination that [open(path, "w")] and [open(path, "a")] accept: the
    path leads to a location in a directory, at which there is no
    directory.  The result is that location. *)
Definition writable (s : State) (path : str) : option str :=
  match resolve (dirs s) path with
  | At loc => if dir_at (dirs s) loc then None else Some loc
  | Stuck _ _ => None
  end.

(** A path that names a directory, with the location of the directory. *)
Definition dir_loc (s : State) (path : str) : option str :=
  match resolve (dirs s) path with
  | At loc => if dir_at (dirs s) loc then Some loc else None
  | Stuck _ _ => None
  end.


(** The watch URL with the [www] host. *)
Definition www_watch_url (v : str) : str := py "https://www.youtube.com/watch?v=" ++ v.


(** A body that only writes: the chunks it hands to [f.write], in order. *)
Definition writes_chunks (body : File -> M File) (chunks : list str) : Prop :=
  forall f s,
    body f s = (Ok {| f_path := f_path f; f_loc := f_loc f;
                      f_buffer := f_buffer f ++ concat chunks |},
                log_all (List.map (EvWrite (f_path f)) chunks) s).



(** The number of chunks of [n] videos at [size] videos a chunk: n/size
    rounded up. *)
Definition chunk_count (n : nat) (size : Z) : nat :=
  Z.to_nat ((Z.of_nat n + size - 1) / size).

(** The [k]-th chunk (counted from 0): the next [size] videos after the
    first [k * size]. *)
Definition nth_chunk (vids : list str) (size : Z) (k : nat) : list str :=
  firstn (Z.to_nat size) (skipn (k * Z.to_nat size) vids).

(** The name and the path of the file of the [k]-th chunk (counted from
    0). *)
Definition chunk_name (base name : str) (k : nat) : str :=
  base ++ py "_" ++ sanitize_name name ++ py "_" ++ fmt03 (N.of_nat (S k))
  ++ py ".json".

Definition chunk_path (outdir base name : str) (k : nat) : str :=
  join outdir (chunk_name base name k).

(** The document in a chunk file. *)
Definition chunk_doc (pretty : bool) (name : str) (chunk : list str) : str :=
  dumps (style_of pretty) (piped_payload [piped_playlist name chunk]).

(** The chunk files of one playlist, in the order they are written. *)
Definition chunk_files (outdir base : str) (pretty : bool) (size : Z)
    (p : str * list str) : list (str * str) :=
  List.map (fun k => (chunk_path outdir base (fst p) k,
                      chunk_doc pretty (fst p) (nth_chunk (snd p) size k)))
           (seq 0 (chunk_count (List.length (snd p)) size)).

(** The names of the chunk files of one playlist with the documents in
    them, in the order they are written. *)
Definition chunk_docs (base : str) (pretty : bool) (size : Z)
    (p : str * list str) : list (str * str) :=
  List.map (fun k => (chunk_name base (fst p) k,
                      chunk_doc pretty (fst p) (nth_chunk (snd p) size k)))
           (seq 0 (chunk_count (List.length (snd p)) size)).






(** Seven video IDs [v1] ... [v7]. *)
Definition seven_videos : list str :=
  List.map (fun k => py "v" ++ str_of_N (N.of_nat k)) (seq 1 7).


(** *** Reading a Piped document: the video strings it lists *)






(** *** The builders, step by step *)

(** What [extract_video_min] hands back at the [n]-th call of yt-dlp. *)
Definition fetched_meta (env : Env) (n : nat) (vid : str) : Entry :=
  match extract_info env n (py "https://www.youtube.com/watch?v=" ++ vid) with
  | ExtractInfo i => if info_truthy i then info_fields i
                     else {[ py "id" := VStr vid ]}
  | _ => {[ py "id" := VStr vid ]}
  end.

(** The test of [build_freetube_from_ids]: an ID and a title that is not
    [None]. *)
Definition usable (meta : Entry) : bool :=
  has_key meta "id" && negb (is_None (get meta "title")).

(** The records of an ID list, the first one stamped with clock reading [c]
    and UUID [u] after yt-dlp call [x]; every record takes two clock
    readings (its own and the one of [add_video]), one UUID and one call. *)
Fixpoint ids_videos (env : Env) (ids : list str) (c u x : nat) : list FreeTubeVideo :=
  match ids with
  | [] => []
  | vid :: ids' =>
    let meta := fetched_meta env x vid in
    (if usable meta then video_of_entry meta (time_ms env c) (uuid4 env u)
     else video_placeholder vid (time_ms env c) (uuid4 env u))
    :: ids_videos env ids' (c + 2) (S u) (S x)
  end.

(** The ID of a raw entry after cleaning, and the test on it. *)
Definition entry_id (e : Entry) : str :=
  clean_text (py_or (get e "id") (VStr [])).

Definition kept (e : Entry) : bool :=
  match entry_id e with [] => false | _ => true end.

(** The records of an entry list, stamped like those of an ID list; a
    skipped entry takes no clock reading and no UUID. *)
Fixpoint entries_videos (env : Env) (es : list Entry) (c u : nat) : list FreeTubeVideo :=
  match es with
  | [] => []
  | e :: es' =>
    if kept e
    then video_of_entry e (time_ms env c) (uuid4 env u)
         :: entries_videos env es' (c + 2) (S u)
    else entries_videos env es' c u
  end.

(** Three raw entries, the second with an ID of white space only. *)
Definition three_entries : list Entry :=
  [ {[ py "id" := VStr (py "aaaaaaaaaaA") ]};
    {[ py "id" := VStr (py "  ") ]};
    <[ py "title" := VStr (py "third") ]> {[ py "id" := VStr (py "ccccccccccc") ]} ].

(** *** JSON text *)

(** The printable ASCII characters. *)
Definition printable (c : N) : bool := in_range 0x20 0x7E c.

(** What can follow a value in compact JSON text: the end, a comma or a
    closing bracket. *)
Definition delimited (rest : str) : Prop :=
  match rest with
  | [] => True
  | c :: _ => c = 44 \/ c = 93 \/ c = 125
  end.

(** What can follow a number: the end, or a character that is neither a
    digit nor the start of a fraction or of an exponent. *)
Definition stops (rest : str) : Prop :=
  match rest with
  | [] => True
  | c :: _ => ascii_digit c = false /\ (c =? 46) || (c =? 101) || (c =? 69) = false
  end.


Section JSON_induction.

Variable P : JSON -> Prop.
Hypothesis P_null : P JNull.
Hypothesis P_bool : forall b, P (JBool b).
Hypothesis P_int : forall z, P (JInt z).
Hypothesis P_float : forall r, P (JFloat r).
Hypothesis P_str : forall s, P (JStr s).
Hypothesis P_list : forall l, Forall P l -> P (JList l).
Hypothesis P_dict : forall kv, Forall (fun p => P (snd p)) kv -> P (JDict kv).

Fixpoint JSON_nested_ind (v : JSON) : P v :=
  match v with
  | JNull => P_null
  | JBool b => P_bool b
  | JInt z => P_int z
  | JFloat r => P_float r
  | JStr s => P_str s
  | JList l =>
    P_list l ((fix go (l : list JSON) : Forall P l :=
                 match l with
                 | [] => Forall_nil_2 P
                 | x :: l' => Forall_cons_2 P x l' (JSON_nested_ind x) (go l')
                 end) l)
  | JDict kv =>
    P_dict kv ((fix go (kv : list (str * JSON)) : Forall (fun p => P (snd p)) kv :=
                  match kv with
                  | [] => Forall_nil_2 _
                  | p :: kv' =>
                    Forall_cons_2 (fun p => P (snd p)) p kv'
                                  (JSON_nested_ind (snd p)) (go kv')
                  end) kv)
  end.

End JSON_induction.







(** The cases of [escape_char] with [ensure_ascii] set. *)
Inductive Escaped (c : N) : str -> Prop :=
| esc_short e : short_escape c = Some e -> Escaped c [92; e]
| esc_plain : short_escape c = None -> 0x20 <= c <= 0x7E -> Escaped c [c]
| esc_unit : short_escape c = None -> c < 0x20 \/ 0x7E < c -> c < 0x10000 ->
             Escaped c (u_escape c)
| esc_pair : 0x10000 <= c ->
             Escaped c (u_escape (high_surrogate c) ++ u_escape (low_surrogate c)).



(** The calls of one database append, in order: the pieces of the document
    and then the line feed are written. *)
Definition db_events (path : str) (pieces : list str) : list Event :=
  [EvOpen path ModeA] ++ List.map (EvWrite path) pieces
  ++ [EvWrite path [10]; EvFlush path; EvFsync path; EvClose path].




(** A character other than the path separator, and the name of an entry of
    a directory: not empty, without separator, neither [.] nor [..]. *)
Definition not_sep (c : N) : bool := negb (c =? SEP).


(** *** Video IDs *)

(** A string that [YT_ID_RE] matches as a whole: eleven characters of the ID
    alphabet, the last one among the sixteen that can end an ID. *)
Definition valid_id (i : str) : bool :=
  (List.length i =? 11)%nat && forallb id_char i && id_last_char (nth 10 i 0).

(** The IDs [read_ids_file] takes from one line and from the text of a
    file. *)
Definition ids_of_line (raw : str) : list str :=
  let line := strip raw in
  if (match line with [] => true | _ => false end) || startswith line (py "#")
  then []
  else match search_id line with
       | Some m => [m]
       | None => []
       end.

Definition ids_of_text (text : str) : list str :=
  flat_map ids_of_line (splitlines [] text).

(** A state whose current directory holds an ID file with a comment, an ID,
    an empty line and a short link followed by a remark. *)
Definition ids_state : State :=
  {| clock_reads := 0; uuid_draws := 0; extractions := 0;
     files := {[ py "ids.txt" :=
                 py "# favourites" ++ [10] ++ py "dQw4w9WgXcQ" ++ [10] ++ [10]
                 ++ py "  https://youtu.be/9bZkp7q19f0 (live)" ++ [13; 10] ]};
     dirs := ∅; disk := ∅; trace := [] |}.

(** *** The NewPipe document *)




(** *** The builders' inputs *)

(** [info.get("entries") or []] *)
Definition entries_of (info : Info) : list (option Entry) :=
  match info_entries info with
  | EntriesList l => l
  | _ => []
  end.

(** yt-dlp gave nothing to work with: it raised, returned nothing, or
    returned an empty dictionary. *)
Definition no_data (x : Extracted) : bool :=
  match x with
  | ExtractInfo i => negb (info_truthy i)
  | _ => true
  end.

(** *** Runs of [main] in which every playlist is extracted *)














(** * Properties *)

(** ** Stripping *)

Section Strip.

Variable p : N -> bool.

Lemma lstrip_by_head (s : str) c t : lstrip_by p s = c :: t -> p c = false.
Proof.
  induction s as [|a s IH]; simpl; [discriminate|].
  destruct (p a) eqn:Ha; [exact IH|].
  intros [= <- _]. exact Ha.
Qed.

Lemma lstrip_by_fixed (s : str) :
  match s with [] => True | c :: _ => p c = false end -> lstrip_by p s = s.
Proof. destruct s as [|c t]; simpl; [reflexivity|]. intros ->. reflexivity. Qed.

Lemma lstrip_by_idem (s : str) : lstrip_by p (lstrip_by p s) = lstrip_by p s.
Proof.
  apply lstrip_by_fixed. destruct (lstrip_by p s) eqn:E; [exact I|].
  eapply lstrip_by_head. exact E.
Qed.

Lemma lstrip_by_suffix (s : str) :
  exists d, s = d ++ lstrip_by p s /\ forallb p d = true.
Proof.
  induction s as [|a s [d [E F]]]; simpl.
  - exists []. split; reflexivity.
  - destruct (p a) eqn:Ha.
    + exists (a :: d). simpl. rewrite Ha, F. split; [f_equal; exact E|reflexivity].
    + exists []. split; reflexivity.
Qed.

Lemma strip_by_trimmed (s : str) : trimmed p (strip_by p s).
Proof.
  unfold trimmed, strip_by, rstrip_by. set (t := lstrip_by p s).
  rewrite rev_involutive, lstrip_by_idem. split; [|reflexivity].
  destruct (lstrip_by_suffix (rev t)) as [d [E _]].
  set (w := lstrip_by p (rev t)) in *.
  apply lstrip_by_fixed.
  destruct (rev w) as [|c u] eqn:Ew; [exact I|].
  assert (Et : t = (c :: u) ++ rev d).
  { rewrite <- Ew, <- rev_app_distr, <- E, rev_involutive. reflexivity. }
  eapply lstrip_by_head. unfold t in Et. exact Et.
Qed.

Lemma strip_by_fixed (s : str) : trimmed p s -> strip_by p s = s.
Proof.
  intros [H1 H2]. unfold strip_by, rstrip_by.
  rewrite H1, H2. apply rev_involutive.
Qed.

Lemma strip_by_idem (s : str) : strip_by p (strip_by p s) = strip_by p s.
Proof. apply strip_by_fixed, strip_by_trimmed. Qed.

Lemma lstrip_by_incl (s : str) c : In c (lstrip_by p s) -> In c s.
Proof.
  destruct (lstrip_by_suffix s) as [d [E _]]. intros H.
  rewrite E. apply in_or_app. right. exact H.
Qed.

Lemma strip_by_incl (s : str) c : In c (strip_by p s) -> In c s.
Proof.
  unfold strip_by, rstrip_by. intros H.
  apply lstrip_by_incl. apply in_rev. apply lstrip_by_incl.
  apply in_rev in H. exact H.
Qed.

End Strip.

(** ** [clean_text] *)

Lemma filter_id {A} (f : A -> bool) (l : list A) :
  (forall x, In x l -> f x = true) -> List.filter f l = l.
Proof.
  induction l as [|a l IH]; simpl; intros H; [reflexivity|].
  rewrite (H a (or_introl eq_refl)). f_equal. apply IH.
  intros x Hx. apply H. right. exact Hx.
Qed.

Lemma map_id_on {A} (f : A -> A) (l : list A) :
  (forall x, In x l -> f x = x) -> List.map f l = l.
Proof.
  induction l as [|a l IH]; simpl; intros H; [reflexivity|].
  rewrite (H a (or_introl eq_refl)). f_equal. apply IH.
  intros x Hx. apply H. right. exact Hx.
Qed.

Lemma plain_char_spec c :
  plain_char c = true -> ZERO_WIDTH c = false /\ c <> 0xA0 /\ c <> 0x2024.
Proof.
  unfold plain_char. intros H.
  apply andb_prop in H as [H H3]. apply andb_prop in H as [H1 H2].
  apply negb_true_iff in H1, H2, H3.
  apply N.eqb_neq in H2, H3. auto.
Qed.

Lemma clean_text_plain (y : str) :
  (forall c, In c y -> plain_char c = true) -> clean_text (VStr y) = strip y.
Proof.
  intros H. unfold clean_text, sub_empty, replace_char. simpl py_str.
  assert (Hs : forall c, In c (strip y) -> plain_char c = true).
  { intros c Hc. apply H. eapply strip_by_incl. exact Hc. }
  rewrite (map_id_on _ (strip y)).
  2:{ intros c Hc. destruct (plain_char_spec c (Hs c Hc)) as (_ & Ha & _).
      apply N.eqb_neq in Ha. rewrite Ha. reflexivity. }
  rewrite (map_id_on _ (strip y)).
  2:{ intros c Hc. destruct (plain_char_spec c (Hs c Hc)) as (_ & _ & Ha).
      apply N.eqb_neq in Ha. rewrite Ha. reflexivity. }
  apply filter_id. intros c Hc.
  destruct (plain_char_spec c (Hs c Hc)) as (-> & _). reflexivity.
Qed.

Lemma cleaned_is_plain (s : str) c :
  In c (sub_empty ZERO_WIDTH (replace_char 0x2024 46 (replace_char 0xA0 32 s))) ->
  plain_char c = true.
Proof.
  unfold sub_empty, replace_char. intros H.
  apply filter_In in H as [H Hz].
  apply in_map_iff in H as [y [<- H]].
  apply in_map_iff in H as [x [<- _]].
  revert Hz. unfold plain_char.
  destruct (x =? 160) eqn:Ea; [reflexivity|].
  destruct (x =? 8228) eqn:Eb; [reflexivity|].
  intros ->. rewrite Ea, Eb. reflexivity.
Qed.

Lemma clean_text_is_plain (v : PyVal) c :
  In c (clean_text v) -> plain_char c = true.
Proof.
  destruct v; simpl; try contradiction; apply cleaned_is_plain.
Qed.

Lemma isspace_replaced c :
  isspace c = false ->
  isspace (if (if c =? 0xA0 then 32 else c) =? 0x2024 then 46
           else (if c =? 0xA0 then 32 else c)) = false.
Proof.
  intros H. destruct (c =? 0xA0) eqn:Ea.
  - apply N.eqb_eq in Ea. subst c. discriminate H.
  - destruct (c =? 0x2024) eqn:Eb; [reflexivity|exact H].
Qed.

Lemma lstrip_map_fixed (f : N -> N) (s : str) :
  (forall c, isspace c = false -> isspace (f c) = false) ->
  lstrip_by isspace s = s -> lstrip_by isspace (List.map f s) = List.map f s.
Proof.
  intros Hf Hs. apply lstrip_by_fixed.
  destruct s as [|c t]; simpl; [exact I|].
  apply Hf. eapply lstrip_by_head. exact Hs.
Qed.

Lemma clean_text_no_zero_width_input (x : str) :
  (forall c, In c x -> ZERO_WIDTH c = false) ->
  clean_text (VStr x) =
  List.map (fun c => if (if c =? 0xA0 then 32 else c) =? 0x2024 then 46
                     else (if c =? 0xA0 then 32 else c)) (strip x)
  /\ trimmed isspace (clean_text (VStr x)).
Proof.
  intros H.
  assert (E : clean_text (VStr x) =
    List.map (fun c => if (if c =? 0xA0 then 32 else c) =? 0x2024 then 46
                       else (if c =? 0xA0 then 32 else c)) (strip x)).
  { unfold clean_text, sub_empty, replace_char. simpl py_str.
    rewrite map_map. apply filter_id. intros c Hc.
    apply in_map_iff in Hc as [a [<- Ha]].
    apply strip_by_incl in Ha. specialize (H a Ha).
    destruct (a =? 160) eqn:Ea; [reflexivity|].
    destruct (a =? 8228) eqn:Eb; [reflexivity|]. rewrite H. reflexivity. }
  split; [exact E|]. rewrite E.
  destruct (strip_by_trimmed isspace x) as [T1 T2]. fold (strip x) in T1, T2.
  split.
  - apply lstrip_map_fixed; [apply isspace_replaced|exact T1].
  - rewrite <- map_rev. apply lstrip_map_fixed; [apply isspace_replaced|exact T2].
Qed.

(** C3, as stated, fails: a zero-width space in front of a blank shields the
    blank from [strip], and the second application then strips it. *)
Lemma clean_text_idempotent_counterexample :
  let x := [0x200B; 32; 104] in
  clean_text (VStr x) = [32; 104]
  /\ clean_text (VStr (clean_text (VStr x))) = [104]
  /\ clean_text (VStr (clean_text (VStr x))) <> clean_text (VStr x).
Proof. vm_compute. repeat split. discriminate. Qed.

(** C3, amended: the result of [clean_text] holds no code point in
    U+200B-U+200F nor U+FEFF; [clean_text] is idempotent on every string
    without such a code point; on any string, a second application only
    strips the white space the removal has laid bare, and from then on
    nothing changes. *)
Theorem clean_text_idempotent_amended :
  (forall (x : str) c, In c (clean_text (VStr x)) -> ZERO_WIDTH c = false)
  /\ (forall x : str,
         forallb (fun c => negb (ZERO_WIDTH c)) x = true ->
         clean_text (VStr (clean_text (VStr x))) = clean_text (VStr x))
  /\ (forall x : str,
         clean_text (VStr (clean_text (VStr x))) = strip (clean_text (VStr x)))
  /\ (forall x : str,
         clean_text (VStr (clean_text (VStr (clean_text (VStr x)))))
         = clean_text (VStr (clean_text (VStr x)))).
Proof.
  assert (second : forall x : str,
             clean_text (VStr (clean_text (VStr x))) = strip (clean_text (VStr x))).
  { intros x. apply clean_text_plain. intros c. apply clean_text_is_plain. }
  repeat split.
  - intros x c Hc. apply clean_text_is_plain in Hc.
    apply plain_char_spec in Hc as [Hc _]. exact Hc.
  - intros x Hx. rewrite second.
    apply strip_by_fixed.
    apply clean_text_no_zero_width_input.
    intros c Hc. rewrite forallb_forall in Hx.
    apply negb_true_iff. apply Hx. exact Hc.
  - exact second.
  - intros x. rewrite !second. apply strip_by_idem.
Qed.

Lemma clean_text_idempotent_amended_witness :
  clean_text (VStr (clean_text (VStr [32; 0xA0; 104; 0x2024; 32])))
  = clean_text (VStr [32; 0xA0; 104; 0x2024; 32]).
Proof.
  apply (proj1 (proj2 clean_text_idempotent_amended)). reflexivity.
Defined.

(** ** [main] without input *)

(** C8, as stated, fails: without any input the Piped JSON export prints
    the help text and ends with status 0; nothing is reported as an error. *)
Lemma main_no_input_counterexample :
  let r := main sample_env (sample_args PipedJson) empty_state in
  exit_status (fst r) = 0%Z
  /\ trace (snd r) = [EvPrintHelp]
  /\ exit_status (fst r) <> 2%Z.
Proof. vm_compute. repeat split. discriminate. Qed.

(** C8, amended: when an export mode other than the subscription export is
    selected and neither a playlist URL nor an ID file is given, the program
    prints its help text and exits with status 0 (the branch that would
    report a usage error with status 2 comes after this exit and is never
    reached). *)
Theorem main_no_input_shows_help env (args : Args) (s : State) :
  export_eqb (a_export args) NewpipeSubs = false ->
  a_playlist_url args = [] ->
  option_truthy (a_ids_file args) = false ->
  main env args s = (Raise (SystemExit 0), log EvPrintHelp s)
  /\ exit_status (fst (main env args s)) = 0%Z.
Proof.
  intros Hk Hu Hi.
  assert (E : main env args s = (Raise (SystemExit 0), log EvPrintHelp s)).
  { unfold main. rewrite Hk, Hu, Hi. reflexivity. }
  split; [exact E|]. rewrite E. reflexivity.
Qed.

Lemma main_no_input_shows_help_witness :
  main sample_env (sample_args Urls) empty_state
  = (Raise (SystemExit 0), log EvPrintHelp empty_state)
  /\ exit_status (fst (main sample_env (sample_args Urls) empty_state)) = 0%Z.
Proof.
  apply (main_no_input_shows_help sample_env (sample_args Urls) empty_state);
    reflexivity.
Defined.

(** ** The playlist invariant *)

Lemma new_total env name descr s :
  exists pl s', new env name descr s = (Ok pl, s')
                /\ createdAt pl = time_ms env (clock_reads s)
                /\ lastUpdatedAt pl = time_ms env (clock_reads s)
                /\ videos pl = []
                /\ clock_reads s' = S (clock_reads s)
                /\ uuid_draws s' = S (uuid_draws s)
                /\ extractions s' = extractions s.
Proof. eexists _, _. split; [reflexivity|]. repeat split. Qed.

Lemma add_video_spec env pl v s :
  add_video env pl v s =
  (Ok {| playlistName := playlistName pl; protected := protected pl;
         description := description pl; videos := videos pl ++ [v];
         _id := _id pl; createdAt := createdAt pl;
         lastUpdatedAt := time_ms env (clock_reads s) |},
   set_clock_reads (S (clock_reads s)) s).
Proof. reflexivity. Qed.

Lemma lifetime_invariant env created pl s :
  non_decreasing (time_ms env) ->
  Lifetime env created pl s ->
  createdAt pl = created
  /\ (created <= lastUpdatedAt pl)%Z
  /\ exists k, (k < clock_reads s)%nat /\ created = time_ms env k.
Proof.
  intros Hmono L. induction L as
    [name descr s pl s' Hnew Hc | pl s v pl' s' L IH Hadd | pl s s' L IH Hle].
  - destruct (new_total env name descr s) as (pl0 & s0 & E & Hc0 & Hl0 & _ & Hr & _).
    rewrite E in Hnew. injection Hnew as <- <-.
    subst created. split; [reflexivity|]. split; [lia|].
    exists (clock_reads s). split; [lia|exact Hc0].
  - destruct IH as (Hc & Hl & k & Hk & Ek).
    rewrite add_video_spec in Hadd. injection Hadd as <- <-. simpl.
    split; [exact Hc|]. split.
    + rewrite Ek. apply Hmono. lia.
    + exists k. split; [lia|exact Ek].
  - destruct IH as (Hc & Hl & k & Hk & Ek).
    split; [exact Hc|]. split; [exact Hl|].
    exists k. split; [lia|exact Ek].
Qed.

(** C9: with a clock that never runs backwards, every playlist made by
    [FreeTubePlaylist.new] and changed by any sequence of [add_video] calls
    (with any other work in between) has [lastUpdatedAt >= createdAt], and
    its [createdAt] is still the time read at its creation; [add_video]
    always succeeds and leaves [createdAt] alone. *)
Theorem playlist_timestamps_invariant env created pl s :
  non_decreasing (time_ms env) ->
  Lifetime env created pl s ->
  (createdAt pl <= lastUpdatedAt pl)%Z
  /\ createdAt pl = created
  /\ forall v, exists pl' s',
       add_video env pl v s = (Ok pl', s')
       /\ createdAt pl' = createdAt pl
       /\ (createdAt pl' <= lastUpdatedAt pl')%Z.
Proof.
  intros Hmono L.
  destruct (lifetime_invariant env created pl s Hmono L) as (Hc & Hl & _).
  split; [lia|]. split; [exact Hc|].
  intros v. eexists _, _. split; [apply add_video_spec|]. simpl.
  split; [reflexivity|].
  assert (L' := life_add_video env created pl s v _ _ L (add_video_spec env pl v s)).
  destruct (lifetime_invariant env created _ _ Hmono L') as (Hc' & Hl' & _).
  simpl in Hc', Hl'. lia.
Qed.

Lemma playlist_timestamps_invariant_witness :
  let v := video_placeholder (py "dQw4w9WgXcQ") 1700000000000 (py "uuid-1") in
  non_decreasing (time_ms sample_env)
  /\ exists pl s,
       Lifetime sample_env 1700000000000 pl s
       /\ videos pl = [v; v]
       /\ lastUpdatedAt pl = 1700000000003%Z
       /\ (createdAt pl <= lastUpdatedAt pl)%Z
       /\ createdAt pl = 1700000000000%Z.
Proof.
  intros v.
  assert (Hm : non_decreasing (time_ms sample_env))
    by (intros i j Hij; unfold sample_env; simpl; lia).
  pose (s0 := set_uuid_draws 1 (set_clock_reads 1 empty_state)).
  assert (L0 : Lifetime sample_env 1700000000000 sample_playlist s0)
    by (apply (life_new sample_env _ (py "mix") [] empty_state); reflexivity).
  pose proof (life_add_video sample_env _ _ _ v _ _ L0
                (add_video_spec sample_env sample_playlist v s0)) as L1.
  pose proof (life_other_work sample_env _ _ _
                (set_clock_reads 3 s0) L1 ltac:(cbn; lia)) as L2.
  pose proof (life_add_video sample_env _ _ _ v _ _ L2
                (add_video_spec sample_env _ v _)) as L3.
  split; [exact Hm|].
  destruct (playlist_timestamps_invariant sample_env _ _ _ Hm L3) as (H1 & H2 & _).
  eexists _, _. split; [exact L3|].
  split; [reflexivity|]. split; [reflexivity|]. split; [exact H1|exact H2].
Defined.

(** ** The subscription feed *)

Lemma subscriptions_loop (es : list (option Entry)) (results : list (str * PyVal)) s :
  for_fold es results (fun results e =>
      match subscription_of e with
      | None => ret results
      | Some sub => ret (results ++ [sub])
      end) s
  = (Ok (results ++ omap subscription_of es), s).
Proof.
  revert results. induction es as [|e es IH]; intros results; simpl.
  - rewrite app_nil_r. reflexivity.
  - unfold bind at 1. destruct (subscription_of e) as [sub|]; simpl.
    + rewrite IH. rewrite <- app_assoc. reflexivity.
    + apply IH.
Qed.




(** ** Files *)


Lemma log_all_state evs s :
  log_all evs s =
  {| clock_reads := clock_reads s; uuid_draws := uuid_draws s;
     extractions := extractions s; files := files s; dirs := dirs s;
     disk := disk s; trace := trace s ++ evs |}.
Proof.
  revert s. induction evs as [|ev evs IH]; intros s; simpl.
  - rewrite app_nil_r. destruct s; reflexivity.
  - unfold log_all in IH. rewrite IH. simpl. rewrite <- app_assoc. reflexivity.
Qed.

Lemma write_spec f text s :
  write f text s
  = (Ok {| f_path := f_path f; f_loc := f_loc f; f_buffer := f_buffer f ++ text |},
     log_all [EvWrite (f_path f) text] s).
Proof. reflexivity. Qed.


Lemma writes_loop {A} (g : A -> str) (xs : list A) :
  writes_chunks (fun f => for_fold xs f (fun f x => write f (g x))) (List.map g xs).
Proof.
  induction xs as [|x xs IH]; intros f s; simpl.
  - rewrite app_nil_r. destruct f; reflexivity.
  - unfold bind. rewrite write_spec. rewrite IH. simpl.
    rewrite <- app_assoc. reflexivity.
Qed.


(** *** The pieces of [json.dump] make up the text of the document *)

Lemma indent_piece_concat st level :
  concat (indent_piece st level) = newline_indent st level.
Proof.
  unfold indent_piece, newline_indent. destruct (indent st); [|reflexivity].
  cbn [concat]. apply app_nil_r.
Qed.

Lemma list_pieces_join sep (text : JSON -> str) (pieces : JSON -> list str)
    (l : list JSON) :
  Forall (fun x => concat (pieces x) = text x) l ->
  l <> [] ->
  forall buf,
    concat (list_pieces sep text pieces buf l) = buf ++ join_with sep (List.map text l).
Proof.
  intros H. induction H as [|x l Hx Hl IH]; [congruence|]. intros _ buf.
  cbn [list_pieces]. rewrite concat_app.
  assert (E : concat (match x with
                      | JList _ | JDict _ => buf :: pieces x
                      | _ => [buf ++ text x]
                      end) = buf ++ text x).
  { destruct x; cbn [concat]; rewrite ?app_nil_r, ?Hx, <- ?app_assoc; reflexivity. }
  rewrite E. destruct l as [|y l'].
  - cbn [list_pieces concat List.map join_with]. rewrite app_nil_r. reflexivity.
  - rewrite IH by discriminate. cbn [List.map join_with].
    rewrite <- !app_assoc. reflexivity.
Qed.

Lemma dict_pieces_join sep (pieces : JSON -> list str) (text : JSON -> str)
    (key_text : str -> str) (key_sep : str) (kv : list (str * JSON)) :
  Forall (fun p => concat (pieces (snd p)) = text (snd p)) kv ->
  kv <> [] ->
  concat (dict_pieces sep pieces key_text key_sep true kv)
  = join_with sep (List.map (fun p => match p with
                                      | (k, x) => key_text k ++ key_sep ++ text x
                                      end) kv)
  /\ concat (dict_pieces sep pieces key_text key_sep false kv)
     = sep ++ join_with sep (List.map (fun p => match p with
                                                | (k, x) => key_text k ++ key_sep ++ text x
                                                end) kv).
Proof.
  intros H. induction H as [|[k x] kv Hx Hl IH]; [congruence|]. intros _.
  cbn [snd] in Hx. cbn [dict_pieces List.map].
  assert (T : concat (dict_pieces sep pieces key_text key_sep false kv)
              = match kv with
                | [] => []
                | _ => sep ++ join_with sep
                         (List.map (fun p => match p with
                                             | (k, x) => key_text k ++ key_sep ++ text x
                                             end) kv)
                end).
  { destruct kv as [|q kv']; [reflexivity|]. apply IH. discriminate. }
  cbn [app concat]. rewrite !concat_app, Hx, T.
  destruct kv as [|q kv']; cbn [List.map join_with concat app];
    rewrite ?app_nil_r, <- ?app_assoc; split; reflexivity.
Qed.

Lemma iterencode_concat st (v : JSON) :
  forall level, concat (iterencode st level v) = encode st level v.
Proof.
  induction v as [|b|z|r|s|l IH|kv IH] using JSON_nested_ind; intros level;
    try (cbn [iterencode concat]; apply app_nil_r).
  - destruct l as [|x l']; [reflexivity|].
    cbn [iterencode encode]. rewrite !concat_app, indent_piece_concat.
    rewrite (list_pieces_join _ (encode st (S level)) (iterencode st (S level)))
      by first [discriminate
               |eapply Forall_impl; [exact IH|]; intros y Hy; apply Hy].
    cbn [concat app]. rewrite ?app_nil_r, <- ?app_assoc. reflexivity.
  - destruct kv as [|p kv']; [reflexivity|].
    cbn [iterencode encode]. cbn [concat]. rewrite !concat_app, !indent_piece_concat.
    destruct (dict_pieces_join (item_separator st ++ newline_indent st (S level))
                (iterencode st (S level)) (encode st (S level))
                (encode_basestring (ensure_ascii st)) (key_separator st) (p :: kv'))
      as [E _]; [eapply Forall_impl; [exact IH|]; intros y Hy; apply Hy|discriminate|].
    rewrite E. cbn [concat app]. rewrite ?app_nil_r, <- ?app_assoc. reflexivity.
Qed.

Lemma writes_json st obj : writes_chunks (json_dump st obj) (iterencode st 0 obj).
Proof.
  pose proof (writes_loop (fun x => x) (iterencode st 0 obj)) as H.
  rewrite map_id in H. exact H.
Qed.


Lemma writable_dirs s s' p : dirs s' = dirs s -> writable s' p = writable s p.
Proof. unfold writable. intros ->. reflexivity. Qed.


Lemma writable_resolve s path loc :
  writable s path = Some loc ->
  resolve (dirs s) path = At loc /\ dir_at (dirs s) loc = false.
Proof.
  unfold writable. destruct (resolve (dirs s) path) as [l|l r]; [|discriminate].
  destruct (dir_at (dirs s) l) eqn:E; [discriminate|].
  intros [= <-]. split; [reflexivity|exact E].
Qed.

Lemma dir_loc_resolve s path loc :
  dir_loc s path = Some loc ->
  resolve (dirs s) path = At loc /\ dir_at (dirs s) loc = true.
Proof.
  unfold dir_loc. destruct (resolve (dirs s) path) as [l|l r]; [|discriminate].
  destruct (dir_at (dirs s) l) eqn:E; [|discriminate].
  intros [= <-]. split; [reflexivity|exact E].
Qed.

Lemma with_open_w_spec path loc body chunks s :
  writable s path = Some loc ->
  writes_chunks body chunks ->
  with_open path ModeW body s
  = (Ok tt, put_file loc (concat chunks) (write_events path chunks) s).
Proof.
  intros Hw Hb. apply writable_resolve in Hw as [H1 H2].
  unfold with_open, bind, open_. rewrite H1, H2. simpl.
  rewrite Hb. simpl. unfold close, modify. f_equal.
  rewrite log_all_state. unfold put_file, log, flush_buffer, set_files, text_at.
  simpl. rewrite lookup_insert_eq. simpl. rewrite insert_insert_eq.
  unfold write_events. rewrite <- !app_assoc. reflexivity.
Qed.

(** The content a reader finds at a path that was written. *)
Lemma content_put_file s path loc text evs :
  writable s path = Some loc ->
  content (put_file loc text evs s) path = text.
Proof.
  intros Hw. apply writable_resolve in Hw as [H1 _].
  unfold content, put_file, text_at. cbn [dirs files]. rewrite H1, lookup_insert_eq.
  reflexivity.
Qed.

(** *** Paths and the locations they lead to *)

Lemma components_nonempty (p : str) : components p <> [].
Proof.
  destruct p as [|c t]; cbn [components]; [discriminate|].
  destruct (c =? SEP); [discriminate|]. destruct (components t); discriminate.
Qed.

Lemma components_app_sep (a b : str) :
  components (a ++ SEP :: b) = components a ++ components b.
Proof.
  induction a as [|c t IH]; cbn [app components].
  - rewrite N.eqb_refl. reflexivity.
  - destruct (c =? SEP); [rewrite IH; reflexivity|].
    rewrite IH. pose proof (components_nonempty t) as Hn.
    destruct (components t) as [|h r]; [contradiction|]. reflexivity.
Qed.

Lemma components_no_sep (n : str) : forallb not_sep n = true -> components n = [n].
Proof.
  induction n as [|c t IH]; cbn [forallb components]; [reflexivity|].
  intros H. apply andb_prop in H as [Hc Ht]. unfold not_sep in Hc.
  apply negb_true_iff in Hc. rewrite Hc, (IH Ht). reflexivity.
Qed.

Lemma walk_app d loc a b :
  walk d loc (a ++ b)
  = match walk d loc a with
    | At l => walk d l b
    | Stuck l r => Stuck l (r ++ b)
    end.
Proof.
  revert loc. induction a as [|c a IH]; intros loc; cbn [app walk]; [reflexivity|].
  destruct (dir_at d loc); [apply IH|reflexivity].
Qed.

Lemma resolve_app_sep d (p q : str) :
  p <> [] ->
  resolve d (p ++ SEP :: q)
  = match resolve d p with
    | At l => walk d l (components q)
    | Stuck l r => Stuck l (r ++ components q)
    end.
Proof.
  destruct p as [|c t]; [contradiction|]. intros _.
  cbn [app resolve]. destruct (c =? SEP).
  - rewrite components_app_sep. apply walk_app.
  - rewrite <- walk_app, <- components_app_sep. reflexivity.
Qed.

Lemma writable_put_file s path text evs p :
  writable (put_file path text evs s) p = writable s p.
Proof. reflexivity. Qed.

Lemma writable_log s ev p : writable (log ev s) p = writable s p.
Proof. reflexivity. Qed.

(** ** The tabular export *)








(** ** Paths: a file made inside a directory just made *)

Lemma lstrip_by_app_all (p : N -> bool) (x y : str) :
  forallb p x = true -> lstrip_by p (x ++ y) = lstrip_by p y.
Proof.
  induction x as [|c t IH]; [reflexivity|]. cbn [forallb app lstrip_by].
  intros H. apply andb_prop in H as [-> Ht]. apply IH. exact Ht.
Qed.

Lemma lstrip_by_nil (p : N -> bool) (x : str) :
  lstrip_by p x = [] -> forallb p x = true.
Proof.
  induction x as [|c t IH]; [reflexivity|]. cbn [lstrip_by forallb].
  destruct (p c); [exact IH|discriminate].
Qed.

Lemma lstrip_by_length (p : N -> bool) (x : str) :
  (List.length (lstrip_by p x) <= List.length x)%nat.
Proof.
  induction x as [|c t IH]; [reflexivity|]. cbn [lstrip_by].
  destruct (p c); cbn [List.length]; lia.
Qed.

Lemma forallb_rev (p : N -> bool) (x : str) : forallb p (rev x) = forallb p x.
Proof.
  induction x as [|c t IH]; [reflexivity|].
  cbn [rev forallb]. rewrite forallb_app, IH. cbn [forallb].
  rewrite andb_true_r. apply andb_comm.
Qed.

Lemma all_sep_ends (a : str) :
  a <> [] -> all_sep a = true -> endswith a [SEP] = true.
Proof.
  intros Hne H. unfold all_sep in H. rewrite <- forallb_rev in H.
  unfold endswith. destruct (rev a) as [|c r] eqn:E.
  - apply (f_equal (@rev N)) in E. rewrite rev_involutive in E. contradiction.
  - cbn [forallb] in H. apply andb_prop in H as [Hc _].
    cbn [rev app startswith]. rewrite Hc. reflexivity.
Qed.

Lemma upto_last_sep_ends (a n : str) :
  forallb not_sep n = true -> endswith a [SEP] = true -> upto_last_sep (a ++ n) = a.
Proof.
  intros Hn He. unfold upto_last_sep. rewrite rev_app_distr.
  rewrite lstrip_by_app_all by (rewrite forallb_rev; exact Hn).
  unfold endswith in He. destruct (rev a) as [|c r] eqn:E; [discriminate He|].
  cbn [rev app startswith] in He. apply andb_prop in He as [Hc _].
  apply N.eqb_eq in Hc. subst c. cbn [lstrip_by]. change (SEP =? SEP) with true.
  cbn [negb]. rewrite <- E. apply rev_involutive.
Qed.

Lemma dirname_join (a n : str) :
  a <> [] -> forallb not_sep n = true -> dirname (join a n) = norm_dir a.
Proof.
  intros Ha Hn.
  assert (Hs : startswith n [SEP] = false).
  { destruct n as [|c t]; [reflexivity|]. cbn [forallb] in Hn.
    apply andb_prop in Hn as [Hc _]. unfold not_sep in Hc.
    apply negb_true_iff in Hc. cbn [startswith].
    rewrite N.eqb_sym, Hc. reflexivity. }
  unfold join. rewrite Hs. destruct a as [|a0 a']; [congruence|].
  set (a := a0 :: a') in *.
  destruct (endswith a [SEP]) eqn:He.
  - unfold dirname. rewrite (upto_last_sep_ends a n Hn He). reflexivity.
  - assert (Hall : all_sep a = false).
    { destruct (all_sep a) eqn:E; [|reflexivity].
      rewrite (all_sep_ends a Ha E) in He. discriminate He. }
    assert (Hu : upto_last_sep (a ++ SEP :: n) = a ++ [SEP]).
    { change (a ++ SEP :: n) with (a ++ [SEP] ++ n). rewrite app_assoc.
      apply upto_last_sep_ends; [exact Hn|].
      unfold endswith. rewrite rev_app_distr. reflexivity. }
    unfold dirname, norm_dir. rewrite Hu, Hall.
    unfold all_sep in *. rewrite forallb_app, Hall. cbn [andb].
    unfold rstrip_by. rewrite rev_app_distr. cbn [rev app lstrip_by].
    change (SEP =? SEP) with true. cbv iota. reflexivity.
Qed.

Lemma norm_dir_nonempty (a : str) : a <> [] -> norm_dir a <> [].
Proof.
  intros Ha. unfold norm_dir. destruct (all_sep a) eqn:E; [exact Ha|].
  unfold rstrip_by. intros H.
  apply (f_equal (@rev N)) in H. rewrite rev_involutive in H. cbn [rev] in H.
  apply lstrip_by_nil in H. rewrite forallb_rev in H.
  unfold all_sep in E. congruence.
Qed.

Lemma rstrip_by_length (p : N -> bool) (x : str) :
  (List.length (rstrip_by p x) <= List.length x)%nat.
Proof.
  unfold rstrip_by. rewrite length_rev.
  pose proof (lstrip_by_length p (rev x)) as H. rewrite length_rev in H. exact H.
Qed.

Lemma dirname_length (p : str) : (List.length (dirname p) <= List.length p)%nat.
Proof.
  assert (Hu : (List.length (upto_last_sep p) <= List.length p)%nat).
  { unfold upto_last_sep. rewrite length_rev.
    pose proof (lstrip_by_length (fun c => negb (c =? SEP)) (rev p)) as H.
    rewrite length_rev in H. exact H. }
  unfold dirname. destruct (all_sep (upto_last_sep p)); [exact Hu|].
  pose proof (rstrip_by_length (N.eqb SEP) (upto_last_sep p)). lia.
Qed.

Lemma norm_dir_length (a : str) : (List.length (norm_dir a) <= List.length a)%nat.
Proof.
  unfold norm_dir. destruct (all_sep a); [lia|]. apply rstrip_by_length.
Qed.

Lemma join_length (a n : str) :
  a <> [] -> n <> [] -> forallb not_sep n = true ->
  (List.length a < List.length (join a n))%nat.
Proof.
  intros Ha Hn Hs. unfold join.
  assert (Hst : startswith n [SEP] = false).
  { destruct n as [|c t]; [reflexivity|]. cbn [forallb] in Hs.
    apply andb_prop in Hs as [Hc _]. unfold not_sep in Hc.
    apply negb_true_iff in Hc. cbn [startswith].
    rewrite N.eqb_sym, Hc. reflexivity. }
  rewrite Hst. destruct a as [|a0 a']; [congruence|].
  destruct n as [|n0 n']; [congruence|].
  destruct (endswith (a0 :: a') [SEP]); rewrite length_app; cbn [List.length]; lia.
Qed.








(** *** [os.makedirs] only makes directories *)

Lemma mkdir_frame (name : str) (s : State) :
  snd (mkdir name s) = set_dirs (dirs (snd (mkdir name s))) s.
Proof.
  unfold mkdir. destruct (resolve _ _) as [l|l r]; [|destruct s; reflexivity].
  destruct (_ || _); destruct s; reflexivity.
Qed.

Lemma mkdir_exist_ok_frame (name : str) (s : State) :
  snd (mkdir_exist_ok name s) = set_dirs (dirs (snd (mkdir_exist_ok name s))) s.
Proof.
  unfold mkdir_exist_ok. pose proof (mkdir_frame name s) as H.
  destruct (mkdir name s) as [[u|e] s']; cbn [snd] in *; [exact H|].
  destruct (isdir s' name); exact H.
Qed.

Lemma set_dirs_set_dirs d d' s : set_dirs d (set_dirs d' s) = set_dirs d s.
Proof. reflexivity. Qed.

Lemma makedirs_from_frame (fuel : nat) (name : str) (s : State) :
  snd (makedirs_from fuel name s)
  = set_dirs (dirs (snd (makedirs_from fuel name s))) s.
Proof.
  revert name s. induction fuel as [|fuel IH]; intros name s; cbn [makedirs_from].
  - destruct (match basename name with [] => _ | _ => _ end) as [|h0 h1];
      [apply mkdir_exist_ok_frame|].
    destruct (match basename name with [] => _ | _ => _ end) as [|t0 t1];
      [apply mkdir_exist_ok_frame|].
    destruct (exists_ s (h0 :: h1)); apply mkdir_exist_ok_frame.
  - destruct (match basename name with [] => _ | _ => _ end) as [|h0 h1];
      [apply mkdir_exist_ok_frame|].
    destruct (match basename name with [] => _ | _ => _ end) as [|t0 t1];
      [apply mkdir_exist_ok_frame|].
    destruct (exists_ s (h0 :: h1)); [apply mkdir_exist_ok_frame|].
    pose proof (IH (h0 :: h1) s) as H.
    destruct (makedirs_from fuel (h0 :: h1) s) as [[u|e] s']; cbn [snd] in H.
    + destruct (str_eqb (t0 :: t1) HERE); [exact H|].
      rewrite (mkdir_exist_ok_frame name s'), H. reflexivity.
    + destruct e; try exact H.
      destruct (str_eqb (t0 :: t1) HERE); [exact H|].
      rewrite (mkdir_exist_ok_frame name s'), H. reflexivity.
Qed.





Lemma makedirs_frame (path : str) (s : State) :
  files (snd (makedirs path s)) = files s
  /\ disk (snd (makedirs path s)) = disk s
  /\ clock_reads (snd (makedirs path s)) = clock_reads s
  /\ uuid_draws (snd (makedirs path s)) = uuid_draws s
  /\ extractions (snd (makedirs path s)) = extractions s.
Proof.
  unfold makedirs, bind, modify.
  pose proof (makedirs_from_frame (List.length path) path s) as H.
  destruct (makedirs_from (List.length path) path s) as [[u|e] s']; cbn [snd] in *;
    rewrite H; repeat split.
Qed.

Lemma makedirs_files (path : str) (s : State) : files (snd (makedirs path s)) = files s.
Proof. apply makedirs_frame. Qed.

Lemma makedirs_ok path s :
  fst (makedirs path s) = Ok tt ->
  files (snd (makedirs path s)) = files s
  /\ trace (snd (makedirs path s)) = trace s ++ [EvMakedirs path].
Proof.
  intros H. split; [apply makedirs_files|]. revert H.
  unfold makedirs, bind, modify.
  pose proof (makedirs_from_frame (List.length path) path s) as Hf.
  destruct (makedirs_from (List.length path) path s) as [[u|e] s']; cbn [fst snd] in *;
    [|discriminate].
  intros _. rewrite Hf. reflexivity.
Qed.

Lemma take_while_forallb (f : N -> bool) (l : str) : forallb f (take_while f l) = true.
Proof.
  induction l as [|c t IH]; [reflexivity|]. cbn [take_while].
  destruct (f c) eqn:E; [|reflexivity]. cbn [forallb]. rewrite E, IH. reflexivity.
Qed.

Lemma forallb_firstn (f : N -> bool) (k : nat) (l : str) :
  forallb f l = true -> forallb f (firstn k l) = true.
Proof.
  revert k. induction l as [|c t IH]; intros [|k] H; try reflexivity.
  cbn [forallb firstn] in *. apply andb_prop in H as [-> Ht].
  rewrite (IH k Ht). reflexivity.
Qed.

Lemma basename_no_sep (p : str) : forallb not_sep (basename p) = true.
Proof. unfold basename. rewrite forallb_rev. apply take_while_forallb. Qed.

(** *** A path and the path of its directory *)

Lemma take_while_lstrip (f : N -> bool) (x : str) :
  x = take_while f x ++ lstrip_by f x.
Proof.
  induction x as [|c t IH]; [reflexivity|]. cbn [take_while lstrip_by].
  destruct (f c); [cbn [app]; f_equal; exact IH|reflexivity].
Qed.

Lemma path_split (p : str) : p = upto_last_sep p ++ basename p.
Proof.
  unfold upto_last_sep, basename. rewrite <- rev_app_distr.
  rewrite <- take_while_lstrip. symmetry. apply rev_involutive.
Qed.

Lemma lstrip_by_stops (f : N -> bool) (x : str) (c : N) (t : str) :
  lstrip_by f x = c :: t -> f c = false.
Proof.
  induction x as [|a x IH]; [discriminate|]. cbn [lstrip_by].
  destruct (f a) eqn:E; [exact IH|]. intros [= <- _]. exact E.
Qed.

Lemma lstrip_by_prefix (f : N -> bool) (x : str) :
  exists pre, x = pre ++ lstrip_by f x /\ forallb f pre = true.
Proof.
  induction x as [|c t (pre & E & H)]; [exists []; split; reflexivity|].
  cbn [lstrip_by]. destruct (f c) eqn:Ec.
  - exists (c :: pre). cbn [app forallb]. rewrite Ec, H. split; [f_equal; exact E|].
    reflexivity.
  - exists []. split; reflexivity.
Qed.

Lemma all_sep_repeat (x : str) : all_sep x = true -> x = repeat SEP (List.length x).
Proof.
  unfold all_sep. induction x as [|c t IH]; [reflexivity|]. cbn [forallb].
  intros H. apply andb_prop in H as [Hc Ht]. apply N.eqb_eq in Hc. subst c.
  cbn [List.length repeat]. f_equal. exact (IH Ht).
Qed.

Lemma repeat_rev (c : N) (k : nat) : rev (repeat c k) = repeat c k.
Proof.
  induction k as [|k IH]; [reflexivity|]. cbn [repeat rev]. rewrite IH.
  clear. induction k as [|k IH]; [reflexivity|]. cbn [repeat app]. f_equal. exact IH.
Qed.

(** A path is the path of its directory, separators, and its last name. *)
Lemma path_dirname (p : str) :
  exists k,
    p = norm_dir (upto_last_sep p) ++ repeat SEP k ++ basename p
    /\ (upto_last_sep p <> [] -> (0 < k)%nat \/ all_sep (upto_last_sep p) = true)
    /\ (upto_last_sep p = [] -> k = 0%nat).
Proof.
  set (h := upto_last_sep p).
  destruct (all_sep h) eqn:Ha.
  - exists 0%nat. unfold norm_dir. rewrite Ha. cbn [repeat app].
    split; [apply path_split|]. split; [right; reflexivity|reflexivity].
  - unfold norm_dir. rewrite Ha. unfold rstrip_by.
    destruct (lstrip_by_prefix (N.eqb SEP) (rev h)) as (pre & E & Hp).
    apply (f_equal (@rev N)) in E. rewrite rev_involutive, rev_app_distr in E.
    assert (Hr : rev pre = repeat SEP (List.length pre)).
    { rewrite (all_sep_repeat pre Hp) at 1. rewrite repeat_rev. reflexivity. }
    exists (List.length pre). split; [|split].
    + rewrite (path_split p) at 1. fold h. rewrite E at 1. rewrite Hr, <- app_assoc.
      reflexivity.
    + intros Hne. left. destruct pre as [|c pre']; [|cbn; lia]. exfalso.
      cbn [rev app] in E. rewrite app_nil_r in E.
      (* h does not end with a separator: it is empty *)
      unfold h, upto_last_sep in E.
      apply (f_equal (@rev N)) in E. rewrite !rev_involutive in E.
      destruct (lstrip_by (fun c => negb (c =? SEP)) (rev p)) as [|c t] eqn:El.
      * apply Hne. unfold h, upto_last_sep. rewrite El. reflexivity.
      * pose proof (lstrip_by_stops _ _ _ _ El) as Hc. apply negb_false_iff in Hc.
        rewrite E in El. rewrite <- E in El.
        assert (Hs : lstrip_by (N.eqb SEP) (c :: t) = c :: t) by (rewrite <- E; reflexivity).
        cbn [lstrip_by] in Hs. rewrite N.eqb_sym, Hc in Hs.
        pose proof (lstrip_by_length (N.eqb SEP) t) as Hl. rewrite Hs in Hl.
        cbn [List.length] in Hl. lia.
    + intros Hh. rewrite Hh in Ha. discriminate Ha.
Qed.

Lemma components_seps (k : nat) (t : str) :
  components (repeat SEP k ++ t) = repeat [] k ++ components t.
Proof.
  induction k as [|k IH]; [reflexivity|]. cbn [repeat app components].
  change (SEP =? SEP) with true. cbv iota. rewrite IH. reflexivity.
Qed.

Lemma walk_empties d (l : str) (k : nat) (cs : list str) :
  dir_at d l = true -> walk d l (repeat [] k ++ cs) = walk d l cs.
Proof.
  intros Hd. induction k as [|k IH]; [reflexivity|]. cbn [repeat app walk].
  rewrite Hd. exact IH.
Qed.

Lemma dir_at_root d : dir_at d ROOT = true.
Proof. reflexivity. Qed.

Lemma dir_at_here d : dir_at d HERE = true.
Proof. reflexivity. Qed.

Lemma resolve_seps d (k : nat) : resolve d (repeat SEP (S k)) = At ROOT.
Proof.
  cbn [repeat resolve]. change (SEP =? SEP) with true. cbv iota.
  rewrite <- (app_nil_r (repeat SEP k)), components_seps.
  rewrite walk_empties by reflexivity. reflexivity.
Qed.

(** Where a path leads when its directory is there: to the entry with its
    last name in that directory. *)
Lemma resolve_in_parent (s : State) (path : str) :
  path <> [] -> isdir s (parent_dir path) = true ->
  exists l, dir_loc s (parent_dir path) = Some l
            /\ resolve (dirs s) path = At (step l (basename path)).
Proof.
  intros Hne Hpar.
  assert (Hd : exists l, dir_loc s (parent_dir path) = Some l).
  { unfold isdir in Hpar. unfold dir_loc.
    destruct (resolve (dirs s) (parent_dir path)) as [l|l r]; [|discriminate].
    rewrite Hpar. exists l. reflexivity. }
  destruct Hd as (l & Hd). exists l. split; [exact Hd|].
  apply dir_loc_resolve in Hd as [R D].
  pose proof (basename_no_sep path) as Hb.
  destruct (path_dirname path) as (k & E & Hk & Hk0).
  unfold parent_dir, dirname in R. fold (norm_dir (upto_last_sep path)) in R.
  set (b := basename path) in *. clearbody b.
  destruct (upto_last_sep path) as [|h0 h1] eqn:Eh.
  - (* no separator: the path is a name in the working directory *)
    rewrite (Hk0 eq_refl) in E. change (norm_dir []) with (@nil N) in E, R.
    cbv iota in R. change (At HERE = At l) in R. injection R as <-.
    cbn [repeat app] in E.
    rewrite E. destruct b as [|b0 b1]; [congruence|].
    unfold resolve.
    assert (Hc : (b0 =? SEP) = false).
    { cbn [forallb] in Hb. apply andb_prop in Hb as [Hc _].
      unfold not_sep in Hc. apply negb_true_iff in Hc. exact Hc. }
    rewrite Hc, (components_no_sep _ Hb). cbn [walk]. rewrite dir_at_here.
    reflexivity.
  - set (h := h0 :: h1) in *.
    assert (Hn : norm_dir h <> []) by (apply norm_dir_nonempty; discriminate).
    destruct (norm_dir h) as [|n0 n1] eqn:En; [congruence|]. clear Hn.
    set (n := n0 :: n1) in *.
    destruct (all_sep h) eqn:Ha.
    + (* the directory is the root *)
      unfold norm_dir in En. rewrite Ha in En.
      assert (En' : n = repeat SEP (List.length n))
        by (apply all_sep_repeat; rewrite <- En; exact Ha).
      rewrite E, En', app_assoc, <- repeat_app.
      rewrite En' in R. unfold n in R at 1. cbn [List.length] in R.
      rewrite resolve_seps in R. injection R as <-.
      unfold n. cbn [List.length Nat.add repeat app resolve].
      change (SEP =? SEP) with true. cbv iota.
      rewrite components_seps, walk_empties by reflexivity.
      rewrite (components_no_sep _ Hb). reflexivity.
    + destruct (Hk ltac:(discriminate)) as [Hpos|Hall]; [|congruence].
      destruct k as [|k]; [lia|]. rewrite E. cbn [repeat app].
      rewrite resolve_app_sep by discriminate. rewrite R.
      rewrite components_seps, walk_empties by exact D.
      rewrite (components_no_sep _ Hb). cbn [walk]. rewrite D. reflexivity.
Qed.

Lemma split_base_no_sep (base_out : option str) :
  forallb not_sep (split_base base_out) = true.
Proof.
  unfold split_base, splitext_root.
  set (x := option_or base_out (py "piped.json")).
  assert (Hb : forallb not_sep (basename (basename x)) = true) by apply basename_no_sep.
  assert (Hx : forallb not_sep (basename x) = true) by apply basename_no_sep.
  destruct (_ && _); [apply forallb_firstn; exact Hx|exact Hx].
Qed.

Lemma lstrip_by_forallb (f p : N -> bool) (l : str) :
  forallb f l = true -> forallb f (lstrip_by p l) = true.
Proof.
  induction l as [|c t IH]; [reflexivity|]. cbn [lstrip_by]. intros H.
  destruct (p c); [|exact H]. cbn [forallb] in H.
  apply andb_prop in H as [_ Ht]. exact (IH Ht).
Qed.

Lemma strip_by_forallb (f p : N -> bool) (l : str) :
  forallb f l = true -> forallb f (strip_by p l) = true.
Proof.
  intros H. unfold strip_by, rstrip_by. rewrite forallb_rev.
  apply lstrip_by_forallb. rewrite forallb_rev.
  apply lstrip_by_forallb. exact H.
Qed.





Lemma join_nonempty (a b : str) :
  a <> [] -> forallb not_sep b = true -> join a b <> [].
Proof.
  intros Ha Hb. unfold join.
  assert (Hst : startswith b [SEP] = false).
  { destruct b as [|c t]; [reflexivity|]. cbn [forallb] in Hb.
    apply andb_prop in Hb as [Hc _]. unfold not_sep in Hc.
    apply negb_true_iff in Hc. cbn [startswith].
    rewrite N.eqb_sym, Hc. reflexivity. }
  rewrite Hst. destruct a as [|a0 a']; [congruence|].
  destruct (endswith (a0 :: a') [SEP]); discriminate.
Qed.

Lemma split_outdir_nonempty (base_out split_dir : option str) :
  split_outdir base_out split_dir <> [].
Proof.
  unfold split_outdir.
  destruct split_dir as [[|c t]|]; cbn [option_or]; try discriminate;
    (apply join_nonempty; [discriminate|apply split_base_no_sep]).
Qed.



Lemma join_nonempty_r (a b : str) : b <> [] -> join a b <> [].
Proof.
  intros Hb. unfold join. destruct (startswith b [SEP]); [exact Hb|].
  destruct a as [|c t]; [exact Hb|].
  destruct (endswith (c :: t) [SEP]); discriminate.
Qed.


(** ** The chunked Piped export *)





















(** *** Chunks *)






(** ** Numbers and their decimal digits *)

Lemma digits_fold (u : Decimal.uint) (acc : N) :
  fold_left (fun acc c => 10 * acc + default 0 (digit_value c)) (uint_chars u) acc
  = DecimalPos.Unsigned.of_lu (Decimal.rev u)
    + acc * 10 ^ DecimalPos.Unsigned.usize u.
Proof.
  revert acc.
  induction u as [|u IH|u IH|u IH|u IH|u IH|u IH|u IH|u IH|u IH|u IH]; intros acc;
    [cbn; lia| | | | | | | | | |];
    cbn [uint_chars fold_left]; rewrite IH;
    match goal with
    | |- context [Decimal.rev (?D u)] =>
      change (Decimal.rev (D u)) with (Decimal.revapp u (D Decimal.Nil));
      rewrite (DecimalPos.Unsigned.of_lu_revapp u (D Decimal.Nil));
      let v := eval vm_compute in (DecimalPos.Unsigned.of_lu (D Decimal.Nil)) in
      change (DecimalPos.Unsigned.of_lu (D Decimal.Nil)) with v
    end;
    cbn [DecimalPos.Unsigned.usize]; rewrite N.pow_succ_r';
    match goal with
    | |- context [digit_value ?c] =>
      let v := eval vm_compute in (digit_value c) in
      change (digit_value c) with v
    end;
    cbn [default from_option id]; lia.
Qed.

Lemma int_of_digits_str_of_N (n : N) : int_of_digits (str_of_N n) = Z.of_N n.
Proof.
  unfold int_of_digits, str_of_N. rewrite digits_fold.
  rewrite <- DecimalPos.Unsigned.of_uint_alt.
  change (Pos.of_uint (N.to_uint n)) with (N.of_uint (N.to_uint n)).
  rewrite DecimalN.Unsigned.of_to. f_equal. lia.
Qed.

Lemma usize_length (u : Decimal.uint) :
  DecimalPos.Unsigned.usize u = N.of_nat (List.length (uint_chars u)).
Proof.
  induction u; cbn [DecimalPos.Unsigned.usize uint_chars List.length];
    [reflexivity|..]; rewrite IHu; lia.
Qed.




(** *** The claim on chunks *)

Lemma child_inj (l n n' : str) : child l n = child l n' -> n = n'.
Proof.
  unfold child. destruct (str_eqb l HERE); [exact (fun H => H)|].
  destruct (str_eqb l ROOT).
  - intros [= H]. exact H.
  - intros H. apply app_inv_head in H. injection H as H. exact H.
Qed.







(** ** Watch URLs *)









(** ** The builders *)

Lemma extract_video_min_spec env (vid : str) (s : State) :
  extract_video_min env vid s
  = (Ok (fetched_meta env (extractions s) vid), set_extractions (S (extractions s)) s).
Proof.
  unfold extract_video_min, try_except, bind, ydl_extract_info, fetched_meta.
  destruct (extract_info env (extractions s) _) as [msg| |i]; simpl; try reflexivity.
  destruct (info_truthy i); reflexivity.
Qed.

Lemma ids_loop env (quiet : bool) (ids : list str) (ft : FreeTubePlaylist) (s : State) :
  exists ft' s',
    for_fold ids ft (fun ft vid =>
      meta <- extract_video_min env vid ;;
      v <- (if has_key meta "id" && negb (is_None (get meta "title"))
            then from_ytdlp_entry env meta
            else placeholder env vid) ;;
      ft <- add_video env ft v ;;
      (if quiet then ret tt
       else print (vid ++ py "  |  " ++ title v ++ py "  |  " ++ author v)) ;;;
      ret ft) s
    = (Ok ft', s')
    /\ videos ft'
       = videos ft ++ ids_videos env ids (clock_reads s) (uuid_draws s) (extractions s)
    /\ createdAt ft' = createdAt ft
    /\ playlistName ft' = playlistName ft.
Proof.
  revert ft s. induction ids as [|vid ids IH]; intros ft s.
  - exists ft, s. cbn [for_fold ids_videos]. rewrite app_nil_r. repeat split.
  - cbn [for_fold ids_videos]. unfold bind at 1. unfold bind at 1.
    rewrite extract_video_min_spec.
    fold (usable (fetched_meta env (extractions s) vid)).
    set (meta := fetched_meta env (extractions s) vid).
    set (v := if usable meta
              then video_of_entry meta (time_ms env (clock_reads s)) (uuid4 env (uuid_draws s))
              else video_placeholder vid (time_ms env (clock_reads s))
                                     (uuid4 env (uuid_draws s))).
    set (ft1 := {| playlistName := playlistName ft; protected := protected ft;
                   description := description ft; videos := videos ft ++ [v];
                   _id := _id ft; createdAt := createdAt ft;
                   lastUpdatedAt := time_ms env (S (clock_reads s)) |}).
    assert (Hstep : exists s1,
      (v0 <- (if usable meta then from_ytdlp_entry env meta else placeholder env vid) ;;
       ft0 <- add_video env ft v0 ;;
       (if quiet then ret tt
        else print (vid ++ py "  |  " ++ title v0 ++ py "  |  " ++ author v0)) ;;;
       ret ft0) (set_extractions (S (extractions s)) s) = (Ok ft1, s1)
      /\ clock_reads s1 = (clock_reads s + 2)%nat
      /\ uuid_draws s1 = S (uuid_draws s)
      /\ extractions s1 = S (extractions s)).
    { subst v ft1. destruct (usable meta), quiet;
        (eexists; split; [reflexivity|]); cbn; repeat split; lia. }
    destruct Hstep as (s1 & E1 & Hc & Hu & Hx).
    unfold bind at 1 in E1. unfold bind at 1.
    destruct ((if usable meta then from_ytdlp_entry env meta else placeholder env vid)
                (set_extractions (S (extractions s)) s)) as [[v0|e0] s0] eqn:Ev.
    2:{ discriminate E1. }
    rewrite E1.
    destruct (IH ft1 s1) as (ft' & s' & E & Hv & Hcr & Hn).
    exists ft', s'. split; [exact E|].
    rewrite Hv, Hc, Hu, Hx. subst ft1. cbn [videos createdAt playlistName].
    rewrite <- app_assoc. repeat split; assumption.
Qed.

Lemma ids_videos_length env ids c u x :
  List.length (ids_videos env ids c u x) = List.length ids.
Proof.
  revert c u x. induction ids as [|vid ids IH]; intros c u x; [reflexivity|].
  cbn [ids_videos List.length]. rewrite IH. reflexivity.
Qed.

Lemma ids_videos_nth env ids c u x (k : nat) (vid : str) :
  nth_error ids k = Some vid ->
  nth_error (ids_videos env ids c u x) k
  = Some (let meta := fetched_meta env (x + k) vid in
          if usable meta
          then video_of_entry meta (time_ms env (c + 2 * k)) (uuid4 env (u + k))
          else video_placeholder vid (time_ms env (c + 2 * k)) (uuid4 env (u + k))).
Proof.
  revert k c u x. induction ids as [|v0 ids IH]; intros k c u x H.
  - destruct k; discriminate H.
  - destruct k as [|k].
    + injection H as ->. cbn [ids_videos nth_error].
      replace (x + 0)%nat with x by lia.
      replace (c + 2 * 0)%nat with c by lia.
      replace (u + 0)%nat with u by lia. reflexivity.
    + cbn [ids_videos nth_error]. cbn [nth_error] in H.
      rewrite (IH k _ _ _ H).
      replace (c + 2 + 2 * k)%nat with (c + 2 * S k)%nat by lia.
      replace (S u + k)%nat with (u + S k)%nat by lia.
      replace (S x + k)%nat with (x + S k)%nat by lia.
      reflexivity.
Qed.

Lemma fetched_meta_unusable env n (vid : str) :
  (forall i, extract_info env n (py "https://www.youtube.com/watch?v=" ++ vid)
             = ExtractInfo i -> get (info_fields i) "title" = VNone) ->
  usable (fetched_meta env n vid) = false.
Proof.
  intros H. unfold fetched_meta.
  destruct (extract_info env n _) as [msg| |i]; try reflexivity.
  destruct (info_truthy i); [|reflexivity].
  unfold usable. rewrite (H i eq_refl). apply andb_false_r.
Qed.

(** C5: an ID-list build never fails, whatever yt-dlp does: it returns a
    playlist with one record per ID, in input order; the record of an ID
    whose fetch raised, returned nothing, or returned data without a title
    carries the input ID as [videoId], the defaults [N/A], 0 and [video] in
    the other fields, and a fresh time and item identifier. *)
Theorem build_freetube_from_ids_total env (ids : list str) (name descr : str)
    (quiet : bool) (s : State) :
  exists ft s',
    build_freetube_from_ids env ids name descr quiet s = (Ok ft, s')
    /\ videos ft
       = ids_videos env ids (S (clock_reads s)) (S (uuid_draws s)) (extractions s)
    /\ List.length (videos ft) = List.length ids
    /\ forall k vid,
         nth_error ids k = Some vid ->
         (forall i,
             extract_info env (extractions s + k)
                          (py "https://www.youtube.com/watch?v=" ++ vid)
             = ExtractInfo i ->
             get (info_fields i) "title" = VNone) ->
         nth_error (videos ft) k
         = Some {| videoId := vid; title := py "N/A"; author := py "N/A";
                   authorId := py "N/A"; lengthSeconds := 0; published := 0;
                   timeAdded := time_ms env (S (clock_reads s) + 2 * k);
                   playlistItemId := uuid4 env (S (uuid_draws s) + k);
                   type_ := py "video" |}.
Proof.
  unfold build_freetube_from_ids. unfold bind at 1.
  destruct (new_total env
              (str_or name (py "Imported IDs (" ++ str_of_Z (Z.of_nat (List.length ids))
                            ++ py " videos)")) descr s)
    as (ft0 & s0 & E0 & _ & _ & Hv0 & Hc0 & Hu0 & Hx0).
  rewrite E0.
  destruct (ids_loop env quiet ids ft0 s0) as (ft & s' & E & Hv & _).
  exists ft, s'. split; [exact E|].
  rewrite Hv0, Hc0, Hu0, Hx0 in Hv. cbn [app] in Hv.
  split; [exact Hv|]. split.
  - rewrite Hv. apply ids_videos_length.
  - intros k vid Hk Hfail. rewrite Hv.
    rewrite (ids_videos_nth env ids _ _ _ k vid Hk). cbv zeta.
    rewrite (fetched_meta_unusable env _ vid Hfail). reflexivity.
Qed.

Lemma build_freetube_from_ids_total_witness :
  exists ft s',
    build_freetube_from_ids sample_env [py "dQw4w9WgXcQ"] (py "mine") [] true empty_state
    = (Ok ft, s')
    /\ nth_error (videos ft) 0
       = Some {| videoId := py "dQw4w9WgXcQ"; title := py "N/A"; author := py "N/A";
                 authorId := py "N/A"; lengthSeconds := 0; published := 0;
                 timeAdded := 1700000000001;
                 playlistItemId := py "uuid-1"; type_ := py "video" |}.
Proof.
  destruct (build_freetube_from_ids_total sample_env [py "dQw4w9WgXcQ"] (py "mine") []
              true empty_state) as (ft & s' & E & _ & _ & H).
  exists ft, s'. split; [exact E|].
  apply (H 0%nat (py "dQw4w9WgXcQ")); [reflexivity|].
  intros i Hi. discriminate Hi.
Defined.






(** ** JSON text *)

Ltac nb :=
  repeat match goal with
         | |- context [N.leb ?a ?b] => destruct (N.leb_spec a b)
         | |- context [N.ltb ?a ?b] => destruct (N.ltb_spec a b)
         | |- context [N.eqb ?a ?b] => destruct (N.eqb_spec a b)
         end; cbn [andb orb negb]; try lia; try reflexivity; try discriminate.


Lemma hex_digit_printable (d : N) : d < 16 -> printable (hex_digit d) = true.
Proof.
  intros H. unfold printable, hex_digit, in_range.
  destruct (N.ltb_spec d 10); nb.
Qed.







Lemma short_escape_cases (c e : N) :
  short_escape c = Some e ->
  unescape e = Some c /\ e <> 117 /\ printable e = true /\ c < 0x10000
  /\ is_high c = false /\ is_low c = false.
Proof.
  unfold short_escape.
  repeat match goal with
         | |- context [N.eqb c ?b] => destruct (N.eqb_spec c b)
         end; intros [= <-]; subst; try discriminate; repeat split; discriminate.
Qed.

Lemma escape_char_cases (c : N) : Escaped c (escape_char true c).
Proof.
  unfold escape_char. destruct (short_escape c) as [e|] eqn:E.
  - apply esc_short. exact E.
  - cbn [andb]. destruct (N.ltb_spec c 0x20).
    + apply esc_unit; [exact E|lia|lia].
    + destruct (N.ltb_spec 0x7E c).
      * destruct (N.ltb_spec c 0x10000).
        -- apply esc_unit; [exact E|lia|lia].
        -- apply esc_pair. lia.
      * apply esc_plain; [exact E|lia].
Qed.


Lemma escape_char_printable (c : N) : forallb printable (escape_char true c) = true.
Proof.
  destruct (escape_char_cases c) as [e E| E H | E H H' | H].
  - apply short_escape_cases in E as (_ & _ & P & _). cbn. rewrite P. reflexivity.
  - cbn. unfold printable, in_range. nb.
  - unfold u_escape, hex4. cbn [forallb].
    rewrite !hex_digit_printable by (apply N.mod_lt; lia). reflexivity.
  - unfold u_escape, hex4. cbn [forallb app].
    rewrite !hex_digit_printable by (apply N.mod_lt; lia). reflexivity.
Qed.









(** *** Numbers *)

Lemma uint_chars_digits (u : Decimal.uint) : forallb ascii_digit (uint_chars u) = true.
Proof. induction u; cbn [uint_chars forallb]; try rewrite IHu; reflexivity. Qed.

Lemma delimited_head (rest : str) : delimited rest -> stops rest.
Proof.
  destruct rest as [|c r]; [trivial|].
  intros [-> | [-> | ->]]; split; reflexivity.
Qed.

Lemma read_digits_stops (u : Decimal.uint) (rest : str) :
  stops rest -> read_digits (uint_chars u ++ rest) = (u, rest).
Proof.
  intros Hd. induction u; cbn [uint_chars app read_digits];
    try (change (ascii_digit _) with true; cbv iota; rewrite IHu; reflexivity).
  destruct rest as [|c r]; [reflexivity|].
  destruct Hd as [Hd _]. cbn [read_digits]. rewrite Hd. reflexivity.
Qed.

Lemma read_digits_uint_chars (u : Decimal.uint) (rest : str) :
  delimited rest -> read_digits (uint_chars u ++ rest) = (u, rest).
Proof. intros Hd. apply read_digits_stops, delimited_head, Hd. Qed.

Lemma nzhead_not_D0 (u u' : Decimal.uint) : Decimal.nzhead u <> Decimal.D0 u'.
Proof. induction u; cbn; try discriminate. exact IHu. Qed.

Lemma to_uint_pos_head (p : positive) (u : Decimal.uint) :
  N.to_uint (Npos p) <> Decimal.D0 u.
Proof.
  intros E.
  pose proof (DecimalN.Unsigned.to_of (N.to_uint (Npos p))) as H.
  rewrite DecimalN.Unsigned.of_to in H. rewrite E in H.
  rewrite DecimalFacts.unorm_D0 in H. unfold Decimal.unorm in H.
  destruct (Decimal.nzhead u) eqn:En; try discriminate H.
  - injection H as Hu. subst u.
    assert (Z0 : N.of_uint (N.to_uint (Npos p)) = 0) by (rewrite E; reflexivity).
    rewrite DecimalN.Unsigned.of_to in Z0. discriminate Z0.
  - eapply nzhead_not_D0. exact En.
Qed.

Lemma after_stops (x : N * str) :
  stops (snd x) ->
  match snd x with
  | d :: _ => if (d =? 46) || (d =? 101) || (d =? 69) then None else Some x
  | [] => Some x
  end = Some x.
Proof.
  intros H. destruct (snd x) as [|d r]; [reflexivity|].
  destruct H as [_ ->]. reflexivity.
Qed.

Lemma read_nat_stops (n : N) (rest : str) :
  stops rest -> read_nat (str_of_N n ++ rest) = Some (n, rest).
Proof.
  intros Hd. unfold str_of_N. destruct n as [|p].
  - cbn [N.to_uint uint_chars app read_nat]. change (48 =? 48) with true. cbv iota.
    apply (after_stops (0, rest)). exact Hd.
  - pose proof (to_uint_pos_head p) as Hz.
    pose proof (DecimalN.Unsigned.of_to (Npos p)) as Hof.
    pose proof (DecimalPos.Unsigned.to_uint_nonnil p) as Hnil.
    change (N.to_uint (Npos p)) with (Pos.to_uint p) in *.
    destruct (Pos.to_uint p) as [|u|u|u|u|u|u|u|u|u|u] eqn:Eu;
      try (exfalso; apply Hnil; reflexivity);
      try (exfalso; apply (Hz u); reflexivity);
      cbn [uint_chars app];
      match goal with
      | |- read_nat (?c :: ?l ++ rest) = _ =>
        change (read_nat (c :: l ++ rest))
          with (let (u0, r') := read_digits (c :: l ++ rest) in
                match snd (N.of_uint u0, r') with
                | d :: _ => if (d =? 46) || (d =? 101) || (d =? 69) then None
                            else Some (N.of_uint u0, r')
                | [] => Some (N.of_uint u0, r')
                end);
        change (c :: l ++ rest) with (uint_chars (Pos.to_uint p) ++ rest) ||
        idtac
      end.
    all: match goal with
         | |- context [read_digits ?t] =>
           replace t with (uint_chars (Pos.to_uint p) ++ rest)
             by (rewrite Eu; reflexivity)
         end.
    all: rewrite read_digits_stops by exact Hd.
    all: rewrite Eu, Hof.
    all: apply (after_stops (Npos p, rest)); exact Hd.
Qed.

Lemma read_nat_str_of_N (n : N) (rest : str) :
  delimited rest -> read_nat (str_of_N n ++ rest) = Some (n, rest).
Proof. intros Hd. apply read_nat_stops, delimited_head, Hd. Qed.






Lemma str_of_Z_printable (z : Z) : forallb printable (str_of_Z z) = true.
Proof.
  assert (H : forall u, forallb printable (uint_chars u) = true)
    by (induction u; cbn [uint_chars forallb]; try rewrite IHu; reflexivity).
  destruct z; cbn [str_of_Z]; unfold str_of_N; cbn [forallb]; rewrite ?H; reflexivity.
Qed.

(** *** Documents *)

Lemma encode_db_list (lvl : nat) (l : list JSON) :
  encode db_style lvl (JList l)
  = match l with
    | [] => py "[]"
    | _ => 91 :: join_with [44] (List.map (encode db_style (S lvl)) l) ++ [93]
    end.
Proof. destruct l; reflexivity. Qed.

Lemma encode_db_dict (lvl : nat) (kv : list (str * JSON)) :
  encode db_style lvl (JDict kv)
  = match kv with
    | [] => py "{}"
    | _ => 123 :: join_with [44]
                    (List.map (fun p => match p with
                                        | (k, x) => encode_basestring true k ++ [58]
                                                    ++ encode db_style (S lvl) x
                                        end) kv) ++ [125]
    end.
Proof. destruct kv; reflexivity. Qed.



Lemma skip_ws_delimited (rest : str) : delimited rest -> skip_ws rest = rest.
Proof.
  destruct rest as [|c r]; [reflexivity|].
  intros [-> | [-> | ->]]; reflexivity.
Qed.






Lemma join_with_two (sep a b : str) (l : list str) :
  join_with sep (a :: b :: l) = a ++ sep ++ join_with sep (b :: l).
Proof. reflexivity. Qed.

Lemma join_with_one (sep a : str) : join_with sep [a] = a.
Proof. reflexivity. Qed.










(** The text is printable ASCII: no line break, nothing the codec of the
    file could refuse. *)
Lemma join_with_forallb (P : N -> bool) (sep : str) (parts : list str) :
  forallb P sep = true -> Forall (fun p => forallb P p = true) parts ->
  forallb P (join_with sep parts) = true.
Proof.
  intros Hs. induction 1 as [|a l Ha Hl IH]; [reflexivity|].
  destruct l as [|b l']; [rewrite join_with_one; exact Ha|].
  rewrite join_with_two, !forallb_app, Ha, Hs, IH. reflexivity.
Qed.

Lemma encode_basestring_printable (s : str) :
  forallb printable (encode_basestring true s) = true.
Proof.
  unfold encode_basestring. cbn [forallb]. rewrite forallb_app.
  change (printable 34) with true. cbn [andb forallb].
  rewrite andb_true_r. induction s as [|c t IH]; [reflexivity|].
  cbn [flat_map]. rewrite forallb_app, escape_char_printable, IH. reflexivity.
Qed.

Lemma encode_printable (v : JSON) :
  float_free v = true ->
  forall lvl, forallb printable (encode db_style lvl v) = true.
Proof.
  induction v as [|b|z|r|s|l IH|kv IH] using JSON_nested_ind; intros F lvl.
  - reflexivity.
  - destruct b; reflexivity.
  - apply str_of_Z_printable.
  - discriminate F.
  - apply encode_basestring_printable.
  - rewrite encode_db_list. cbn [float_free] in F.
    destruct l as [|x l']; [reflexivity|].
    cbn [forallb]. rewrite forallb_app.
    rewrite join_with_forallb; [reflexivity|reflexivity|].
    rewrite Forall_forall. intros t Ht.
    apply list_elem_of_In, in_map_iff in Ht as (y & <- & Hy).
    rewrite forallb_forall in F. rewrite Forall_forall in IH.
    apply IH; [apply list_elem_of_In; exact Hy|apply F; exact Hy].
  - rewrite encode_db_dict. cbn [float_free] in F.
    destruct kv as [|p kv']; [reflexivity|].
    cbn [forallb]. rewrite forallb_app.
    rewrite join_with_forallb; [reflexivity|reflexivity|].
    rewrite Forall_forall. intros t Ht.
    apply list_elem_of_In, in_map_iff in Ht as ([k y] & <- & Hy).
    rewrite forallb_forall in F. rewrite Forall_forall in IH.
    rewrite !forallb_app, encode_basestring_printable.
    specialize (IH (k, y) ltac:(apply list_elem_of_In; exact Hy) (F (k, y) Hy) (S lvl)).
    cbn [snd] in IH. rewrite IH. reflexivity.
Qed.

Lemma to_json_obj_float_free (pl : FreeTubePlaylist) : float_free (to_json_obj pl) = true.
Proof.
  unfold to_json_obj. cbn [float_free forallb andb].
  rewrite !andb_true_r.
  induction (videos pl) as [|v vs IH]; [reflexivity|].
  cbn [List.map forallb]. rewrite IH. reflexivity.
Qed.

(** *** Well-formed text reads back unchanged *)







(** ** The database export *)

Lemma state_eq (a b : State) :
  clock_reads a = clock_reads b -> uuid_draws a = uuid_draws b ->
  extractions a = extractions b -> files a = files b -> dirs a = dirs b ->
  disk a = disk b -> trace a = trace b -> a = b.
Proof. destruct a, b. cbn. intros. subst. reflexivity. Qed.





(** One append to the database file: the block of [export_freetube_db]. *)
Lemma db_append (path loc old : str) (pieces : list str) (body : File -> M File)
    (s : State) :
  writable s path = Some loc -> text_at s loc = old ->
  writes_chunks body pieces ->
  with_open path ModeA (fun f =>
    f <- body f ;;
    f <- write f [10] ;;
    f <- flush f ;;
    fsync f ;;;
    ret f) s
  = (Ok tt,
     {| clock_reads := clock_reads s; uuid_draws := uuid_draws s;
        extractions := extractions s;
        files := <[loc := old ++ concat pieces ++ [10]]> (files s);
        dirs := dirs s;
        disk := <[loc := old ++ concat pieces ++ [10]]> (disk s);
        trace := trace s ++ db_events path pieces |}).
Proof.
  intros Hw Hold Hb. apply writable_resolve in Hw as [H1 H2].
  unfold with_open, open_, bind. rewrite H1, H2, Hold.
  rewrite Hb. rewrite log_all_state.
  destruct s as [cr ud ex fl dr dk tr].
  cbn [files dirs disk trace clock_reads uuid_draws extractions] in *.
  unfold write, flush, fsync, close, ret, flush_buffer, text_at.
  unfold modify. cbn.
  repeat (rewrite ?lookup_insert_eq; cbn [default from_option id app]).
  rewrite !insert_insert_eq, ?app_nil_r. unfold db_events.
  f_equal. apply state_eq; cbn; rewrite <- ?app_assoc; reflexivity.
Qed.

Lemma ensure_file_exists_present (path : str) (s : State) :
  isdir s (parent_dir path) = true -> exists_ s path = true ->
  ensure_file_exists path s = (Ok tt, s).
Proof.
  intros Hpar Hex. unfold ensure_file_exists, bind, gets.
  rewrite Hpar. cbn [negb]. rewrite Hex. reflexivity.
Qed.


Lemma splitlines_line (l : str) :
  forallb printable l = true ->
  forall cur rest, splitlines cur (l ++ 10 :: rest) = (rev cur ++ l) :: splitlines [] rest.
Proof.
  intros Hl. induction l as [|c t IH]; intros cur rest.
  - cbn [app splitlines]. rewrite app_nil_r. reflexivity.
  - cbn [forallb] in Hl. apply andb_prop in Hl as [Hc Ht].
    assert (48 > 0 /\ 0x20 <= c) as [_ Hr].
    { unfold printable, in_range in Hc. apply andb_prop in Hc as [H1 _].
      apply N.leb_le in H1. lia. }
    cbn [app splitlines].
    assert (E1 : (c =? 13) = false) by (apply N.eqb_neq; lia).
    assert (E2 : (c =? 10) = false) by (apply N.eqb_neq; lia).
    rewrite E1, E2, (IH Ht). cbn [rev]. rewrite <- app_assoc. reflexivity.
Qed.




Lemma db_line_printable (pl : FreeTubePlaylist) :
  forallb printable (dumps db_style (to_json_obj pl)) = true.
Proof. apply encode_printable, to_json_obj_float_free. Qed.




(** ** More on the text helpers *)

Lemma sub_runs_name_chars (in_run : bool) (s : str) :
  forallb name_char (sub_runs in_run s) = true.
Proof.
  revert in_run. induction s as [|c t IH]; intros in_run; [reflexivity|].
  cbn [sub_runs]. destruct (name_char c) eqn:E.
  - cbn [forallb]. rewrite E, IH. reflexivity.
  - destruct in_run; [apply IH|]. cbn [forallb]. rewrite IH. reflexivity.
Qed.

Lemma sub_runs_fixed (in_run : bool) (s : str) :
  forallb name_char s = true -> sub_runs in_run s = s.
Proof.
  revert in_run. induction s as [|c t IH]; intros in_run H; [reflexivity|].
  cbn [forallb] in H. apply andb_prop in H as [Hc Ht].
  cbn [sub_runs]. rewrite Hc, (IH false Ht). reflexivity.
Qed.

Lemma trimmed_no_head (p : N -> bool) (s : str) c t :
  trimmed p s -> s = c :: t -> p c = false.
Proof.
  intros [H _] E. apply (lstrip_by_head p s c t). rewrite H. exact E.
Qed.

(** X1: a file name made by [sanitize_name] holds only letters, digits, dots,
    underscores and hyphens, and neither starts nor ends with an
    underscore. *)
Theorem sanitize_name_safe (name : str) :
  forallb name_char (sanitize_name name) = true
  /\ startswith (sanitize_name name) (py "_") = false
  /\ endswith (sanitize_name name) (py "_") = false.
Proof.
  split; [apply strip_by_forallb, sub_runs_name_chars|].
  pose proof (strip_by_trimmed (N.eqb 95) (sub_runs false name)) as T.
  fold (sanitize_name name) in T. split.
  - destruct (sanitize_name name) as [|c t] eqn:E; [reflexivity|].
    pose proof (trimmed_no_head _ _ c t T eq_refl) as Hc.
    change (startswith (c :: t) (py "_")) with ((95 =? c) && true).
    rewrite Hc. reflexivity.
  - unfold endswith. destruct T as [_ T].
    destruct (rev (sanitize_name name)) as [|c t] eqn:E; [reflexivity|].
    pose proof (lstrip_by_head (N.eqb 95) (c :: t) c t T) as Hc.
    change (startswith (c :: t) (rev (py "_"))) with ((95 =? c) && true).
    rewrite Hc. reflexivity.
Qed.

(** X2: sanitizing a sanitized name changes nothing. *)
Theorem sanitize_name_idempotent (name : str) :
  sanitize_name (sanitize_name name) = sanitize_name name.
Proof.
  unfold sanitize_name at 1.
  rewrite sub_runs_fixed by (apply strip_by_forallb, sub_runs_name_chars).
  unfold sanitize_name. apply strip_by_idem.
Qed.



(** *** Numbers out of digits *)

Lemma ascii_digit_is_digit (c : N) : ascii_digit c = true -> is_digit c = true.
Proof.
  unfold is_digit, digit_value, ascii_digit. intros H.
  cbn [Nd_zeros List.find]. change (0x30 + 9) with 57. rewrite H. reflexivity.
Qed.

Lemma to_int_str_digits (s : str) :
  forallb ascii_digit s = true ->
  sub_empty (fun c => negb (is_digit c)) s = s.
Proof.
  intros H. unfold sub_empty. apply filter_id. intros c Hc.
  rewrite forallb_forall in H. rewrite (ascii_digit_is_digit c (H c Hc)). reflexivity.
Qed.

Lemma coerce_int_digits (v : PyVal) :
  coerce_int v = int_of_digits (to_int_str (py_or v (VInt 0))).
Proof.
  unfold coerce_int. destruct (to_int_str _); reflexivity.
Qed.

(** X4: the sign of an integer is dropped, not read: a negative duration or
    timestamp is stored as its absolute value (for an integer of at most
    4300 digits, the most that [str] and [int] convert). *)
Theorem coerce_int_abs (z : Z) :
  (Z.abs z < 10 ^ 4300)%Z -> coerce_int (VInt z) = Z.abs z.
Proof.
  intros _. rewrite coerce_int_digits.
  assert (E : py_or (VInt z) (VInt 0) = VInt z).
  { unfold py_or. cbn [truthy]. destruct (Z.eqb_spec z 0) as [->|]; reflexivity. }
  rewrite E. unfold to_int_str. cbn [py_str].
  destruct z as [|p|p]; cbn [str_of_Z].
  - reflexivity.
  - rewrite to_int_str_digits by apply uint_chars_digits.
    rewrite int_of_digits_str_of_N. reflexivity.
  - unfold sub_empty. cbn [List.filter].
    change (negb (negb (is_digit 45))) with false. cbv iota.
    fold (sub_empty (fun c => negb (is_digit c)) (str_of_N (N.pos p))).
    rewrite to_int_str_digits by apply uint_chars_digits.
    rewrite int_of_digits_str_of_N. reflexivity.
Qed.

Lemma coerce_int_abs_witness : coerce_int (VInt (-212)) = 212%Z.
Proof.
  apply (coerce_int_abs (-212)).
  change (Z.abs (-212)) with (10 ^ 0 * 212)%Z.
  apply Z.lt_le_trans with (10 ^ 0 * 10 ^ 3)%Z; [reflexivity|].
  rewrite <- Z.pow_add_r by lia. apply Z.pow_le_mono_r; lia.
Defined.

Lemma zeros_fold (k : nat) (acc : N) :
  fold_left (fun acc c => 10 * acc + default 0 (digit_value c)) (repeat 48 k) acc
  = acc * 10 ^ N.of_nat k.
Proof.
  revert acc. induction k as [|k IH]; intros acc; [cbn; lia|].
  cbn [repeat fold_left]. rewrite IH, Nat2N.inj_succ, N.pow_succ_r'.
  change (digit_value 48) with (Some 0). cbn [default from_option id]. lia.
Qed.

Lemma zeros_digits (k : nat) : forallb ascii_digit (repeat 48 k) = true.
Proof. induction k as [|k IH]; [reflexivity|]. cbn [repeat forallb]. exact IH. Qed.

(** X5: the decimal point of a float is dropped and the digits on both sides
    are read as one number: a duration that yt-dlp reports as [212.0]
    becomes 2120, and [1.05] becomes 105.  The digits after the point are
    [k] zeros and then the digits of [m]; the text has at most 4300
    digits. *)
Theorem coerce_int_float (n m : N) (k : nat) :
  (List.length (str_of_N n) + k + List.length (str_of_N m) <= 4300)%nat ->
  coerce_int (VFloat (str_of_N n ++ py "." ++ repeat 48 k ++ str_of_N m) true)
  = Z.of_N (n * 10 ^ N.of_nat (k + List.length (str_of_N m)) + m).
Proof.
  intros _.
  rewrite coerce_int_digits. unfold py_or. cbn [truthy to_int_str py_str].
  unfold sub_empty. rewrite !List.filter_app.
  fold (sub_empty (fun c => negb (is_digit c)) (str_of_N n)).
  fold (sub_empty (fun c => negb (is_digit c)) (str_of_N m)).
  fold (sub_empty (fun c => negb (is_digit c)) (repeat 48 k)).
  rewrite !to_int_str_digits by first [apply uint_chars_digits|apply zeros_digits].
  change (List.filter _ (py ".")) with (@nil N). cbn [app].
  unfold int_of_digits. rewrite !fold_left_app, zeros_fold. f_equal.
  unfold str_of_N. rewrite !digits_fold.
  rewrite <- !DecimalPos.Unsigned.of_uint_alt.
  change (Pos.of_uint (N.to_uint n)) with (N.of_uint (N.to_uint n)).
  change (Pos.of_uint (N.to_uint m)) with (N.of_uint (N.to_uint m)).
  rewrite !DecimalN.Unsigned.of_to, !usize_length.
  rewrite Nat2N.inj_add, N.pow_add_r. lia.
Qed.

Lemma coerce_int_float_witness :
  coerce_int (VFloat (py "1.05") true) = 105%Z
  /\ coerce_int (VFloat (py "212.0") true) = 2120%Z.
Proof.
  split.
  - apply (coerce_int_float 1 5 1). cbn. lia.
  - apply (coerce_int_float 212 0 0). cbn. lia.
Defined.

(** ** Reading ID files *)

Lemma id_char_range (c : N) :
  id_char c = true ->
  65 <= c <= 90 \/ 97 <= c <= 122 \/ 48 <= c <= 57 \/ c = 95 \/ c = 45.
Proof. unfold id_char, in_range. nb. Qed.

Lemma id_last_char_id_char (c : N) : id_last_char c = true -> id_char c = true.
Proof.
  unfold id_last_char. cbn [existsb]. change (py "AEIMQUYcgkosw048")
    with [65; 69; 73; 77; 81; 85; 89; 99; 103; 107; 111; 115; 119; 48; 52; 56].
  cbn [existsb]. intros H.
  repeat (apply orb_prop in H as [H|H];
          [apply N.eqb_eq in H; subst c; reflexivity|]).
  discriminate H.
Qed.

Lemma id_char_printable (c : N) : id_char c = true -> printable c = true.
Proof.
  intros H. apply id_char_range in H. unfold printable, in_range. nb.
Qed.

Lemma id_char_not_space (c : N) : id_char c = true -> isspace c = false.
Proof.
  intros H. apply id_char_range in H.
  assert (B : 45 <= c <= 122) by lia. clear H.
  unfold isspace, in_range.
  repeat (apply orb_false_intro);
    try (apply andb_false_iff;
         first [left; apply N.leb_gt; lia | right; apply N.leb_gt; lia]);
    apply N.eqb_neq; lia.
Qed.

Lemma match_id_valid (s m : str) : match_id s = Some m -> valid_id m = true.
Proof.
  unfold match_id, valid_id. set (w := firstn 11 s).
  destruct ((List.length w =? 11)%nat) eqn:L; [|discriminate].
  destruct (forallb id_char (firstn 10 w)) eqn:F; [|discriminate].
  destruct (id_last_char (nth 10 w 0)) eqn:E; [|discriminate].
  cbn [andb]. intros [= <-]. rewrite L, E. cbn [andb]. rewrite andb_true_r.
  apply Nat.eqb_eq in L.
  do 11 (destruct w as [|? w]; [discriminate L|]).
  destruct w; [|discriminate L].
  cbn [firstn forallb nth] in *.
  rewrite (id_last_char_id_char _ E), !andb_true_r.
  rewrite !andb_true_r in F. exact F.
Qed.

Lemma search_id_valid (line m : str) : search_id line = Some m -> valid_id m = true.
Proof.
  induction line as [|c t IH]; cbn [search_id].
  - destruct (match_id []) eqn:E; [|discriminate].
    intros [= <-]. exact (match_id_valid _ _ E).
  - destruct (match_id (c :: t)) eqn:E.
    + intros [= <-]. exact (match_id_valid _ _ E).
    + exact IH.
Qed.

Lemma read_ids_file_spec (path loc text : str) (s : State) :
  writable s path = Some loc -> files s !! loc = Some text ->
  read_ids_file path s
  = (Ok (ids_of_text text),
     log (EvClose path) (log (EvOpen path ModeR) s)).
Proof.
  intros Hw Hf. apply writable_resolve in Hw as [H1 H2].
  unfold read_ids_file, bind, open_, file_at, gets, close, modify, ret.
  rewrite H1, H2, Hf. cbn [f_path f_loc f_buffer].
  unfold flush_buffer, text_at, log, set_files. cbn [files f_path f_loc f_buffer].
  rewrite Hf. cbn [default from_option id]. rewrite app_nil_r.
  rewrite (insert_id (files s) loc text Hf).
  reflexivity.
Qed.

Lemma ids_of_line_valid (raw : str) :
  Forall (fun i => valid_id i = true) (ids_of_line raw)
  /\ (List.length (ids_of_line raw) <= 1)%nat.
Proof.
  unfold ids_of_line. cbv zeta. destruct (_ || _).
  - split; [constructor|cbn; lia].
  - destruct (search_id (strip raw)) as [m|] eqn:E.
    + split; [|cbn; lia]. constructor; [|constructor].
      exact (search_id_valid _ _ E).
    + split; [constructor|cbn; lia].
Qed.

Lemma ids_of_text_valid (text : str) :
  Forall (fun i => valid_id i = true) (ids_of_text text)
  /\ (List.length (ids_of_text text) <= List.length (splitlines [] text))%nat.
Proof.
  unfold ids_of_text. induction (splitlines [] text) as [|l ls [IH1 IH2]].
  - split; [constructor|cbn; lia].
  - cbn [flat_map]. destruct (ids_of_line_valid l) as [H1 H2]. split.
    + apply Forall_app. split; assumption.
    + rewrite length_app. cbn [List.length]. lia.
Qed.

(** X6: whatever the file holds, every ID read from it is a well-formed video
    ID (eleven characters of the ID alphabet with a possible last
    character), a line gives at most one ID, and the file is left as it
    was. *)
Theorem read_ids_file_valid_ids (path : str) (s s' : State) (ids : list str) :
  read_ids_file path s = (Ok ids, s') ->
  Forall (fun i => valid_id i = true) ids
  /\ (List.length ids <= List.length (splitlines [] (content s path)))%nat
  /\ files s' = files s /\ dirs s' = dirs s.
Proof.
  intros H.
  destruct (writable s path) as [loc|] eqn:Hw.
  2:{ unfold read_ids_file, bind, open_ in H. unfold writable in Hw.
      destruct (resolve (dirs s) path) as [l|l r]; [|discriminate H].
      destruct (dir_at (dirs s) l); discriminate. }
  destruct (files s !! loc) as [text|] eqn:Hf.
  2:{ apply writable_resolve in Hw as [H1 H2].
      unfold read_ids_file, bind, open_, file_at in H. rewrite H1, H2, Hf in H.
      discriminate H. }
  rewrite (read_ids_file_spec path loc text s Hw Hf) in H.
  injection H as <- <-. apply writable_resolve in Hw as [H1 _].
  unfold content, text_at. rewrite H1, Hf. cbn [default from_option id].
  destruct (ids_of_text_valid text) as [Hv Hl].
  repeat split; assumption.
Qed.

(** *** Reading back the lists the program writes *)

Lemma valid_id_shape (i : str) :
  valid_id i = true ->
  exists c0 c1 c2 c3 c4 c5 c6 c7 c8 c9 c10,
    i = [c0; c1; c2; c3; c4; c5; c6; c7; c8; c9; c10]
    /\ forallb id_char i = true /\ id_last_char c10 = true.
Proof.
  unfold valid_id. intros H.
  apply andb_prop in H as [H Hl]. apply andb_prop in H as [L F].
  apply Nat.eqb_eq in L.
  do 11 (destruct i as [|? i]; [discriminate L|]).
  destruct i; [|discriminate L].
  do 11 eexists. split; [reflexivity|]. split; [exact F|exact Hl].
Qed.

Lemma match_id_self (i : str) : valid_id i = true -> match_id i = Some i.
Proof.
  intros H. destruct (valid_id_shape i H) as
    (c0 & c1 & c2 & c3 & c4 & c5 & c6 & c7 & c8 & c9 & c10 & -> & F & L).
  unfold match_id. cbn [firstn List.length Nat.eqb nth andb].
  rewrite L. cbn [forallb] in F |- *.
  repeat match goal with
         | H : _ && _ = true |- _ => apply andb_prop in H as [? ?]
         end.
  repeat match goal with
         | H : id_char _ = true |- _ => rewrite H; clear H
         end.
  reflexivity.
Qed.

Lemma search_id_here (s m : str) : match_id s = Some m -> search_id s = Some m.
Proof. intros H. destruct s; cbn [search_id]; rewrite H; reflexivity. Qed.

Lemma search_id_skip (c : N) (t : str) :
  match_id (c :: t) = None -> search_id (c :: t) = search_id t.
Proof. intros H. cbn [search_id]. rewrite H. reflexivity. Qed.

Lemma forallb_last {A} (f : A -> bool) (l : list A) (x : A) :
  forallb f (l ++ [x]) = true -> f x = true.
Proof.
  rewrite forallb_app. cbn [forallb]. intros H.
  apply andb_prop in H as [_ H]. rewrite andb_true_r in H. exact H.
Qed.

Lemma strip_ends (c d : N) (mid : str) :
  isspace c = false -> isspace d = false ->
  strip (c :: mid ++ [d]) = c :: mid ++ [d].
Proof.
  intros Hc Hd. apply strip_by_fixed. split.
  - cbn [lstrip_by]. rewrite Hc. reflexivity.
  - rewrite app_comm_cons, rev_app_distr.
    change (rev [d]) with [d]. cbn [app lstrip_by]. rewrite Hd. reflexivity.
Qed.

Lemma ids_of_line_id (i : str) : valid_id i = true -> ids_of_line i = [i].
Proof.
  intros H. unfold ids_of_line. cbv zeta.
  destruct (valid_id_shape i H) as
    (c0 & c1 & c2 & c3 & c4 & c5 & c6 & c7 & c8 & c9 & c10 & E & F & L).
  assert (F0 : id_char c0 = true).
  { rewrite E in F. cbn [forallb] in F. apply andb_prop in F as [F _]. exact F. }
  assert (F10 : id_char c10 = true) by (apply id_last_char_id_char; exact L).
  assert (S : strip i = i).
  { rewrite E.
    apply (strip_ends c0 c10 [c1; c2; c3; c4; c5; c6; c7; c8; c9]);
      apply id_char_not_space; assumption. }
  rewrite S, (search_id_here i i (match_id_self i H)).
  rewrite E. change (startswith (c0 :: ?t) (py "#")) with ((35 =? c0) && true).
  apply id_char_range in F0.
  destruct (N.eqb_spec 35 c0); [lia|reflexivity].
Qed.

Lemma ids_of_line_url (i : str) :
  valid_id i = true -> ids_of_line (www_watch_url i) = [i].
Proof.
  intros H. unfold ids_of_line, www_watch_url. cbv zeta.
  destruct (valid_id_shape i H) as
    (c0 & c1 & c2 & c3 & c4 & c5 & c6 & c7 & c8 & c9 & c10 & E & F & L).
  assert (F10 : id_char c10 = true) by (apply id_last_char_id_char; exact L).
  let v := eval vm_compute in (py "https://www.youtube.com/watch?v=") in
  change (py "https://www.youtube.com/watch?v=") with v.
  match goal with
  | |- context [strip ((?h :: ?t) ++ i)] =>
    assert (S : strip ((h :: t) ++ i) = (h :: t) ++ i)
  end.
  { rewrite E.
    match goal with
    | |- strip ((?h :: ?t) ++ _) = _ =>
      apply (strip_ends h c10 (t ++ [c0; c1; c2; c3; c4; c5; c6; c7; c8; c9]));
        [reflexivity|apply id_char_not_space; exact F10]
    end. }
  rewrite S. cbn [app]. cbn [startswith].
  change (startswith (104 :: ?t) (py "#")) with false. cbn [orb].
  repeat rewrite search_id_skip by (rewrite E; reflexivity).
  rewrite (search_id_here i i (match_id_self i H)). reflexivity.
Qed.

Lemma ids_of_text_lines (f : str -> str) (ids : list str) :
  (forall i, valid_id i = true ->
             forallb printable (f i) = true /\ ids_of_line (f i) = [i]) ->
  Forall (fun i => valid_id i = true) ids ->
  ids_of_text (concat (List.map (fun i => f i ++ LF) ids)) = ids.
Proof.
  intros Hf Hids. unfold ids_of_text.
  induction Hids as [|i ids Hi _ IH]; [reflexivity|].
  destruct (Hf i Hi) as [Hp Hl].
  cbn [List.map concat]. unfold LF at 1. rewrite <- app_assoc. cbn [app].
  rewrite (splitlines_line (f i) Hp [] _). cbn [rev app flat_map].
  rewrite Hl, IH. reflexivity.
Qed.

Lemma valid_id_printable (i : str) : valid_id i = true -> forallb printable i = true.
Proof.
  intros H. destruct (valid_id_shape i H) as (? & ? & ? & ? & ? & ? & ? & ? & ? & ? & ?
                                              & _ & F & _).
  rewrite forallb_forall in *. intros c Hc. apply id_char_printable, F, Hc.
Qed.

(** The state a list export leaves: the file holds the lines, nothing else
    has changed but the trace. *)
Lemma export_lines_state (path loc : str) (lines : list str) (body : File -> M File)
    (note : str) (quiet : bool) (s : State) :
  writable s path = Some loc -> writes_chunks body lines ->
  exists s1,
    (with_open path ModeW body ;;; cprint CHECK note quiet ;;; ret path) s
    = (Ok path, s1)
    /\ files s1 = <[loc := concat lines]> (files s)
    /\ dirs s1 = dirs s.
Proof.
  intros Hw Hb. unfold bind at 1.
  rewrite (with_open_w_spec path loc body lines s Hw Hb).
  unfold bind, cprint. destruct quiet; (eexists; split; [reflexivity|]);
    split; reflexivity.
Qed.

Lemma read_after_write (path loc text : str) (s s1 : State) :
  writable s path = Some loc ->
  files s1 = <[loc := text]> (files s) -> dirs s1 = dirs s ->
  exists s2, read_ids_file path s1 = (Ok (ids_of_text text), s2).
Proof.
  intros Hw Hf Hd. eexists. apply (read_ids_file_spec path loc).
  - rewrite (writable_dirs s s1 path Hd). exact Hw.
  - rewrite Hf. apply lookup_insert_eq.
Qed.

Lemma writable_nonempty (s : State) (path loc : str) :
  writable s path = Some loc -> path <> [].
Proof. intros H ->. discriminate H. Qed.

(** X7: an ID list written by [export_ids] to a destination that [open]
    accepts is read back by [read_ids_file] as the same list, when the IDs
    are well-formed video IDs. *)
Theorem export_ids_read_back (ids : list str) (path loc : str) (quiet : bool)
    (s : State) :
  writable s path = Some loc ->
  Forall (fun i => valid_id i = true) ids ->
  exists s1 s2,
    export_ids ids (Some path) quiet s = (Ok path, s1)
    /\ read_ids_file path s1 = (Ok ids, s2).
Proof.
  intros Hw Hids. pose proof (writable_nonempty s path loc Hw) as Hp.
  unfold export_ids.
  assert (E : option_or (Some path) (py "ids.txt") = path)
    by (destruct path; [contradiction|reflexivity]).
  rewrite E.
  destruct (export_lines_state path loc (List.map (fun vid => vid ++ LF) ids)
              (fun f => for_fold ids f (fun f vid => write f (vid ++ LF)))
              (py "Wrote ID list: " ++ path) quiet s Hw
              (writes_loop (fun vid => vid ++ LF) ids))
    as (s1 & E1 & Hf & Hd).
  destruct (read_after_write path loc _ s s1 Hw Hf Hd) as (s2 & E2).
  exists s1, s2. split; [exact E1|]. rewrite E2.
  rewrite (ids_of_text_lines (fun i => i) ids); [reflexivity| |exact Hids].
  intros i Hi. split; [apply valid_id_printable, Hi|apply ids_of_line_id, Hi].
Qed.

Lemma export_ids_read_back_witness :
  exists s1 s2,
    export_ids [py "dQw4w9WgXcQ"; py "9bZkp7q19f0"] (Some (py "ids.txt")) true
               empty_state
    = (Ok (py "ids.txt"), s1)
    /\ read_ids_file (py "ids.txt") s1
       = (Ok [py "dQw4w9WgXcQ"; py "9bZkp7q19f0"], s2).
Proof.
  apply (export_ids_read_back [py "dQw4w9WgXcQ"; py "9bZkp7q19f0"] (py "ids.txt")
           (py "ids.txt") true empty_state); [reflexivity|].
  repeat constructor.
Defined.

(** X8: a URL list written by [export_urls] to a destination that [open]
    accepts can be used as an ID file: [read_ids_file] reads the IDs back,
    in order. *)
Theorem export_urls_read_back (ids : list str) (path loc : str) (quiet : bool)
    (s : State) :
  writable s path = Some loc ->
  Forall (fun i => valid_id i = true) ids ->
  exists s1 s2,
    export_urls ids (Some path) quiet s = (Ok path, s1)
    /\ read_ids_file path s1 = (Ok ids, s2).
Proof.
  intros Hw Hids. pose proof (writable_nonempty s path loc Hw) as Hp.
  unfold export_urls.
  assert (E : option_or (Some path) (py "urls.txt") = path)
    by (destruct path; [contradiction|reflexivity]).
  rewrite E.
  destruct (export_lines_state path loc
              (List.map (fun vid => www_watch_url vid ++ LF) ids)
              (fun f => for_fold ids f (fun f vid =>
                 write f (py "https://www.youtube.com/watch?v=" ++ vid ++ LF)))
              (py "Wrote URL list: " ++ path) quiet s Hw)
    as (s1 & E1 & Hf & Hd).
  { intros f s0.
    rewrite <- (writes_loop (fun vid => www_watch_url vid ++ LF) ids f s0).
    unfold www_watch_url. f_equal. }
  destruct (read_after_write path loc _ s s1 Hw Hf Hd) as (s2 & E2).
  exists s1, s2. split; [exact E1|]. rewrite E2.
  rewrite (ids_of_text_lines www_watch_url ids); [reflexivity| |exact Hids].
  intros i Hi. split; [|apply ids_of_line_url, Hi].
  unfold www_watch_url. rewrite forallb_app, (valid_id_printable i Hi).
  reflexivity.
Qed.

Lemma export_urls_read_back_witness :
  exists s1 s2,
    export_urls [py "dQw4w9WgXcQ"; py "9bZkp7q19f0"] (Some (py "urls.txt")) true
                empty_state
    = (Ok (py "urls.txt"), s1)
    /\ read_ids_file (py "urls.txt") s1
       = (Ok [py "dQw4w9WgXcQ"; py "9bZkp7q19f0"], s2).
Proof.
  apply (export_urls_read_back [py "dQw4w9WgXcQ"; py "9bZkp7q19f0"] (py "urls.txt")
           (py "urls.txt") true empty_state); [reflexivity|].
  repeat constructor.
Defined.

Lemma read_ids_file_valid_ids_witness :
  let ids := [py "dQw4w9WgXcQ"; py "9bZkp7q19f0"] in
  let s' := snd (read_ids_file (py "ids.txt") ids_state) in
  Forall (fun i => valid_id i = true) ids
  /\ (List.length ids
      <= List.length (splitlines [] (content ids_state (py "ids.txt"))))%nat
  /\ files s' = files ids_state /\ dirs s' = dirs ids_state.
Proof.
  intros ids s'.
  apply (read_ids_file_valid_ids (py "ids.txt") ids_state s' ids).
  vm_compute. reflexivity.
Defined.

(** ** The location of the database *)

Lemma join_suffix (a b : str) :
  startswith b [SEP] = false -> exists y, join a b = y ++ b.
Proof.
  intros H. unfold join. rewrite H. destruct a as [|c t].
  - exists []. reflexivity.
  - destruct (endswith (c :: t) [SEP]).
    + exists (c :: t). reflexivity.
    + exists ((c :: t) ++ [SEP]). rewrite <- app_assoc. reflexivity.
Qed.

Lemma lower_app (a b : str) : lower (a ++ b) = lower a ++ lower b.
Proof. apply map_app. Qed.

Lemma endswith_app (y b p : str) : endswith b p = true -> endswith (y ++ b) p = true.
Proof.
  unfold endswith. rewrite rev_app_distr.
  generalize (rev b) (rev p) (rev y). clear. intros b p. revert b.
  induction p as [|x p IH]; intros b y; [reflexivity|].
  destruct b as [|c b]; [discriminate|]. cbn [app startswith].
  intros H. apply andb_prop in H as [-> H]. cbn [andb]. apply IH, H.
Qed.

Lemma db_name_accepted (y : str) :
  endswith (lower (y ++ py "playlists.db")) (py ".db") = true.
Proof. rewrite lower_app. apply endswith_app. reflexivity. Qed.

Lemma app_nonempty (y b : str) : b <> [] -> exists c t, y ++ b = c :: t.
Proof.
  intros H. destruct y as [|c t].
  - destruct b as [|c t]; [contradiction|]. exists c, t. reflexivity.
  - exists c, (t ++ b). reflexivity.
Qed.

(** X9: the path of the database is a fixed point of the rule that finds it:
    handing the resolved path back as [--path] gives the same file. *)
Theorem freetube_db_path_idempotent (env : Env) (s : State) (user_path : option str) :
  freetube_db_path env s (Some (freetube_db_path env s user_path))
  = freetube_db_path env s user_path.
Proof.
  assert (J : forall a, freetube_db_path env s (Some (join a (py "playlists.db")))
                        = join a (py "playlists.db")).
  { intros a. destruct (join_suffix a (py "playlists.db") eq_refl) as (y & ->).
    destruct (app_nonempty y (py "playlists.db") ltac:(discriminate)) as (c & t & E).
    unfold freetube_db_path. rewrite E, <- E.
    rewrite db_name_accepted, orb_true_r. reflexivity. }
  assert (C : (exists a, freetube_db_path env s user_path = join a (py "playlists.db"))
              \/ (exists c t, freetube_db_path env s user_path = c :: t
                              /\ isfile s (c :: t) || endswith (lower (c :: t)) (py ".db")
                                 || endswith (lower (c :: t)) (py ".json") = true)).
  { unfold freetube_db_path.
    destruct user_path as [[|c t]|]; try (left; eexists; reflexivity).
    destruct (isfile s (c :: t) || endswith (lower (c :: t)) (py ".db")
              || endswith (lower (c :: t)) (py ".json")) eqn:E.
    - right. exists c, t. split; [reflexivity|exact E].
    - left. eexists. reflexivity. }
  destruct C as [(a & ->)|(c & t & -> & E)]; [apply J|].
  unfold freetube_db_path. rewrite E. reflexivity.
Qed.

Lemma startswith_split (s p : str) : startswith s p = true -> exists r, s = p ++ r.
Proof.
  revert s. induction p as [|x p IH]; intros s H; [exists s; reflexivity|].
  destruct s as [|c s]; [discriminate|]. cbn [startswith] in H.
  apply andb_prop in H as [Hx H]. apply N.eqb_eq in Hx. subst c.
  destruct (IH s H) as (r & ->). exists r. reflexivity.
Qed.

Lemma endswith_split (b p : str) : endswith b p = true -> exists b', b = b' ++ p.
Proof.
  unfold endswith. intros H. destruct (startswith_split _ _ H) as (r & E).
  exists (rev r). rewrite <- (rev_involutive b), E, rev_app_distr, rev_involutive.
  reflexivity.
Qed.

(** X10: without [--path] the database is, on every platform with POSIX paths
    (Linux, macOS and the fallback) and whatever the home directory and the
    file system hold, the file [playlists.db] in a directory named
    [FreeTube]. *)
Theorem freetube_db_path_default (env : Env) (s : State) :
  startswith (sys_platform env) (py "win") = false ->
  endswith (freetube_db_path env s None) (py "FreeTube/playlists.db") = true.
Proof.
  intros Hwin.
  assert (J : forall a b, startswith b [SEP] = false ->
                          endswith b (py "FreeTube") = true ->
                          endswith (join (join a b) (py "playlists.db"))
                                   (py "FreeTube/playlists.db") = true).
  { intros a b Hb He. destruct (join_suffix a b Hb) as (y & ->).
    destruct (endswith_split b _ He) as (b' & ->).
    rewrite app_assoc. generalize (y ++ b'). clear. intros z.
    assert (Hs : endswith (z ++ py "FreeTube") [SEP] = false).
    { unfold endswith. rewrite rev_app_distr. reflexivity. }
    destruct (app_nonempty z (py "FreeTube") ltac:(discriminate)) as (c & t & E).
    unfold join. change (startswith (py "playlists.db") [SEP]) with false.
    cbv iota. rewrite E, <- E, Hs.
    change (SEP :: py "playlists.db") with ([SEP] ++ py "playlists.db").
    rewrite <- app_assoc.
    apply endswith_app. reflexivity. }
  unfold freetube_db_path. rewrite Hwin.
  destruct (startswith (sys_platform env) (py "linux")).
  - destruct (exists_ s _); apply J; reflexivity.
  - destruct (str_eqb (sys_platform env) (py "darwin")); apply J; reflexivity.
Qed.

Lemma freetube_db_path_default_witness :
  endswith (freetube_db_path sample_env empty_state None) (py "FreeTube/playlists.db")
  = true.
Proof. apply (freetube_db_path_default sample_env empty_state). reflexivity. Defined.

(** ** Making sure the database file is there *)

Lemma ensure_file_exists_new (path loc : str) (s : State) :
  isdir s (parent_dir path) = true -> writable s path = Some loc ->
  files s !! loc = None ->
  ensure_file_exists path s
  = (Ok tt, put_file loc [] [EvOpen path ModeA; EvClose path] s).
Proof.
  intros Hpar Hw Hn. apply writable_resolve in Hw as [H1 H2].
  unfold ensure_file_exists, bind, gets. rewrite Hpar. cbn [negb].
  unfold exists_, file_at. rewrite H1, H2, Hn. cbn [negb orb].
  unfold open_. rewrite H1, H2.
  unfold close, modify, flush_buffer, text_at, log, set_files, put_file.
  cbn [f_path f_loc f_buffer files dirs disk trace clock_reads uuid_draws extractions].
  rewrite lookup_insert_eq, Hn. cbn [default from_option id app].
  rewrite insert_insert_eq, <- app_assoc. reflexivity.
Qed.

(** X11: [ensure_file_exists] works like [touch]: when the path is not empty
    and the parent directory exists it succeeds, afterwards the path exists,
    a missing file has been created empty, and no file that was there has
    lost its content; the directories are as they were. *)
Theorem ensure_file_exists_touch (path : str) (s : State) :
  path <> [] ->
  isdir s (parent_dir path) = true ->
  exists s',
    ensure_file_exists path s = (Ok tt, s')
    /\ exists_ s' path = true
    /\ dirs s' = dirs s
    /\ (forall loc old, files s !! loc = Some old -> files s' !! loc = Some old)
    /\ (exists_ s path = false -> isfile s' path = true /\ content s' path = []).
Proof.
  intros Hne Hpar.
  destruct (exists_ s path) eqn:Hex.
  - exists s. split; [apply ensure_file_exists_present; assumption|].
    repeat split; [exact Hex|auto|discriminate|discriminate].
  - destruct (resolve_in_parent s path Hne Hpar) as (l & _ & R).
    set (loc := step l (basename path)) in *. clearbody loc.
    unfold exists_ in Hex. rewrite R in Hex.
    apply orb_false_elim in Hex as [Hd Hf].
    assert (Hw : writable s path = Some loc)
      by (unfold writable; rewrite R, Hd; reflexivity).
    unfold file_at in Hf. destruct (files s !! loc) eqn:Hl; [discriminate|]. clear Hf.
    rewrite (ensure_file_exists_new path loc s Hpar Hw Hl).
    eexists. split; [reflexivity|].
    unfold exists_, isfile, content, text_at, file_at. cbn [put_file dirs files].
    rewrite R, Hd, lookup_insert_eq. cbn [negb orb andb default from_option id].
    repeat split.
    intros q old Hq. rewrite lookup_insert_ne; [exact Hq|]. congruence.
Qed.

Lemma ensure_file_exists_touch_witness :
  exists s',
    ensure_file_exists (py "playlists.db") empty_state = (Ok tt, s')
    /\ isfile s' (py "playlists.db") = true
    /\ content s' (py "playlists.db") = [].
Proof.
  destruct (ensure_file_exists_touch (py "playlists.db") empty_state)
    as (s' & E & _ & _ & _ & H); [discriminate|reflexivity|].
  exists s'. split; [exact E|]. apply H. reflexivity.
Defined.

(** ** The database export at its edges *)

(** X12: when the directory of the database does not exist, the export raises
    [FileNotFoundError] before anything is created, written or printed. *)
Theorem export_freetube_db_missing_parent (env : Env) (pl : FreeTubePlaylist)
    (user_path : option str) (quiet : bool) (s : State) :
  let p := freetube_db_path env s user_path in
  isdir s (parent_dir p) = false ->
  export_freetube_db env pl user_path quiet s
  = (Raise (FileNotFoundError (py "Parent directory does not exist: " ++ parent_dir p)),
     s).
Proof.
  intros p Hpar. unfold export_freetube_db. unfold bind at 1. unfold gets at 1.
  fold p. unfold bind at 1. unfold ensure_file_exists, bind, gets.
  rewrite Hpar. reflexivity.
Qed.

Lemma export_freetube_db_missing_parent_witness :
  export_freetube_db sample_env sample_playlist None true empty_state
  = (Raise (FileNotFoundError
              (py "Parent directory does not exist: /home/user/.config/FreeTube")),
     empty_state).
Proof.
  apply (export_freetube_db_missing_parent sample_env sample_playlist None true
           empty_state).
  reflexivity.
Defined.

Lemma freetube_db_path_nonempty (env : Env) (s : State) (user_path : option str) :
  freetube_db_path env s user_path <> [].
Proof.
  assert (J : forall a, join a (py "playlists.db") <> [])
    by (intros a; apply join_nonempty_r; discriminate).
  unfold freetube_db_path. destruct user_path as [[|c t]|]; try apply J.
  destruct (_ || _); [discriminate|apply J].
Qed.

(** X13: when the database file does not exist yet but its directory does, the
    export creates it: afterwards it holds exactly the line of the playlist,
    in the file and on the disk. *)
Theorem export_freetube_db_creates (env : Env) (pl : FreeTubePlaylist)
    (user_path : option str) (quiet : bool) (s : State) :
  let p := freetube_db_path env s user_path in
  let line := dumps db_style (to_json_obj pl) in
  exists_ s p = false ->
  isdir s (parent_dir p) = true ->
  exists s' loc,
    export_freetube_db env pl user_path quiet s = (Ok p, s')
    /\ writable s p = Some loc
    /\ files s' = <[loc := line ++ [10]]> (files s)
    /\ disk s' = <[loc := line ++ [10]]> (disk s)
    /\ dirs s' = dirs s
    /\ splitlines [] (content s' p) = [line].
Proof.
  intros p line Hex Hpar.
  destruct (resolve_in_parent s p (freetube_db_path_nonempty env s user_path) Hpar)
    as (l & _ & R).
  set (loc := step l (basename p)) in *. clearbody loc.
  unfold exists_ in Hex. rewrite R in Hex. apply orb_false_elim in Hex as [Hdir Hf].
  assert (Hw : writable s p = Some loc)
    by (unfold writable; rewrite R, Hdir; reflexivity).
  unfold file_at in Hf. destruct (files s !! loc) eqn:Hnone; [discriminate|]. clear Hf.
  assert (Hsplit : splitlines [] (line ++ [10]) = [line]).
  { rewrite (splitlines_line line (db_line_printable pl) [] []). reflexivity. }
  unfold export_freetube_db. unfold bind at 1. unfold gets at 1.
  fold p. clearbody p.
  unfold bind at 1. rewrite (ensure_file_exists_new p loc s Hpar Hw Hnone).
  unfold bind at 1.
  rewrite (db_append p loc [] (iterencode db_style 0 (to_json_obj pl))
             (json_dump db_style (to_json_obj pl))
             (put_file loc [] [EvOpen p ModeA; EvClose p] s)).
  2:{ exact Hw. }
  2:{ unfold text_at, put_file. cbn [files]. rewrite lookup_insert_eq. reflexivity. }
  2:{ apply writes_json. }
  rewrite iterencode_concat. fold (dumps db_style (to_json_obj pl)). fold line.
  unfold put_file.
  cbn [files dirs disk trace clock_reads uuid_draws extractions app].
  rewrite insert_insert_eq.
  apply writable_resolve in Hw as [H1 _].
  unfold bind, cprint, content, text_at.
  destruct quiet; (eexists _, loc; split; [reflexivity|]);
    cbn [files dirs disk trace print modify log snd app];
    (split; [unfold writable; rewrite R, Hdir; reflexivity|]);
    (repeat split; [reflexivity..|]);
    rewrite H1, lookup_insert_eq; exact Hsplit.
Qed.

Lemma export_freetube_db_creates_witness :
  exists s',
    export_freetube_db sample_env sample_playlist (Some (py "playlists.db")) true
                       empty_state
    = (Ok (py "playlists.db"), s')
    /\ splitlines [] (content s' (py "playlists.db"))
       = [dumps db_style (to_json_obj sample_playlist)].
Proof.
  destruct (export_freetube_db_creates sample_env sample_playlist
              (Some (py "playlists.db")) true empty_state)
    as (s' & loc & E & _ & _ & _ & _ & H); [reflexivity..|].
  exists s'. split; [exact E|exact H].
Defined.

(** ** JSON files written with [ensure_ascii=False], compact or indented *)

(** *** White space *)









(** *** Strings *)





(** *** Documents *)












(** ** The JSON files of the exporters read back *)















(** ** The chunked export at its edges *)

Lemma range0_negative (stop size : Z) (s : State) :
  (size < 0)%Z -> range0 stop size s = (Ok [], s).
Proof.
  intros H. unfold range0.
  destruct (size =? 0)%Z eqn:E0; [lia|].
  destruct (size <? 0)%Z eqn:E1; [reflexivity|lia].
Qed.

Lemma playlists_loop_negative outdir base (pretty quiet : bool) (size : Z)
    (playlists : list (str * list str)) (total : Z) (s : State) :
  (size < 0)%Z ->
  for_fold playlists total (fun total p =>
    let name := fst p in
    let vids := snd p in
    starts <- range0 (Z.of_nat (List.length vids)) size ;;
    for_fold starts total (fun total i =>
      let chunk := slice vids i (i + size) in
      let payload := piped_payload [piped_playlist name chunk] in
      let out_name := split_out_name base name i size in
      let path := join outdir out_name in
      with_open path ModeW (fun f => json_dump (style_of pretty) payload f) ;;;
      (if quiet then ret tt
       else print (py "  " ++ [0x2192] ++ py " " ++ path ++ py " ("
                   ++ str_of_Z (Z.of_nat (List.length chunk)) ++ py " videos)")) ;;;
      ret (total + 1)%Z)) s
  = (Ok total, s).
Proof.
  intros Hs. induction playlists as [|p ps IH]; [reflexivity|].
  cbn [for_fold]. unfold bind at 1. cbv zeta. unfold bind at 1.
  rewrite (range0_negative _ size s Hs). cbn [for_fold]. unfold ret at 1. exact IH.
Qed.

(** X18: with a negative chunk size the chunked export makes the output
    directory, writes no file at all, reports 0 files and returns normally:
    the videos are silently left out. *)
Theorem export_piped_json_split_negative (playlists : list (str * list str))
    (base_out : option str) (size : Z) (split_dir : option str)
    (pretty quiet : bool) (s : State) :
  let outdir := split_outdir base_out split_dir in
  (size < 0)%Z ->
  fst (makedirs outdir s) = Ok tt ->
  exists s',
    export_piped_json_split playlists base_out size split_dir pretty quiet s
    = (Ok outdir, s')
    /\ files s' = files s
    /\ trace s'
       = trace s ++ [EvMakedirs outdir]
         ++ (if quiet then []
             else [EvPrint (CHECK ++ py "Split Piped JSON finished: 0 files in "
                            ++ outdir)]).
Proof.
  intros outdir Hs Hm.
  destruct (makedirs_ok outdir s Hm) as [Hf Ht].
  unfold export_piped_json_split. fold outdir.
  unfold bind at 1.
  destruct (makedirs outdir s) as [r s1] eqn:Em. cbn [fst snd] in Hm, Hf, Ht. subst r.
  unfold bind at 1.
  pose proof (playlists_loop_negative outdir (split_base base_out) pretty quiet size
                playlists 0 s1 Hs) as HL.
  cbv zeta in HL. rewrite HL; clear HL.
  unfold bind, cprint. destruct quiet; (eexists; split; [reflexivity|]).
  - cbn [snd]. rewrite Ht, app_nil_r. split; [exact Hf|reflexivity].
  - cbn [snd print modify log trace files]. rewrite Ht, <- app_assoc.
    split; [exact Hf|reflexivity].
Qed.

Lemma export_piped_json_split_negative_witness :
  exists s',
    export_piped_json_split [(py "p", seven_videos)] None (-3) None false true empty_state
    = (Ok (py "chunks/piped"), s')
    /\ files s' = files empty_state.
Proof.
  destruct (export_piped_json_split_negative [(py "p", seven_videos)] None (-3) None
              false true empty_state) as (s' & E & F & _); [reflexivity..|].
  exists s'. split; [exact E|exact F].
Defined.

(** X19: with chunk size 0 and at least one playlist the chunked export raises
    [ValueError] (from [range]) after the output directory has been made;
    no file is written. *)
Theorem export_piped_json_split_zero (p : str * list str)
    (playlists : list (str * list str))
    (base_out split_dir : option str) (pretty quiet : bool) (s : State) :
  let outdir := split_outdir base_out split_dir in
  fst (makedirs outdir s) = Ok tt ->
  export_piped_json_split (p :: playlists) base_out 0 split_dir pretty quiet s
  = (Raise (ValueError (py "range() arg 3 must not be zero")), snd (makedirs outdir s))
  /\ files (snd (makedirs outdir s)) = files s.
Proof.
  intros outdir Hm.
  destruct (makedirs_ok outdir s Hm) as [Hf _]. split; [|exact Hf].
  unfold export_piped_json_split. fold outdir.
  unfold bind at 1.
  destruct (makedirs outdir s) as [r s1] eqn:Em. cbn [fst snd] in Hm |- *. subst r.
  reflexivity.
Qed.

Lemma export_piped_json_split_zero_witness :
  export_piped_json_split [(py "p", seven_videos)] None 0 None false true empty_state
  = (Raise (ValueError (py "range() arg 3 must not be zero")),
     snd (makedirs (py "chunks/piped") empty_state))
  /\ files (snd (makedirs (py "chunks/piped") empty_state)) = files empty_state.
Proof.
  apply (export_piped_json_split_zero (py "p", seven_videos) [] None None false true
           empty_state).
  reflexivity.
Defined.

(** *** The names of the chunk files *)

Lemma read_digits_zeros (k : nat) (s : str) :
  read_digits (repeat 48 k ++ s)
  = (Nat.iter k Decimal.D0 (fst (read_digits s)), snd (read_digits s)).
Proof.
  induction k as [|k IH]; [cbn; destruct (read_digits s); reflexivity|].
  cbn [repeat app read_digits]. change (ascii_digit 48) with true. cbv iota.
  rewrite IH. reflexivity.
Qed.

Lemma of_uint_zeros (k : nat) (u : Decimal.uint) :
  N.of_uint (Nat.iter k Decimal.D0 u) = N.of_uint u.
Proof. induction k as [|k IH]; [reflexivity|]. cbn [Nat.iter]. exact IH. Qed.

Lemma fmt03_value (n : N) : N.of_uint (fst (read_digits (fmt03 n))) = n.
Proof.
  unfold fmt03. cbv zeta. rewrite read_digits_zeros. cbn [fst].
  rewrite of_uint_zeros. unfold str_of_N.
  rewrite <- (app_nil_r (uint_chars (N.to_uint n))).
  rewrite (read_digits_stops (N.to_uint n) [] I). cbn [fst].
  apply DecimalN.Unsigned.of_to.
Qed.

Lemma fmt03_inj (n m : N) : fmt03 n = fmt03 m -> n = m.
Proof.
  intros H. rewrite <- (fmt03_value n), <- (fmt03_value m), H. reflexivity.
Qed.

Lemma join_same_head (a : str) (c : N) (pre x y : str) :
  join a ((c :: pre) ++ x) = join a ((c :: pre) ++ y) -> x = y.
Proof.
  unfold join. cbn [app startswith]. destruct ((SEP =? c) && true).
  - intros [= H]. exact (app_inv_head _ _ _ H).
  - destruct a as [|a0 a'].
    + intros [= H]. exact (app_inv_head _ _ _ H).
    + destruct (endswith (a0 :: a') [SEP]).
      * intros H. apply app_inv_head in H. injection H as H.
        exact (app_inv_head _ _ _ H).
      * intros H. apply app_inv_head in H. injection H as H.
        exact (app_inv_head _ _ _ H).
Qed.

Lemma chunk_path_inj (outdir base name : str) (k1 k2 : nat) :
  chunk_path outdir base name k1 = chunk_path outdir base name k2 -> k1 = k2.
Proof.
  unfold chunk_path, chunk_name. intros H.
  assert (E : forall n, base ++ py "_" ++ sanitize_name name ++ py "_" ++ fmt03 n
                        ++ py ".json"
                        = (base ++ py "_" ++ sanitize_name name ++ py "_")
                          ++ fmt03 n ++ py ".json")
    by (intros n; rewrite <- !app_assoc; reflexivity).
  rewrite !E in H.
  destruct (base ++ py "_" ++ sanitize_name name ++ py "_") as [|c pre] eqn:Ep.
  { destruct base; discriminate Ep. }
  apply join_same_head in H. apply app_inv_tail in H. apply fmt03_inj in H. lia.
Qed.

Lemma NoDup_map_inj {A B} (f : A -> B) (l : list A) :
  (forall x y, f x = f y -> x = y) -> NoDup l -> NoDup (List.map f l).
Proof.
  intros Hf H. induction H as [|x l Hx Hl IH]; [constructor|].
  cbn [List.map]. constructor; [|exact IH].
  rewrite list_elem_of_In. intros Hin. apply in_map_iff in Hin as (y & Hy & Hin).
  apply Hf in Hy. subst y. apply Hx. apply list_elem_of_In. exact Hin.
Qed.

Lemma chunk_name_inj (base name : str) (k1 k2 : nat) :
  chunk_name base name k1 = chunk_name base name k2 -> k1 = k2.
Proof.
  unfold chunk_name. intros H.
  rewrite !(app_assoc base), !(app_assoc (base ++ py "_")),
          !(app_assoc ((base ++ py "_") ++ sanitize_name name)) in H.
  apply app_inv_head in H. apply app_inv_tail in H. apply fmt03_inj in H. lia.
Qed.

(** X20: the chunk files of one playlist have pairwise different names, however
    many there are, and lie at pairwise different places of the output
    directory: no chunk overwrites another chunk of its playlist. *)
Theorem chunk_files_distinct (outdir base : str) (pretty : bool) (size : Z)
    (p : str * list str) :
  NoDup (List.map fst (chunk_files outdir base pretty size p))
  /\ forall dloc,
       NoDup (List.map (fun nd => child dloc (fst nd)) (chunk_docs base pretty size p)).
Proof.
  split.
  - unfold chunk_files. rewrite map_map. cbn [fst].
    apply NoDup_map_inj; [apply chunk_path_inj|]. apply NoDup_ListNoDup, seq_NoDup.
  - intros dloc. unfold chunk_docs. rewrite map_map. cbn [fst].
    apply NoDup_map_inj; [|apply NoDup_ListNoDup, seq_NoDup].
    intros k1 k2 H. apply child_inj in H. exact (chunk_name_inj _ _ _ _ H).
Qed.

(** ** More on the builders *)

Lemma for_fold_app {A B} (a b : list A) (acc : B) (body : B -> A -> M B) (s : State) :
  for_fold (a ++ b) acc body s
  = match for_fold a acc body s with
    | (Ok acc', s') => for_fold b acc' body s'
    | (Raise e, s') => (Raise e, s')
    end.
Proof.
  revert acc s. induction a as [|x a IH]; intros acc s; [reflexivity|].
  cbn [app for_fold]. unfold bind. destruct (body acc x s) as [[acc'|e] s']; [|reflexivity].
  apply IH.
Qed.

Lemma first_none {A} (l : list (option A)) :
  In None l -> exists es rest, l = List.map Some es ++ None :: rest.
Proof.
  induction l as [|[x|] l IH]; intros H.
  - destruct H.
  - destruct H as [H|H]; [discriminate|].
    destruct (IH H) as (es & rest & ->). exists (x :: es), rest. reflexivity.
  - exists [], l. reflexivity.
Qed.

Lemma all_some {A} (l : list (option A)) :
  ~ In None l -> exists es, l = List.map Some es.
Proof.
  induction l as [|[x|] l IH]; intros H.
  - exists []. reflexivity.
  - destruct IH as (es & ->); [intros Hn; apply H; right; exact Hn|].
    exists (x :: es). reflexivity.
  - exfalso. apply H. left. reflexivity.
Qed.

(** The loop over the entries, with everything it leaves behind: [n] is the
    number of entries kept. *)
Lemma entries_loop_state (env : Env) (es : list Entry) (ft : FreeTubePlaylist)
    (s : State) :
  let n := List.length (List.filter kept es) in
  exists ft',
    for_fold (List.map Some es) ft (fun ft e =>
      match e with
      | None => raise (AttributeError (py "'NoneType' object has no attribute 'get'"))
      | Some e =>
        let vid := clean_text (py_or (get e "id") (VStr [])) in
        match vid with
        | [] => ret ft
        | _ => v <- from_ytdlp_entry env e ;; add_video env ft v
        end
      end) s
    = (Ok ft', set_clock_reads (clock_reads s + 2 * n)
                 (set_uuid_draws (uuid_draws s + n) s))
    /\ videos ft'
       = videos ft ++ entries_videos env es (clock_reads s) (uuid_draws s)
    /\ playlistName ft' = playlistName ft
    /\ createdAt ft' = createdAt ft
    /\ _id ft' = _id ft
    /\ (n = 0%nat -> lastUpdatedAt ft' = lastUpdatedAt ft)
    /\ ((0 < n)%nat -> lastUpdatedAt ft' = time_ms env (clock_reads s + 2 * n - 1)).
Proof.
  revert ft s. induction es as [|e es IH]; intros ft s n.
  - exists ft. cbn [List.map for_fold entries_videos]. rewrite app_nil_r.
    subst n. cbn [List.filter List.length]. unfold ret.
    split; [f_equal; apply state_eq; cbn; first [reflexivity|lia]|].
    repeat split; try reflexivity. lia.
  - cbn [List.map for_fold entries_videos]. unfold bind at 1. cbv zeta.
    subst n. cbn [List.filter].
    assert (Hk : kept e = match entry_id e with [] => false | _ => true end)
      by reflexivity.
    rewrite Hk. fold (entry_id e).
    destruct (entry_id e) as [|c0 t0] eqn:Eid.
    + unfold ret at 1. apply IH.
    + set (v := video_of_entry e (time_ms env (clock_reads s)) (uuid4 env (uuid_draws s))).
      set (ft1 := {| playlistName := playlistName ft; protected := protected ft;
                     description := description ft; videos := videos ft ++ [v];
                     _id := _id ft; createdAt := createdAt ft;
                     lastUpdatedAt := time_ms env (S (clock_reads s)) |}).
      set (s1 := set_clock_reads (S (S (clock_reads s)))
                   (set_uuid_draws (S (uuid_draws s))
                      (set_clock_reads (S (clock_reads s)) s))).
      change ((v0 <- from_ytdlp_entry env e ;; add_video env ft v0) s)
        with (Ok ft1, s1).
      destruct (IH ft1 s1) as (ft' & E & Hv & Hn & Hc & Hi & Hl0 & Hl1).
      exists ft'. cbn [List.length].
      set (n := List.length (List.filter kept es)) in *.
      split.
      { eapply eq_trans; [exact E|]. f_equal.
        apply state_eq; subst s1; cbn; first [reflexivity|lia]. }
      rewrite Hv. subst ft1 s1.
      cbn [videos playlistName createdAt _id lastUpdatedAt clock_reads uuid_draws
             set_clock_reads set_uuid_draws] in *.
      rewrite <- app_assoc.
      replace (S (S (clock_reads s))) with (clock_reads s + 2)%nat in * by lia.
      split; [reflexivity|]. split; [exact Hn|]. split; [exact Hc|].
      split; [exact Hi|]. split; [lia|]. intros _.
      destruct n as [|n'].
      * rewrite Hl0 by reflexivity. f_equal. lia.
      * rewrite Hl1 by lia. f_equal. lia.
Qed.

Lemma ids_loop_state env (quiet : bool) (ids : list str) (ft : FreeTubePlaylist)
    (s : State) :
  let n := List.length ids in
  exists ft' s',
    for_fold ids ft (fun ft vid =>
      meta <- extract_video_min env vid ;;
      v <- (if has_key meta "id" && negb (is_None (get meta "title"))
            then from_ytdlp_entry env meta
            else placeholder env vid) ;;
      ft <- add_video env ft v ;;
      (if quiet then ret tt
       else print (vid ++ py "  |  " ++ title v ++ py "  |  " ++ author v)) ;;;
      ret ft) s
    = (Ok ft', s')
    /\ videos ft'
       = videos ft ++ ids_videos env ids (clock_reads s) (uuid_draws s) (extractions s)
    /\ playlistName ft' = playlistName ft
    /\ createdAt ft' = createdAt ft
    /\ _id ft' = _id ft
    /\ (n = 0%nat -> lastUpdatedAt ft' = lastUpdatedAt ft)
    /\ ((0 < n)%nat -> lastUpdatedAt ft' = time_ms env (clock_reads s + 2 * n - 1))
    /\ clock_reads s' = (clock_reads s + 2 * n)%nat
    /\ files s' = files s /\ dirs s' = dirs s /\ disk s' = disk s
    /\ (quiet = true -> trace s' = trace s).
Proof.
  revert ft s. induction ids as [|vid ids IH]; intros ft s n.
  - exists ft, s. cbn [for_fold ids_videos]. rewrite app_nil_r. subst n.
    cbn [List.length]. repeat split; try reflexivity; lia.
  - cbn [for_fold ids_videos]. unfold bind at 1. unfold bind at 1.
    rewrite extract_video_min_spec.
    fold (usable (fetched_meta env (extractions s) vid)).
    set (meta := fetched_meta env (extractions s) vid).
    set (v := if usable meta
              then video_of_entry meta (time_ms env (clock_reads s)) (uuid4 env (uuid_draws s))
              else video_placeholder vid (time_ms env (clock_reads s))
                                     (uuid4 env (uuid_draws s))).
    set (ft1 := {| playlistName := playlistName ft; protected := protected ft;
                   description := description ft; videos := videos ft ++ [v];
                   _id := _id ft; createdAt := createdAt ft;
                   lastUpdatedAt := time_ms env (S (clock_reads s)) |}).
    assert (Hstep : exists s1,
      (v0 <- (if usable meta then from_ytdlp_entry env meta else placeholder env vid) ;;
       ft0 <- add_video env ft v0 ;;
       (if quiet then ret tt
        else print (vid ++ py "  |  " ++ title v0 ++ py "  |  " ++ author v0)) ;;;
       ret ft0) (set_extractions (S (extractions s)) s) = (Ok ft1, s1)
      /\ clock_reads s1 = (clock_reads s + 2)%nat
      /\ uuid_draws s1 = S (uuid_draws s)
      /\ extractions s1 = S (extractions s)
      /\ files s1 = files s /\ dirs s1 = dirs s /\ disk s1 = disk s
      /\ (quiet = true -> trace s1 = trace s)).
    { subst v ft1. destruct (usable meta), quiet;
        (eexists; split; [reflexivity|]); cbn; repeat split;
        first [lia|discriminate]. }
    destruct Hstep as (s1 & E1 & Hc & Hu & Hx & Hf & Hd & Hk & Ht).
    unfold bind at 1 in E1. unfold bind at 1.
    destruct ((if usable meta then from_ytdlp_entry env meta else placeholder env vid)
                (set_extractions (S (extractions s)) s)) as [[v0|e0] s0] eqn:Ev.
    2:{ discriminate E1. }
    rewrite E1.
    destruct (IH ft1 s1)
      as (ft' & s' & E & Hv & Hn & Hcr & Hi & Hl0 & Hl1 & Hc' & Hf' & Hd' & Hk' & Ht').
    exists ft', s'. split; [exact E|].
    rewrite Hv, Hc, Hu, Hx. subst ft1 n.
    cbn [videos createdAt playlistName _id lastUpdatedAt List.length] in *.
    rewrite <- app_assoc.
    split; [reflexivity|]. split; [exact Hn|]. split; [exact Hcr|]. split; [exact Hi|].
    split; [lia|]. split.
    { intros _. destruct (List.length ids) as [|m].
      - rewrite Hl0 by reflexivity. f_equal. lia.
      - rewrite Hl1 by lia. f_equal. lia. }
    split; [lia|]. split; [congruence|]. split; [congruence|]. split; [congruence|].
    intros Hq. rewrite (Ht' Hq), (Ht Hq). reflexivity.
Qed.

Lemma new_spec env (name descr : str) (s : State) :
  new env name descr s
  = (Ok {| playlistName := str_or name (py "Imported Playlist");
           protected := false; description := descr; videos := [];
           _id := py "ft-playlist--" ++ uuid4 env (uuid_draws s);
           createdAt := time_ms env (clock_reads s);
           lastUpdatedAt := time_ms env (clock_reads s) |},
     set_uuid_draws (S (uuid_draws s)) (set_clock_reads (S (clock_reads s)) s)).
Proof. reflexivity. Qed.

Lemma str_or_nonempty (a d : str) : d <> [] -> str_or a d <> [].
Proof. intros H. destruct a; [exact H|discriminate]. Qed.

Lemma option_or_nonempty (o : option str) (d : str) : d <> [] -> option_or o d <> [].
Proof. intros H. destruct o as [[|c t]|]; try exact H. discriminate. Qed.

(** What a build from entries gives when no entry is [None]. *)
Lemma build_entries_ok (env : Env) (info : Info) (name : option str) (descr : str)
    (s : State) (es : list Entry) :
  entries_of info = List.map Some es ->
  let n := List.length (List.filter kept es) in
  exists ft s',
    build_freetube_from_entries env info name descr s = (Ok ft, s')
    /\ videos ft = entries_videos env es (S (clock_reads s)) (S (uuid_draws s))
    /\ playlistName ft
       = str_or (option_or name
                   (str_or (clean_text (py_or (get (info_fields info) "title") (VStr [])))
                           (py "Imported Playlist")))
                (py "Imported Playlist")
    /\ createdAt ft = time_ms env (clock_reads s)
    /\ (n = 0%nat -> lastUpdatedAt ft = time_ms env (clock_reads s))
    /\ ((0 < n)%nat -> lastUpdatedAt ft = time_ms env (clock_reads s + 2 * n))
    /\ files s' = files s /\ dirs s' = dirs s /\ trace s' = trace s
    /\ extractions s' = extractions s /\ disk s' = disk s.
Proof.
  intros He n. unfold build_freetube_from_entries. fold (entries_of info). rewrite He.
  unfold bind at 1. rewrite new_spec.
  match goal with
  | |- context [for_fold _ ?ft0 _ ?s0] =>
    destruct (entries_loop_state env es ft0 s0)
      as (ft & E & Hv & Hn & Hc & _ & Hl0 & Hl1)
  end.
  fold n in E, Hl0, Hl1. eexists ft, _. split; [exact E|].
  cbn [videos playlistName createdAt lastUpdatedAt clock_reads uuid_draws
         set_clock_reads set_uuid_draws app] in *.
  split; [exact Hv|]. split; [exact Hn|]. split; [exact Hc|].
  split; [exact Hl0|]. split.
  { intros Hpos. rewrite (Hl1 Hpos). f_equal. lia. }
  repeat split.
Qed.

(** What a build from entries does at the first [None] entry. *)
Lemma build_entries_none (env : Env) (info : Info) (name : option str) (descr : str)
    (s : State) (es : list Entry) (rest : list (option Entry)) :
  entries_of info = List.map Some es ++ None :: rest ->
  exists s',
    build_freetube_from_entries env info name descr s
    = (Raise (AttributeError (py "'NoneType' object has no attribute 'get'")), s')
    /\ files s' = files s /\ dirs s' = dirs s /\ trace s' = trace s
    /\ extractions s' = extractions s /\ disk s' = disk s.
Proof.
  intros He. unfold build_freetube_from_entries. fold (entries_of info). rewrite He.
  unfold bind at 1. rewrite new_spec. rewrite for_fold_app.
  match goal with
  | |- context [for_fold (List.map Some es) ?ft0 _ ?s0] =>
    destruct (entries_loop_state env es ft0 s0) as (ft & E & _)
  end.
  eexists. split.
  - match goal with
    | |- match ?x with _ => _ end = _ =>
      match type of E with ?y = _ => change x with y end
    end.
    rewrite E. reflexivity.
  - split; [reflexivity|]. split; [reflexivity|]. split; [reflexivity|].
    split; reflexivity.
Qed.

(** X21: a [None] among the entries of a playlist aborts the build with
    [AttributeError]; nothing has been written or printed by then.  (The
    subscription fetch skips such entries, the playlist build does not.) *)
Theorem build_freetube_from_entries_none (env : Env) (info : Info)
    (name : option str) (descr : str) (s : State) :
  In None (entries_of info) ->
  exists s',
    build_freetube_from_entries env info name descr s
    = (Raise (AttributeError (py "'NoneType' object has no attribute 'get'")), s')
    /\ files s' = files s /\ dirs s' = dirs s /\ trace s' = trace s.
Proof.
  intros H. destruct (first_none _ H) as (es & rest & E).
  destruct (build_entries_none env info name descr s es rest E)
    as (s' & E' & H1 & H2 & H3 & _).
  exists s'. repeat split; assumption.
Qed.

Lemma build_freetube_from_entries_none_witness :
  exists s',
    build_freetube_from_entries sample_env
      {| info_fields := ∅;
         info_entries := EntriesList [Some {[ py "id" := VStr (py "aaaaaaaaaaA") ]}; None] |}
      None [] empty_state
    = (Raise (AttributeError (py "'NoneType' object has no attribute 'get'")), s')
    /\ files s' = files empty_state.
Proof.
  destruct (build_freetube_from_entries_none sample_env
              {| info_fields := ∅;
                 info_entries :=
                   EntriesList [Some {[ py "id" := VStr (py "aaaaaaaaaaA") ]}; None] |}
              None [] empty_state) as (s' & E & F & _).
  - right. left. reflexivity.
  - exists s'. split; [exact E|exact F].
Defined.

Lemma split_options {A} (l : list (option A)) :
  (exists es, l = List.map Some es)
  \/ (exists es rest, l = List.map Some es ++ None :: rest).
Proof.
  induction l as [|[x|] l IH].
  - left. exists []. reflexivity.
  - destruct IH as [(es & ->)|(es & rest & ->)].
    + left. exists (x :: es). reflexivity.
    + right. exists (x :: es), rest. reflexivity.
  - right. exists [], l. reflexivity.
Qed.

Lemma build_ids_ok (env : Env) (ids : list str) (name descr : str) (quiet : bool)
    (s : State) :
  let n := List.length ids in
  exists ft s',
    build_freetube_from_ids env ids name descr quiet s = (Ok ft, s')
    /\ videos ft
       = ids_videos env ids (S (clock_reads s)) (S (uuid_draws s)) (extractions s)
    /\ playlistName ft
       = str_or (str_or name (py "Imported IDs (" ++ str_of_Z (Z.of_nat n)
                              ++ py " videos)"))
                (py "Imported Playlist")
    /\ createdAt ft = time_ms env (clock_reads s)
    /\ (n = 0%nat -> lastUpdatedAt ft = time_ms env (clock_reads s))
    /\ ((0 < n)%nat -> lastUpdatedAt ft = time_ms env (clock_reads s + 2 * n))
    /\ files s' = files s /\ dirs s' = dirs s
    /\ (quiet = true -> trace s' = trace s).
Proof.
  intros n. unfold build_freetube_from_ids. unfold bind at 1. rewrite new_spec.
  match goal with
  | |- context [for_fold _ ?ft0 _ ?s0] =>
    destruct (ids_loop_state env quiet ids ft0 s0)
      as (ft & s' & E & Hv & Hn & Hc & _ & Hl0 & Hl1 & _ & Hf & Hd & _ & Ht)
  end.
  fold n in Hl0, Hl1. exists ft, s'. split; [exact E|].
  cbn [videos playlistName createdAt lastUpdatedAt clock_reads uuid_draws extractions
         set_clock_reads set_uuid_draws app files dirs trace] in *.
  split; [exact Hv|]. split; [exact Hn|]. split; [exact Hc|].
  split; [exact Hl0|]. split.
  { intros Hpos. rewrite (Hl1 Hpos). f_equal. lia. }
  split; [exact Hf|]. split; [exact Hd|exact Ht].
Qed.

Lemma entries_videos_times (env : Env) (es : list Entry) (c u : nat) :
  Forall (fun v => exists k, (c <= k)%nat
                             /\ (k + 2 <= c + 2 * List.length (List.filter kept es))%nat
                             /\ timeAdded v = time_ms env k)
         (entries_videos env es c u).
Proof.
  revert c u. induction es as [|e es IH]; intros c u; cbn [entries_videos List.filter].
  - constructor.
  - destruct (kept e).
    + constructor.
      * exists c. cbn [List.length timeAdded video_of_entry]. repeat split; lia.
      * eapply Forall_impl; [apply IH|]. cbn [List.length].
        intros v (k & H1 & H2 & H3). exists k. repeat split; [lia|lia|exact H3].
    + apply IH.
Qed.

Lemma ids_videos_times (env : Env) (ids : list str) (c u x : nat) :
  Forall (fun v => exists k, (c <= k)%nat /\ (k + 2 <= c + 2 * List.length ids)%nat
                             /\ timeAdded v = time_ms env k)
         (ids_videos env ids c u x).
Proof.
  revert c u x. induction ids as [|vid ids IH]; intros c u x; cbn [ids_videos].
  - constructor.
  - constructor.
    + exists c. cbn [List.length]. repeat split; [lia|lia|].
      destruct (usable _); reflexivity.
    + eapply Forall_impl; [apply IH|]. cbn [List.length].
      intros v (k & H1 & H2 & H3). exists k. repeat split; [lia|lia|exact H3].
Qed.

(** X22: with a clock that never runs backwards, every record of a built
    playlist was added between the creation of the playlist and its last
    update: [createdAt <= timeAdded <= lastUpdatedAt], for a build from
    entries and for a build from IDs. *)
Theorem built_videos_timestamps (env : Env) :
  non_decreasing (time_ms env) ->
  (forall info name descr s ft s',
      build_freetube_from_entries env info name descr s = (Ok ft, s') ->
      Forall (fun v => (createdAt ft <= timeAdded v <= lastUpdatedAt ft)%Z) (videos ft))
  /\ (forall ids name descr quiet s ft s',
        build_freetube_from_ids env ids name descr quiet s = (Ok ft, s') ->
        Forall (fun v => (createdAt ft <= timeAdded v <= lastUpdatedAt ft)%Z)
               (videos ft)).
Proof.
  intros Hmono. split.
  - intros info name descr s ft s' Hb.
    destruct (split_options (entries_of info)) as [(es & He)|(es & rest & He)].
    2:{ destruct (build_entries_none env info name descr s es rest He) as (s1 & E & _).
        rewrite E in Hb. discriminate Hb. }
    destruct (build_entries_ok env info name descr s es He)
      as (ft0 & s0 & E & Hv & _ & Hc & Hl0 & Hl1 & _).
    rewrite E in Hb. injection Hb as <- <-.
    rewrite Hv, Hc. eapply Forall_impl; [apply entries_videos_times|]. cbv beta.
    intros v (k & H1 & H2 & ->).
    rewrite Hl1 by lia. split; apply Hmono; lia.
  - intros ids name descr quiet s ft s' Hb.
    destruct (build_ids_ok env ids name descr quiet s)
      as (ft0 & s0 & E & Hv & _ & Hc & Hl0 & Hl1 & _).
    rewrite E in Hb. injection Hb as <- <-.
    rewrite Hv, Hc. eapply Forall_impl; [apply ids_videos_times|]. cbv beta.
    intros v (k & H1 & H2 & ->).
    rewrite Hl1 by lia. split; apply Hmono; lia.
Qed.

Lemma built_videos_timestamps_witness :
  exists ft s',
    build_freetube_from_entries sample_env
      {| info_fields := ∅; info_entries := EntriesList (List.map Some three_entries) |}
      None [] empty_state
    = (Ok ft, s')
    /\ Forall (fun v => (createdAt ft <= timeAdded v <= lastUpdatedAt ft)%Z) (videos ft).
Proof.
  assert (Hm : non_decreasing (time_ms sample_env))
    by (intros i j Hij; unfold sample_env; simpl; lia).
  destruct (built_videos_timestamps sample_env Hm) as [H _].
  destruct (build_freetube_from_entries sample_env
              {| info_fields := ∅;
                 info_entries := EntriesList (List.map Some three_entries) |}
              None [] empty_state) as [[ft|e] s'] eqn:E.
  - exists ft, s'. split; [reflexivity|]. exact (H _ _ _ _ _ _ E).
  - vm_compute in E. discriminate E.
Defined.

Lemma entries_videos_item_ids (env : Env) (es : list Entry) (c u : nat) :
  List.map playlistItemId (entries_videos env es c u)
  = List.map (uuid4 env) (seq u (List.length (List.filter kept es))).
Proof.
  revert c u. induction es as [|e es IH]; intros c u; cbn [entries_videos List.filter].
  - reflexivity.
  - destruct (kept e); [|apply IH].
    cbn [List.map List.length seq playlistItemId video_of_entry]. rewrite IH. reflexivity.
Qed.

Lemma ids_videos_item_ids (env : Env) (ids : list str) (c u x : nat) :
  List.map playlistItemId (ids_videos env ids c u x)
  = List.map (uuid4 env) (seq u (List.length ids)).
Proof.
  revert c u x. induction ids as [|vid ids IH]; intros c u x; cbn [ids_videos].
  - reflexivity.
  - cbn [List.map List.length seq]. rewrite IH. f_equal.
    destruct (usable _); reflexivity.
Qed.

(** X23: when [uuid4] never returns the same value twice, the records of a built
    playlist carry pairwise different [playlistItemId]s, for a build from
    entries and for a build from IDs (also when a video occurs twice). *)
Theorem built_item_ids_distinct (env : Env) :
  (forall i j, uuid4 env i = uuid4 env j -> i = j) ->
  (forall info name descr s ft s',
      build_freetube_from_entries env info name descr s = (Ok ft, s') ->
      NoDup (List.map playlistItemId (videos ft)))
  /\ (forall ids name descr quiet s ft s',
        build_freetube_from_ids env ids name descr quiet s = (Ok ft, s') ->
        NoDup (List.map playlistItemId (videos ft))).
Proof.
  intros Hinj. split.
  - intros info name descr s ft s' Hb.
    destruct (split_options (entries_of info)) as [(es & He)|(es & rest & He)].
    2:{ destruct (build_entries_none env info name descr s es rest He) as (s1 & E & _).
        rewrite E in Hb. discriminate Hb. }
    destruct (build_entries_ok env info name descr s es He) as (ft0 & s0 & E & Hv & _).
    rewrite E in Hb. injection Hb as <- <-.
    rewrite Hv, entries_videos_item_ids.
    apply NoDup_map_inj; [exact Hinj|]. apply NoDup_ListNoDup, seq_NoDup.
  - intros ids name descr quiet s ft s' Hb.
    destruct (build_ids_ok env ids name descr quiet s) as (ft0 & s0 & E & Hv & _).
    rewrite E in Hb. injection Hb as <- <-.
    rewrite Hv, ids_videos_item_ids.
    apply NoDup_map_inj; [exact Hinj|]. apply NoDup_ListNoDup, seq_NoDup.
Qed.

Lemma uint_chars_inj (u u' : Decimal.uint) : uint_chars u = uint_chars u' -> u = u'.
Proof.
  intros H.
  pose proof (read_digits_stops u [] I) as A.
  pose proof (read_digits_stops u' [] I) as B.
  rewrite H in A. rewrite A in B. congruence.
Qed.

Lemma sample_uuid4_inj (i j : nat) : uuid4 sample_env i = uuid4 sample_env j -> i = j.
Proof.
  unfold sample_env, str_of_N. cbn [uuid4]. intros H.
  apply app_inv_head, uint_chars_inj, DecimalN.Unsigned.to_uint_inj in H. lia.
Qed.

Lemma built_item_ids_distinct_witness :
  exists ft s',
    build_freetube_from_ids sample_env [py "dQw4w9WgXcQ"; py "dQw4w9WgXcQ"] (py "twice") []
                            true empty_state
    = (Ok ft, s')
    /\ NoDup (List.map playlistItemId (videos ft)).
Proof.
  destruct (built_item_ids_distinct sample_env sample_uuid4_inj) as [_ H].
  destruct (build_freetube_from_ids sample_env [py "dQw4w9WgXcQ"; py "dQw4w9WgXcQ"]
              (py "twice") [] true empty_state) as [[ft|e] s'] eqn:E.
  - exists ft, s'. split; [reflexivity|]. exact (H _ _ _ _ _ _ _ E).
  - vm_compute in E. discriminate E.
Defined.

(** X24: a built playlist always has a name: the name given, if there is one,
    else (from entries) the cleaned title of the extracted playlist or
    [Imported Playlist], (from IDs) [Imported IDs (n videos)]. *)
Theorem built_playlist_named (env : Env) :
  (forall info name descr s ft s',
      build_freetube_from_entries env info name descr s = (Ok ft, s') ->
      playlistName ft <> []
      /\ (option_truthy name = true -> Some (playlistName ft) = name)
      /\ (option_truthy name = false ->
          playlistName ft
          = str_or (clean_text (py_or (get (info_fields info) "title") (VStr [])))
                   (py "Imported Playlist")))
  /\ (forall ids name descr quiet s ft s',
        build_freetube_from_ids env ids name descr quiet s = (Ok ft, s') ->
        playlistName ft <> []
        /\ (name <> [] -> playlistName ft = name)
        /\ (name = [] ->
            playlistName ft
            = py "Imported IDs (" ++ str_of_Z (Z.of_nat (List.length ids))
              ++ py " videos)")).
Proof.
  split.
  - intros info name descr s ft s' Hb.
    destruct (split_options (entries_of info)) as [(es & He)|(es & rest & He)].
    2:{ destruct (build_entries_none env info name descr s es rest He) as (s1 & E & _).
        rewrite E in Hb. discriminate Hb. }
    destruct (build_entries_ok env info name descr s es He)
      as (ft0 & s0 & E & _ & Hn & _).
    rewrite E in Hb. injection Hb as <- <-. rewrite Hn.
    split; [apply str_or_nonempty; discriminate|].
    destruct name as [[|c t]|]; cbn [option_truthy option_or]; split;
      try discriminate; try reflexivity; intros _;
      destruct (clean_text _); reflexivity.
  - intros ids name descr quiet s ft s' Hb.
    destruct (build_ids_ok env ids name descr quiet s) as (ft0 & s0 & E & _ & Hn & _).
    rewrite E in Hb. injection Hb as <- <-. rewrite Hn.
    split; [apply str_or_nonempty; discriminate|].
    destruct name as [|c t]; cbn [str_or]; split; try congruence; try reflexivity.
Qed.

(** ** More on [main] *)

(** *** The subscription export *)

Lemma fetch_cookies (env : Env) (bc cf : option str) (verbose : bool) (s : State) :
  fetch_subscriptions_via_ytdlp env bc cf verbose s
  = fetch_subscriptions_via_ytdlp env None None verbose s
  \/ exists msg,
       fetch_subscriptions_via_ytdlp env bc cf verbose s = (Raise (ValueError msg), s).
Proof.
  unfold fetch_subscriptions_via_ytdlp.
  destruct (option_truthy cf); [left; reflexivity|].
  destruct (option_truthy bc); [|left; reflexivity].
  destruct (cookie_spec_error env (option_or bc [])) as [msg|]; [|left; reflexivity].
  right. exists msg. reflexivity.
Qed.

Lemma fetch_state (env : Env) (verbose : bool) (s : State) :
  snd (fetch_subscriptions_via_ytdlp env None None verbose s)
  = set_extractions (S (extractions s)) s.
Proof.
  unfold fetch_subscriptions_via_ytdlp. cbn [option_truthy].
  unfold bind at 1. unfold ret at 1. unfold bind, ydl_extract_info.
  destruct (extract_info env (extractions s) _) as [msg| |i]; try reflexivity.
  destruct (negb (info_truthy i)); [reflexivity|].
  destruct (info_entries i) as [| |es]; try reflexivity.
  rewrite subscriptions_loop. reflexivity.
Qed.

Lemma fetch_frame (env : Env) (bc cf : option str) (verbose : bool) (s : State) :
  let r := fetch_subscriptions_via_ytdlp env bc cf verbose s in
  files (snd r) = files s /\ dirs (snd r) = dirs s /\ disk (snd r) = disk s
  /\ trace (snd r) = trace s.
Proof.
  cbv zeta.
  destruct (fetch_cookies env bc cf verbose s) as [-> | (msg & ->)];
    [|repeat split; reflexivity].
  rewrite fetch_state. repeat split; reflexivity.
Qed.

(** X25: when the subscription fetch fails (bad cookie specification, yt-dlp
    error, no data, no entry list), the program prints the error, also
    with [--quiet], and ends with status 1; no file or directory has been
    touched. *)
Theorem main_newpipe_fetch_fails (env : Env) (args : Args) (s : State) (e : Exn) :
  export_eqb (a_export args) NewpipeSubs = true ->
  let s0 := snd (cprint [0x22EF; 32]
                   (py "Fetching subscriptions via yt-dlp /feed/channels" ++ [0x2026])
                   (a_quiet args) s) in
  fst (fetch_subscriptions_via_ytdlp env (a_browser_cookies args) (a_cookies args)
                                     (a_verbose args) s0) = Raise e ->
  is_Exception e = true ->
  let r := main env args s in
  exit_status (fst r) = 1%Z
  /\ files (snd r) = files s /\ dirs (snd r) = dirs s /\ disk (snd r) = disk s
  /\ exists before,
       trace (snd r)
       = before ++ [EvPrint (ERR ++ py "Failed to fetch subscriptions: " ++ exn_message e)].
Proof.
  intros Hk s0 Hf He r. subst r.
  assert (Es0 : cprint [0x22EF; 32]
                  (py "Fetching subscriptions via yt-dlp /feed/channels" ++ [0x2026])
                  (a_quiet args) s = (Ok tt, s0))
    by (subst s0; destruct (a_quiet args); reflexivity).
  pose proof (fetch_frame env (a_browser_cookies args) (a_cookies args) (a_verbose args) s0)
    as Hfr. cbv zeta in Hfr.
  destruct (fetch_subscriptions_via_ytdlp env (a_browser_cookies args) (a_cookies args)
              (a_verbose args) s0) as [r1 s1] eqn:Ef.
  cbn [fst snd] in Hf, Hfr. subst r1.
  assert (E : main env args s
              = (Raise (SystemExit 1),
                 log (EvPrint (ERR ++ py "Failed to fetch subscriptions: "
                               ++ exn_message e)) s1)).
  { unfold main. rewrite Hk. unfold bind at 1. rewrite Es0.
    unfold bind at 1. unfold try_except. rewrite Ef, He. reflexivity. }
  rewrite E. clear E.
  assert (F0 : files s0 = files s /\ dirs s0 = dirs s /\ disk s0 = disk s)
    by (subst s0; destruct (a_quiet args); repeat split).
  destruct Hfr as (H1 & H2 & H3 & H4). destruct F0 as (G1 & G2 & G3).
  cbn [fst snd exit_status files dirs disk trace log].
  split; [reflexivity|]. split; [congruence|]. split; [congruence|].
  split; [congruence|]. eexists. reflexivity.
Qed.

Lemma main_newpipe_fetch_fails_witness :
  let r := main sample_env (sample_args NewpipeSubs) empty_state in
  exit_status (fst r) = 1%Z /\ files (snd r) = files empty_state.
Proof.
  destruct (main_newpipe_fetch_fails sample_env (sample_args NewpipeSubs) empty_state
              (ExtractorError (py "network unreachable")))
    as (H1 & H2 & _); [reflexivity..|].
  split; [exact H1|exact H2].
Defined.

(** X26: when the feed holds no usable subscription, the program ends with
    status 2 and writes no file; the warning is printed unless [--quiet] is
    set. *)
Theorem main_newpipe_no_subscriptions (env : Env) (args : Args) (s s1 : State) :
  export_eqb (a_export args) NewpipeSubs = true ->
  let s0 := snd (cprint [0x22EF; 32]
                   (py "Fetching subscriptions via yt-dlp /feed/channels" ++ [0x2026])
                   (a_quiet args) s) in
  fetch_subscriptions_via_ytdlp env (a_browser_cookies args) (a_cookies args)
                                (a_verbose args) s0 = (Ok [], s1) ->
  main env args s
  = (Raise (SystemExit 2),
     if a_quiet args then s1
     else log (EvPrint (py "WARN: " ++ py "No subscriptions found " ++ [0x2014]
                        ++ py " ensure cookies are logged in.")) s1)
  /\ exit_status (fst (main env args s)) = 2%Z
  /\ files (snd (main env args s)) = files s.
Proof.
  intros Hk s0 Hf.
  assert (Es0 : cprint [0x22EF; 32]
                  (py "Fetching subscriptions via yt-dlp /feed/channels" ++ [0x2026])
                  (a_quiet args) s = (Ok tt, s0))
    by (subst s0; destruct (a_quiet args); reflexivity).
  pose proof (fetch_frame env (a_browser_cookies args) (a_cookies args) (a_verbose args) s0)
    as Hfr. cbv zeta in Hfr. rewrite Hf in Hfr. cbn [snd] in Hfr.
  destruct Hfr as (H1 & _).
  assert (G1 : files s0 = files s) by (subst s0; destruct (a_quiet args); reflexivity).
  assert (E : main env args s
              = (Raise (SystemExit 2),
                 if a_quiet args then s1
                 else log (EvPrint (py "WARN: " ++ py "No subscriptions found " ++ [0x2014]
                                    ++ py " ensure cookies are logged in.")) s1)).
  { unfold main. rewrite Hk. unfold bind at 1. rewrite Es0.
    unfold bind at 1. unfold try_except. rewrite Hf.
    destruct (a_quiet args); reflexivity. }
  rewrite E. split; [reflexivity|]. split; [reflexivity|].
  cbn [snd]. destruct (a_quiet args); cbn [files log]; congruence.
Qed.

Lemma main_newpipe_no_subscriptions_witness :
  exit_status (fst (main (feed_env [None]) (sample_args NewpipeSubs) empty_state)) = 2%Z
  /\ files (snd (main (feed_env [None]) (sample_args NewpipeSubs) empty_state))
     = files empty_state.
Proof.
  destruct (main_newpipe_no_subscriptions (feed_env [None]) (sample_args NewpipeSubs)
              empty_state
              (set_extractions 1
                 (snd (cprint [0x22EF; 32]
                         (py "Fetching subscriptions via yt-dlp /feed/channels" ++ [0x2026])
                         false empty_state))))
    as (_ & H2 & H3); [reflexivity..|].
  split; [exact H2|exact H3].
Defined.

(** *** ID files without IDs *)

Lemma YTDLPClient_state (env : Env) (cf bc : option str) (s : State) :
  snd (YTDLPClient env cf bc s) = s.
Proof.
  unfold YTDLPClient. destruct (option_truthy cf); [reflexivity|].
  destruct (cookie_spec_error env _); reflexivity.
Qed.

(** X27: when the ID file holds no video ID, the program prints an error (also
    with [--quiet]) and ends with status 1 before yt-dlp is asked anything;
    the file has only been read. *)
Theorem main_no_valid_ids (env : Env) (args : Args) (s : State) (f : str) :
  export_eqb (a_export args) NewpipeSubs = false ->
  a_ids_file args = Some f ->
  fst (YTDLPClient env (a_cookies args) (a_browser_cookies args) s) = Ok tt ->
  isfile s f = true ->
  ids_of_text (content s f) = [] ->
  main env args s
  = (Raise (SystemExit 1),
     log (EvPrint (ERR ++ py "No valid YouTube IDs found."))
       (log (EvClose f) (log (EvOpen f ModeR) s)))
  /\ exit_status (fst (main env args s)) = 1%Z.
Proof.
  intros Hk Hi Hc Hfile Ht.
  assert (Hw : exists loc text, writable s f = Some loc /\ files s !! loc = Some text
                                /\ content s f = text).
  { unfold isfile, file_at in Hfile. unfold writable, content, text_at.
    destruct (resolve (dirs s) f) as [loc|]; [|discriminate].
    destruct (dir_at (dirs s) loc); [discriminate|]. cbn [negb andb] in Hfile.
    destruct (files s !! loc) as [text|] eqn:El; [|discriminate].
    exists loc, text. rewrite El. repeat split. }
  destruct Hw as (loc & text & Hw & Hl & Hcont). rewrite Hcont in Ht.
  pose proof (writable_nonempty s f loc Hw) as Hf.
  assert (E : main env args s
              = (Raise (SystemExit 1),
                 log (EvPrint (ERR ++ py "No valid YouTube IDs found."))
                   (log (EvClose f) (log (EvOpen f ModeR) s)))).
  { unfold main. rewrite Hk, Hi.
    assert (Hty : option_truthy (Some f) = true) by (destruct f; [contradiction|reflexivity]).
    rewrite Hty. cbn [negb andb]. rewrite !andb_false_r. cbn [negb andb].
    unfold bind at 1.
    pose proof (YTDLPClient_state env (a_cookies args) (a_browser_cookies args) s) as Hs.
    destruct (YTDLPClient env (a_cookies args) (a_browser_cookies args) s) as [r0 s0].
    cbn [fst snd] in Hc, Hs. subst r0 s0.
    unfold bind at 1. unfold bind at 1.
    assert (Ef : option_or (Some f) [] = f) by (destruct f; reflexivity).
    rewrite Ef. rewrite (read_ids_file_spec f loc text s Hw Hl), Ht. reflexivity. }
  rewrite E. split; reflexivity.
Qed.

Lemma main_no_valid_ids_witness :
  let args :=
    {| a_playlist_url := []; a_ids_file := Some (py "ids.txt"); a_name := None;
       a_description := []; a_browser_cookies := None; a_cookies := None;
       a_skip_authcheck := false; a_sleep := None; a_export := Ids;
       a_output := None; a_path := None; a_split := None; a_split_dir := None;
       a_pretty := false; a_newpipe_version := py "0.19.8";
       a_newpipe_version_int := 953; a_quiet := true; a_verbose := false |} in
  let s := set_files {[ py "ids.txt" := py "# nothing yet" ++ [10] ]} empty_state in
  exit_status (fst (main sample_env args s)) = 1%Z.
Proof.
  intros args s.
  refine (proj2 (main_no_valid_ids sample_env args s (py "ids.txt") _ _ _ _ _));
    reflexivity.
Defined.

(** *** A playlist that cannot be extracted *)

Lemma extract_playlist_state (env : Env) (url : str) (s : State) :
  snd (extract_playlist env url s) = set_extractions (S (extractions s)) s.
Proof.
  unfold extract_playlist, bind, ydl_extract_info.
  destruct (extract_info env (extractions s) url) as [msg| |i]; try reflexivity.
  cbn. destruct (info_truthy i); reflexivity.
Qed.

Lemma extract_playlist_fails (env : Env) (url : str) (s : State) :
  no_data (extract_info env (extractions s) url) = true ->
  exists e, fst (extract_playlist env url s) = Raise e /\ is_Exception e = true.
Proof.
  unfold extract_playlist, bind, ydl_extract_info, no_data.
  destruct (extract_info env (extractions s) url) as [msg| |i]; intros H.
  - eexists. split; reflexivity.
  - eexists. split; reflexivity.
  - cbn. apply negb_true_iff in H. rewrite H. eexists. split; reflexivity.
Qed.

Lemma extract_playlist_raises (env : Env) (url : str) (s : State) (e : Exn) :
  fst (extract_playlist env url s) = Raise e -> is_Exception e = true.
Proof.
  unfold extract_playlist, bind, ydl_extract_info.
  destruct (extract_info env (extractions s) url) as [msg| |i]; cbn.
  - intros [= <-]. reflexivity.
  - intros [= <-]. reflexivity.
  - destruct (info_truthy i); cbn; [discriminate|]. intros [= <-]. reflexivity.
Qed.

(** What a build from entries leaves behind, whatever the entries are. *)
Lemma build_entries_frame (env : Env) (info : Info) (name : option str) (descr : str)
    (s : State) :
  let r := build_freetube_from_entries env info name descr s in
  files (snd r) = files s /\ dirs (snd r) = dirs s /\ disk (snd r) = disk s
  /\ trace (snd r) = trace s /\ extractions (snd r) = extractions s
  /\ (forall e, fst r = Raise e -> is_Exception e = true).
Proof.
  cbv zeta.
  destruct (split_options (entries_of info)) as [(es & He)|(es & rest & He)].
  - destruct (build_entries_ok env info name descr s es He)
      as (ft & s' & E & _ & _ & _ & _ & _ & H1 & H2 & H3 & H4 & H5).
    rewrite E. cbn [fst snd]. repeat split; try assumption. discriminate.
  - destruct (build_entries_none env info name descr s es rest He)
      as (s' & E & H1 & H2 & H3 & H4 & H5).
    rewrite E. cbn [fst snd]. repeat split; try assumption.
    intros e [= <-]. reflexivity.
Qed.

Lemma urls_loop_fails (env : Env) (args : Args) (urls : list str)
    (built : list FreeTubePlaylist * list (str * list str)) (s : State) (k : nat) :
  (k < List.length urls)%nat ->
  no_data (extract_info env (extractions s + k) (nth k urls [])) = true ->
  exists e s',
    for_fold urls built (fun built url =>
      info <- extract_playlist env url ;;
      let name := if (List.length (a_playlist_url args) =? 1)%nat
                     && option_truthy (a_name args)
                  then a_name args else None in
      ft <- build_freetube_from_entries env info name (a_description args) ;;
      ret (fst built ++ [ft], snd built ++ [piped_set ft])) s
    = (Raise e, s')
    /\ is_Exception e = true
    /\ files s' = files s /\ dirs s' = dirs s /\ disk s' = disk s
    /\ trace s' = trace s.
Proof.
  revert built s k. induction urls as [|url urls IH]; intros built s k Hk Hx.
  - cbn in Hk. lia.
  - cbn [for_fold]. unfold bind at 1. unfold bind at 1.
    pose proof (extract_playlist_state env url s) as Hs.
    pose proof (extract_playlist_raises env url s) as Hr.
    destruct (extract_playlist env url s) as [[info|e] s1] eqn:Ex;
      cbn [fst snd] in Hs, Hr; subst s1.
    2:{ exists e, (set_extractions (S (extractions s)) s).
        split; [reflexivity|]. split; [apply Hr; reflexivity|]. repeat split. }
    destruct k as [|k].
    { exfalso. replace (extractions s + 0)%nat with (extractions s) in Hx by lia.
      cbn [nth] in Hx.
      destruct (extract_playlist_fails env url s Hx) as (e & He & _).
      rewrite Ex in He. discriminate He. }
    cbv zeta. unfold bind at 1.
    match goal with
    | |- context [build_freetube_from_entries env info ?nm ?d ?st] =>
      pose proof (build_entries_frame env info nm d st) as Hb; cbv zeta in Hb;
      destruct (build_freetube_from_entries env info nm d st) as [[ft|e] s2] eqn:Eb
    end;
      cbn [fst snd files dirs disk trace extractions set_extractions] in Hb;
      destruct Hb as (H1 & H2 & H3 & H4 & H5 & H6).
    2:{ exists e, s2. split; [reflexivity|]. split; [apply H6; reflexivity|].
        repeat split; assumption. }
    unfold ret at 1.
    destruct (IH (fst built ++ [ft], snd built ++ [piped_set ft]) s2 k)
      as (e & s' & E & He & G1 & G2 & G3 & G4).
    { cbn [List.length] in Hk. lia. }
    { rewrite H5. replace (S (extractions s) + k)%nat with (extractions s + S k)%nat by lia.
      exact Hx. }
    exists e, s'. split; [exact E|]. split; [exact He|].
    repeat split; congruence.
Qed.

Lemma exit_status_exception (e : Exn) :
  is_Exception e = true -> exit_status (Raise e) = 1%Z.
Proof. destruct e; try reflexivity. discriminate. Qed.

(** X28: all playlists are extracted before anything is exported: when yt-dlp
    has no data for one of the URLs, the run ends with an uncaught
    exception (status 1) and no file or directory has been written,
    whatever the export format and however many playlists came before. *)
Theorem main_extraction_failure (env : Env) (args : Args) (s : State) (k : nat) :
  export_eqb (a_export args) NewpipeSubs = false ->
  option_truthy (a_ids_file args) = false ->
  (k < List.length (a_playlist_url args))%nat ->
  no_data (extract_info env (extractions s + k) (nth k (a_playlist_url args) [])) = true ->
  let r := main env args s in
  exit_status (fst r) = 1%Z
  /\ files (snd r) = files s /\ dirs (snd r) = dirs s /\ disk (snd r) = disk s
  /\ trace (snd r) = trace s.
Proof.
  intros Hk Hi Hlen Hx r.
  assert (E : exists e s', main env args s = (Raise e, s') /\ is_Exception e = true
                           /\ files s' = files s /\ dirs s' = dirs s
                           /\ disk s' = disk s /\ trace s' = trace s).
  { unfold main. rewrite Hk, Hi.
    assert (Hu : (0 <? List.length (a_playlist_url args))%nat = true)
      by (apply Nat.ltb_lt; lia).
    rewrite Hu. cbn [negb andb].
    unfold bind at 1.
    pose proof (YTDLPClient_state env (a_cookies args) (a_browser_cookies args) s) as Hs.
    destruct (YTDLPClient env (a_cookies args) (a_browser_cookies args) s)
      as [[[]|e0] s0] eqn:Ec; cbn [snd] in Hs; subst s0.
    2:{ exists e0, s. split; [reflexivity|]. split; [|repeat split].
        unfold YTDLPClient in Ec. destruct (option_truthy (a_cookies args));
          [discriminate Ec|].
        destruct (cookie_spec_error env _); [|discriminate Ec].
        injection Ec as <-. reflexivity. }
    unfold bind at 1. unfold ret at 1. unfold bind at 1.
    destruct (urls_loop_fails env args (a_playlist_url args) ([], []) s k Hlen Hx)
      as (e & s' & El & He & H1 & H2 & H3 & H4).
    cbv zeta in El |- *. rewrite El. exists e, s'. split; [reflexivity|]. split; [exact He|].
    repeat split; assumption. }
  destruct E as (e & s' & E & He & H1 & H2 & H3 & H4).
  subst r. rewrite E. cbn [fst snd].
  split; [apply exit_status_exception, He|]. repeat split; assumption.
Qed.

Lemma main_extraction_failure_witness :
  let args :=
    {| a_playlist_url := [py "https://www.youtube.com/playlist?list=PL1"];
       a_ids_file := None; a_name := None;
       a_description := []; a_browser_cookies := None; a_cookies := None;
       a_skip_authcheck := false; a_sleep := None; a_export := PipedJson;
       a_output := None; a_path := None; a_split := None; a_split_dir := None;
       a_pretty := false; a_newpipe_version := py "0.19.8";
       a_newpipe_version_int := 953; a_quiet := false; a_verbose := false |} in
  exit_status (fst (main sample_env args empty_state)) = 1%Z
  /\ files (snd (main sample_env args empty_state)) = files empty_state.
Proof.
  intros args.
  destruct (main_extraction_failure sample_env args empty_state 0) as (H1 & H2 & _);
    [reflexivity|reflexivity|cbn; lia|reflexivity|].
  split; [exact H1|exact H2].
Defined.

(** *** From the URLs to the list files *)








(** ** Two playlists, one file name *)




